(** * SynologyTelegramBot: the temporal and decision engine of telegram_bot.py

    A shallow embedding of the retry wrapper, the two time-bounded caches,
    the price-threshold ladder and the birthday / postcard scheduler of
    [src/telegram_bot.py], with the properties the specification states
    about them. *)

From Stdlib Require Import ZArith List Bool Lia String Permutation.
From Stdlib Require Import Sorting.Sorted.
Import ListNotations.

Local Open Scope string_scope.
Local Open Scope list_scope.
Local Open Scope Z_scope.

(** ** Exceptions and results

    The exceptions the program tells apart.  [ApiException] is telebot's,
    as its API calls raise it with the [error_code] Telegram answered (the
    only exceptions [api_request_with_backoff] catches are telebot's);
    [ApiHTTPException] and [ApiInvalidJSONException] are the two kinds of
    telebot's [ApiException] that carry no [error_code] (an HTTP status
    other than 200, a response that is not JSON).  The others are what the
    HTTP client, dict lookups, attribute lookups, [datetime.date],
    [time.sleep] and the program itself raise. *)

Inductive exn : Type :=
| ApiException (error_code : Z)
| HTTPError (status_code : Z)
| KeyError (key : string)
| TypeError (msg : string)
| ValueError (msg : string)
| OverflowError (msg : string)
| Exception (msg : string)
| ApiHTTPException (msg : string)
| ApiInvalidJSONException (msg : string)
| AttributeError (msg : string).

Inductive outcome (A : Type) : Type :=
| Return (a : A)
| Raise (e : exn).

Arguments Return {A} a.
Arguments Raise {A} e.

(** ** [datetime.date]

    The proleptic Gregorian calendar of CPython's [datetime] module: a date
    is a (year, month, day) triple, ordered lexicographically; arithmetic
    with [timedelta] and [weekday()] go through the ordinal (0001-01-01 is
    day 1, a Monday). *)

Module PyDate.

Definition MINYEAR : Z := 1.
Definition MAXYEAR : Z := 9999.
Definition MAXORDINAL : Z := 3652059.

Record date : Type := mkdate { year : Z; month : Z; day : Z }.

Definition is_leap (y : Z) : bool :=
  (y mod 4 =? 0) && (negb (y mod 100 =? 0) || (y mod 400 =? 0)).

Definition DAYS_IN_MONTH (m : Z) : Z :=
  match m with
  | 1 => 31 | 2 => 28 | 3 => 31 | 4 => 30 | 5 => 31 | 6 => 30
  | 7 => 31 | 8 => 31 | 9 => 30 | 10 => 31 | 11 => 30 | 12 => 31
  | _ => -1
  end.

Definition DAYS_BEFORE_MONTH (m : Z) : Z :=
  match m with
  | 1 => 0 | 2 => 31 | 3 => 59 | 4 => 90 | 5 => 120 | 6 => 151
  | 7 => 181 | 8 => 212 | 9 => 243 | 10 => 273 | 11 => 304 | 12 => 334
  | _ => -1
  end.

Definition days_before_year (y : Z) : Z :=
  let y := y - 1 in y * 365 + y / 4 - y / 100 + y / 400.

Definition days_in_month (y m : Z) : Z :=
  if (m =? 2) && is_leap y then 29 else DAYS_IN_MONTH m.

Definition days_before_month (y m : Z) : Z :=
  DAYS_BEFORE_MONTH m + (if (2 <? m) && is_leap y then 1 else 0).

Definition ymd2ord (y m d : Z) : Z :=
  days_before_year y + days_before_month y m + d.

(** [_ord2ymd]: the 400/100/4/1-year cycle decomposition. *)
Definition ord2ymd (n : Z) : Z * Z * Z :=
  let n := n - 1 in
  let n400 := n / 146097 in
  let n := n mod 146097 in
  let y := n400 * 400 + 1 in
  let n100 := n / 36524 in
  let n := n mod 36524 in
  let n4 := n / 1461 in
  let n := n mod 1461 in
  let n1 := n / 365 in
  let n := n mod 365 in
  let y := y + n100 * 100 + n4 * 4 + n1 in
  if (n1 =? 4) || (n100 =? 4) then (y - 1, 12, 31)
  else
    let leapyear := (n1 =? 3) && (negb (n4 =? 24) || (n100 =? 3)) in
    let m := Z.shiftr (n + 50) 5 in
    let preceding :=
      DAYS_BEFORE_MONTH m + (if (2 <? m) && leapyear then 1 else 0) in
    if n <? preceding
    then
      let m := m - 1 in
      let preceding :=
        preceding
        - (DAYS_IN_MONTH m + (if (m =? 2) && leapyear then 1 else 0)) in
      (y, m, n - preceding + 1)
    else (y, m, n - preceding + 1).

(** What [_check_date_fields] accepts *)
Definition valid_ymd (y m d : Z) : bool :=
  (MINYEAR <=? y) && (y <=? MAXYEAR) &&
  (1 <=? m) && (m <=? 12) &&
  (1 <=? d) && (d <=? days_in_month y m).

Definition valid_date (d : date) : bool := valid_ymd (year d) (month d) (day d).

(** [date(y, m, d)], with the checks in the order [_check_date_fields]
    makes them *)
Definition date_new (y m d : Z) : outcome date :=
  if negb ((MINYEAR <=? y) && (y <=? MAXYEAR))
  then Raise (ValueError "year is out of range")
  else if negb ((1 <=? m) && (m <=? 12))
  then Raise (ValueError "month must be in 1..12")
  else if negb ((1 <=? d) && (d <=? days_in_month y m))
  then Raise (ValueError "day is out of range for month")
  else Return (mkdate y m d).

(** [d.replace(year=y)] *)
Definition replace_year (d : date) (y : Z) : outcome date :=
  date_new y (month d) (day d).

Definition toordinal (d : date) : Z := ymd2ord (year d) (month d) (day d).

Definition fromordinal (n : Z) : date :=
  let '(y, m, d) := ord2ymd n in mkdate y m d.

(** [d.weekday()]: Monday is 0, Sunday is 6. *)
Definition weekday (d : date) : Z := (toordinal d + 6) mod 7.

(** [d + timedelta(days=n)]; [d - timedelta(days=n)] is [add_days d (- n)]. *)
Definition add_days (d : date) (n : Z) : outcome date :=
  let o := toordinal d + n in
  if (0 <? o) && (o <=? MAXORDINAL) then Return (fromordinal o)
  else Raise (OverflowError "date value out of range").

(** [a < b] compares the (year, month, day) tuples. *)
Definition date_ltb (a b : date) : bool :=
  (year a <? year b)
  || ((year a =? year b)
      && ((month a <? month b)
          || ((month a =? month b) && (day a <? day b)))).

Definition date_eqb (a b : date) : bool :=
  (year a =? year b) && (month a =? month b) && (day a =? day b).

(** [(a - b).days] *)
Definition days_between (a b : date) : Z := toordinal a - toordinal b.

(** A bounded check: [P] on [fuel] consecutive integers from [i] on. *)
Fixpoint check_range (fuel : nat) (i : Z) (P : Z -> bool) : bool :=
  match fuel with
  | O => true
  | S f => P i && check_range f (i + 1) P
  end.

(** Day [r + 1] of the first 400-year cycle converts to a well-formed
    (year, month, day) and back to [r + 1]. *)
Definition cycle_ok (r : Z) : bool :=
  let '(y, m, d) := ord2ymd (r + 1) in
  (ymd2ord y m d =? r + 1) && (1 <=? y) && (y <=? 400)
  && (1 <=? m) && (m <=? 12) && (1 <=? d) && (d <=? days_in_month y m).

End PyDate.

(** ** [api_request_with_backoff] (lines 59-71)

    The wrapper is generic in the wrapped callable, so it is written over an
    arbitrary world [W] in which callables run ([action]: the value returned
    or the exception raised, and the world after the call) and in which
    [time.sleep] acts. *)

Module Backoff.

Section Wrapper.

Context {W A : Type}.

(** [time.sleep(seconds)] *)
Variable sleep : Z -> W -> W.

Definition action : Type := W -> outcome A * W.

(** The [while retries < max_retries] loop.  [retries] only grows, by one
    per iteration that does not leave the function, so the loop is
    structural in [remaining = max_retries - retries].  Inside the handler
    [e.error_code] raises [AttributeError] for an [ApiException] that has
    none, and [time.sleep] raises [ValueError] for a negative delay; both
    leave the function. *)
Fixpoint retry_loop (func : action) (initial_delay : Z)
    (remaining : nat) (retries : Z) (w : W) : outcome A * W :=
  match remaining with
  | O => (Raise (Exception "Max retries reached"), w)
  | S remaining' =>
      match func w with
      | (Return v, w1) => (Return v, w1)
      | (Raise (ApiException error_code), w1) =>
          if error_code =? 502 then
            let delay := initial_delay * 2 ^ retries in
            if delay <? 0 then
              (Raise (ValueError "sleep length must be non-negative"), w1)
            else
              retry_loop func initial_delay remaining' (retries + 1)
                (sleep delay w1)
          else (Raise (ApiException error_code), w1)
      | (Raise (ApiHTTPException _), w1)
      | (Raise (ApiInvalidJSONException _), w1) =>
          (Raise (AttributeError "object has no attribute 'error_code'"), w1)
      | (Raise e, w1) => (Raise e, w1)
      end
  end.

Definition api_request_with_backoff (func : action)
    (max_retries : nat) (initial_delay : Z) : action :=
  retry_loop func initial_delay max_retries 0.

End Wrapper.

(** The failures the wrapper retries: telebot's [ApiException] carrying
    error code 502 (bad gateway). *)
Definition transient (e : exn) : bool :=
  match e with
  | ApiException error_code => error_code =? 502
  | _ => false
  end.

(** The exceptions the [except ApiException] clause catches and that have
    no [error_code] to look at. *)
Definition lacks_error_code (e : exn) : bool :=
  match e with
  | ApiHTTPException _ | ApiInvalidJSONException _ => true
  | _ => false
  end.

(** The specification's Transient class, "upstream signals temporary
    unavailability, e.g., a gateway/overload condition", read on the status
    an upstream answers: 502 Bad Gateway, 503 Service Unavailable, 504
    Gateway Timeout, 429 Too Many Requests, whichever client reports it. *)
Definition signals_unavailability (e : exn) : bool :=
  match e with
  | ApiException code | HTTPError code =>
      (code =? 502) || (code =? 503) || (code =? 504) || (code =? 429)
  | _ => false
  end.

(** *** A scripted callable

    To count invocations and sleeps, the wrapper is run on a callable that
    answers its [k]-th invocation with [script k], in a world that records
    how often it was invoked and every delay passed to [time.sleep]. *)

Record probe : Type := mkprobe { invocations : nat; slept : list Z }.

Definition probe_sleep (seconds : Z) (p : probe) : probe :=
  mkprobe (invocations p) (slept p ++ [seconds]).

Definition scripted {A : Type} (script : nat -> outcome A)
  : probe -> outcome A * probe :=
  fun p => (script (invocations p), mkprobe (S (invocations p)) (slept p)).

Definition probe0 : probe := mkprobe 0 [].

Definition total_delay (p : probe) : Z := fold_right Z.add 0 (slept p).

(** The delays slept before retries number [0] to [k - 1], counted from
    [retries]. *)
Definition delays (initial_delay retries : Z) (k : nat) : list Z :=
  map (fun a => initial_delay * 2 ^ (retries + Z.of_nat a)) (seq 0 k).

(** Scripts: two bad gateways then a value; a malformed response; a bad
    gateway for ever; a bad gateway followed by a missing page. *)
Definition two_then_ok (k : nat) : outcome Z :=
  match k with
  | O | S O => Raise (ApiException 502)
  | _ => Return 42
  end.

Definition malformed (k : nat) : outcome Z :=
  Raise (ValueError "Unexpected response format from CoinGecko API").

Definition bad_gateway (k : nat) : outcome Z := Raise (ApiException 502).

Definition bad_gateway_once (k : nat) : outcome Z :=
  match k with
  | O => Raise (ApiException 502)
  | _ => Raise (HTTPError 404)
  end.

(** More scripts: a data provider behind a bad gateway (what
    [raise_for_status] makes of a 502); Telegram unavailable for one call;
    a Telegram response that is not JSON. *)
Definition http_bad_gateway (k : nat) : outcome Z := Raise (HTTPError 502).

Definition unavailable_once (k : nat) : outcome Z :=
  match k with
  | O => Raise (ApiException 503)
  | _ => Return 42
  end.

Definition invalid_json (k : nat) : outcome Z :=
  Raise (ApiInvalidJSONException "The server returned an invalid JSON response").

End Backoff.

(** ** The two caches (lines 55-56, 116-215) *)

Module Bot.

(** Python values that travel through the fetchers: [None], numbers,
    strings and dicts (JSON objects), the latter in insertion order. *)
#[warnings="-register-all"]
Inductive value : Type :=
| VNone
| VNum (n : Z)
| VStr (s : string)
| VDict (items : list (string * value)).

Fixpoint lookup (key : string) (items : list (string * value)) : option value :=
  match items with
  | [] => None
  | (k, v) :: rest => if String.eqb k key then Some v else lookup key rest
  end.

(** [v[key]] *)
Definition getitem (v : value) (key : string) : outcome value :=
  match v with
  | VDict items =>
      match lookup key items with
      | Some x => Return x
      | None => Raise (KeyError key)
      end
  | _ => Raise (TypeError "object is not subscriptable")
  end.

(** [if v:] *)
Definition truthy (v : value) : bool :=
  match v with
  | VNone => false
  | VNum n => negb (n =? 0)
  | VStr s => negb (String.eqb s "")
  | VDict [] => false
  | VDict (_ :: _) => true
  end.

(** [f"{v:.2f}"] needs a number. *)
Definition format_2f (v : value) : outcome unit :=
  match v with
  | VNum _ => Return tt
  | _ => Raise (TypeError "unsupported format string")
  end.

(** [{'data': ..., 'last_updated': ...}]; times are naive [datetime]s,
    counted in microseconds. *)
Record cache : Type := mkcache { data : value; last_updated : option Z }.

Definition empty_cache : cache := mkcache VNone None.

Definition seconds (n : Z) : Z := n * 1000000.

(** The process state the fetchers see: the wall clock, the delays slept so
    far, the number of requests issued to each upstream endpoint, and the
    two global caches. *)
Record world : Type := mkworld {
  clock : Z;
  slept : list Z;
  mempool_requests : nat;
  change_requests : nat;
  coingecko_requests : nat;
  MEMPOOL_CACHE : cache;
  BITCOIN_CACHE : cache
}.

Definition M (A : Type) : Type := world -> outcome A * world.

Definition ret {A : Type} (a : A) : M A := fun w => (Return a, w).

Definition bind {A B : Type} (c : M A) (k : A -> M B) : M B :=
  fun w =>
    match c w with
    | (Return a, w1) => k a w1
    | (Raise e, w1) => (Raise e, w1)
    end.

(** [try: body  except Exception: handler] *)
Definition try_except {A : Type} (body : M A) (handler : exn -> M A) : M A :=
  fun w =>
    match body w with
    | (Return a, w1) => (Return a, w1)
    | (Raise e, w1) => handler e w1
    end.

Definition lift {A : Type} (o : outcome A) : M A := fun w => (o, w).

Notation "x <- c ;; k" := (bind c (fun x => k))
  (at level 61, c at next level, right associativity).
Notation "c ;;; k" := (bind c (fun _ => k))
  (at level 61, right associativity).

(** [time.sleep(seconds)] *)
Definition sleep (secs : Z) (w : world) : world :=
  mkworld (clock w + seconds secs) (slept w ++ [secs])
    (mempool_requests w) (change_requests w) (coingecko_requests w)
    (MEMPOOL_CACHE w) (BITCOIN_CACHE w).

(** Time passing between two calls. *)
Definition advance (dt : Z) (w : world) : world :=
  mkworld (clock w + dt) (slept w)
    (mempool_requests w) (change_requests w) (coingecko_requests w)
    (MEMPOOL_CACHE w) (BITCOIN_CACHE w).

Definition set_MEMPOOL_CACHE (c : cache) : M unit :=
  fun w =>
    (Return tt,
     mkworld (clock w) (slept w)
       (mempool_requests w) (change_requests w) (coingecko_requests w)
       c (BITCOIN_CACHE w)).

Definition set_BITCOIN_CACHE (c : cache) : M unit :=
  fun w =>
    (Return tt,
     mkworld (clock w) (slept w)
       (mempool_requests w) (change_requests w) (coingecko_requests w)
       (MEMPOOL_CACHE w) c).

(** [cache['last_updated'] and (current_time - cache['last_updated']) <
    timedelta(seconds=60)] *)
Definition fresh (c : cache) (current_time : Z) : bool :=
  match last_updated c with
  | Some t => current_time - t <? seconds 60
  | None => false
  end.

Section Upstream.

(** The upstream providers: what the [k]-th run of each raw fetch yields.
    For Mempool.space the EUR price, the USD price and the fastest fee;
    for CoinGecko's change endpoint the 24h change; for CoinGecko's price
    endpoint the decoded JSON body.  A failed HTTP exchange, a bad status
    or a missing field is the exception raised. *)
Variable mempool_api : nat -> outcome (Z * Z * Z).
Variable coingecko_change_api : nat -> outcome Z.
Variable coingecko_api : nat -> outcome value.

(** [fetch_data] of [get_mempool_data] (lines 127-140) *)
Definition mempool_fetch_data : M value :=
  fun w =>
    let w1 :=
      mkworld (clock w) (slept w)
        (S (mempool_requests w)) (change_requests w) (coingecko_requests w)
        (MEMPOOL_CACHE w) (BITCOIN_CACHE w) in
    match mempool_api (mempool_requests w) with
    | Return (eur, usd, fee) =>
        (Return (VDict [("price_eur", VNum eur); ("price_usd", VNum usd);
                        ("fee", VNum fee)]), w1)
    | Raise e => (Raise e, w1)
    end.

(** The [try] block of [get_mempool_data] (lines 143-145) *)
Definition mempool_refresh (current_time : Z) : M value :=
  d <- Backoff.api_request_with_backoff sleep mempool_fetch_data 5 1 ;;
  set_MEMPOOL_CACHE (mkcache d (Some current_time)) ;;;
  ret d.

(** [get_mempool_data] (lines 116-148) *)
Definition get_mempool_data : M value :=
  fun w =>
    let current_time := clock w in
    if fresh (MEMPOOL_CACHE w) current_time
    then (Return (data (MEMPOOL_CACHE w)), w)
    else try_except (mempool_refresh current_time) (fun _ => ret VNone) w.

(** [fetch_data] of [get_coingecko_price_change] (lines 157-163) *)
Definition change_fetch_data : M value :=
  fun w =>
    let w1 :=
      mkworld (clock w) (slept w)
        (mempool_requests w) (S (change_requests w)) (coingecko_requests w)
        (MEMPOOL_CACHE w) (BITCOIN_CACHE w) in
    match coingecko_change_api (change_requests w) with
    | Return c => (Return (VNum c), w1)
    | Raise e => (Raise e, w1)
    end.

(** [get_coingecko_price_change] (lines 150-171) *)
Definition get_coingecko_price_change : M value :=
  try_except
    (price_change <-
       Backoff.api_request_with_backoff sleep change_fetch_data 5 1 ;;
     lift (format_2f price_change) ;;;
     ret price_change)
    (fun _ => ret VNone).

(** [fetch_coingecko] of [get_bitcoin_price] (lines 202-205) *)
Definition fetch_coingecko : M value :=
  fun w =>
    (coingecko_api (coingecko_requests w),
     mkworld (clock w) (slept w)
       (mempool_requests w) (change_requests w) (S (coingecko_requests w))
       (MEMPOOL_CACHE w) (BITCOIN_CACHE w)).

(** The [try] block of [get_bitcoin_price] (lines 185-211) *)
Definition bitcoin_refresh (current_time : Z) : M value :=
  mempool_data <-
    Backoff.api_request_with_backoff sleep get_mempool_data 5 1 ;;
  price_change <-
    Backoff.api_request_with_backoff sleep get_coingecko_price_change 5 1 ;;
  bitcoin_data <-
    (if truthy mempool_data then
       eur <- lift (getitem mempool_data "price_eur") ;;
       usd <- lift (getitem mempool_data "price_usd") ;;
       fee <- lift (getitem mempool_data "fee") ;;
       lift (format_2f eur) ;;;
       lift (format_2f usd) ;;;
       ret (VDict
              [("bitcoin",
                VDict
                  [("eur", eur); ("usd", usd);
                   ("eur_24h_change",
                    match price_change with
                    | VNone => VStr "N/A"
                    | _ => price_change
                    end);
                   ("suggested_fee", fee)])])
     else
       bitcoin_data <-
         Backoff.api_request_with_backoff sleep fetch_coingecko 5 1 ;;
       inner <- lift (getitem bitcoin_data "bitcoin") ;;
       eur <- lift (getitem inner "eur") ;;
       lift (format_2f eur) ;;;
       ret bitcoin_data) ;;
  set_BITCOIN_CACHE (mkcache bitcoin_data (Some current_time)) ;;;
  ret bitcoin_data.

(** [get_bitcoin_price] (lines 173-215) *)
Definition get_bitcoin_price : M value :=
  fun w =>
    let current_time := clock w in
    if fresh (BITCOIN_CACHE w) current_time
    then (Return (data (BITCOIN_CACHE w)), w)
    else try_except (bitcoin_refresh current_time) (fun _ => ret VNone) w.

End Upstream.

(** What a call may do to the world besides touching the caches: let time
    pass and issue upstream requests. *)
Definition grows (w w' : world) : Prop :=
  clock w <= clock w'
  /\ (mempool_requests w <= mempool_requests w')%nat
  /\ (change_requests w <= change_requests w')%nat
  /\ (coingecko_requests w <= coingecko_requests w')%nat.

(** ... leaving both caches alone *)
Definition frame_all (w w' : world) : Prop :=
  grows w w'
  /\ MEMPOOL_CACHE w' = MEMPOOL_CACHE w
  /\ BITCOIN_CACHE w' = BITCOIN_CACHE w.

(** ... leaving [BITCOIN_CACHE] alone *)
Definition frame_bitcoin (w w' : world) : Prop :=
  grows w w' /\ BITCOIN_CACHE w' = BITCOIN_CACHE w.

(** *** Concrete worlds *)

Definition down_mempool (k : nat) : outcome (Z * Z * Z) := Raise (HTTPError 503).
Definition down_change (k : nat) : outcome Z := Raise (HTTPError 503).
Definition down_coingecko (k : nat) : outcome value := Raise (HTTPError 503).

Definition up_mempool (k : nat) : outcome (Z * Z * Z) :=
  Return (60000, 65000, 12).
Definition up_change (k : nat) : outcome Z := Return 3.

Definition snapshot : value :=
  VDict [("price_eur", VNum 60000); ("price_usd", VNum 65000);
         ("fee", VNum 12)].

Definition combined : value :=
  VDict [("bitcoin",
          VDict [("eur", VNum 60000); ("usd", VNum 65000);
                 ("eur_24h_change", VNum 3); ("suggested_fee", VNum 12)])].

(** Both caches filled 100 seconds ago. *)
Definition stale_world : world :=
  mkworld (seconds 1000) [] 0 0 0
    (mkcache snapshot (Some (seconds 900)))
    (mkcache combined (Some (seconds 900))).

(** Nothing cached yet. *)
Definition cold_world : world :=
  mkworld (seconds 1000) [] 0 0 0 empty_cache empty_cache.

Definition after_failed_mempool : world :=
  mkworld (seconds 1000) [] 1 0 0
    (mkcache snapshot (Some (seconds 900)))
    (mkcache combined (Some (seconds 900))).

Definition after_failed_bitcoin : world :=
  mkworld (seconds 1000) [] 1 1 1
    (mkcache snapshot (Some (seconds 900)))
    (mkcache combined (Some (seconds 900))).

Definition after_mempool : world :=
  mkworld (seconds 1000) [] 1 0 0
    (mkcache snapshot (Some (seconds 1000))) empty_cache.

Definition after_bitcoin : world :=
  mkworld (seconds 1000) [] 1 1 0
    (mkcache snapshot (Some (seconds 1000)))
    (mkcache combined (Some (seconds 1000))).

End Bot.

(** ** The price-threshold ladder (lines 57, 217-239) *)

Module Ladder.

(** [LAST_NOTIFIED_PRICE]: [{'price': ..., 'thresholds': [...],
    'notified': [...]}]. *)
Record ladder : Type := mkladder {
  price : Z;
  thresholds : list Z;
  notified : list Z
}.

(** The state the program starts from when nothing was persisted. *)
Definition default_ladder : ladder := mkladder 0 [] [].

(** [x in l] *)
Definition mem (x : Z) (l : list Z) : bool := existsb (Z.eqb x) l.

(** [l.sort()] on integers *)
Fixpoint insert (x : Z) (l : list Z) : list Z :=
  match l with
  | [] => [x]
  | y :: rest => if x <=? y then x :: l else y :: insert x rest
  end.

Fixpoint sort (l : list Z) : list Z :=
  match l with
  | [] => []
  | x :: rest => insert x (sort rest)
  end.

Section Sink.

(** The notification sink: [send_message threshold] is what sending the
    "price has crossed" message for [threshold] to the configured chats
    does, [None] when every [bot.send_message] returns and [Some e] when
    one of them raises [e]. *)
Variable send_message : Z -> option exn.

(** The [for threshold in thresholds] loop (lines 227-236).  It returns
    how the loop ended, the [notified] list as the loop left it, and the
    thresholds a notification was issued for, in order. *)
Fixpoint notify_loop (current_price : Z) (ths notified events : list Z)
  : outcome unit * list Z * list Z :=
  match ths with
  | [] => (Return tt, notified, events)
  | threshold :: rest =>
      if (threshold <=? current_price) && negb (mem threshold notified)
      then
        let notified := notified ++ [threshold] in
        let events := events ++ [threshold] in
        match send_message threshold with
        | None => notify_loop current_price rest notified events
        | Some e => (Raise e, notified, events)
        end
      else notify_loop current_price rest notified events
  end.

(** [check_and_notify_price_threshold]: the outcome, the ladder after the
    call, and the notification events of this call.  The lists are
    mutated in place, so what was appended before an exception stays;
    [price] is only assigned once the loop has finished. *)
Definition check_and_notify_price_threshold (price_arg : Z) (st : ladder)
  : outcome unit * ladder * list Z :=
  let current_price := price_arg in
  let next_threshold := (current_price / 1000 + 1) * 1000 in
  let ths :=
    if mem next_threshold (thresholds st) then thresholds st
    else sort (thresholds st ++ [next_threshold]) in
  match notify_loop current_price ths (notified st) [] with
  | (Return _, notified', events) =>
      (Return tt, mkladder current_price ths notified', events)
  | (Raise e, notified', events) =>
      (Raise e, mkladder (price st) ths notified', events)
  end.

(** Successive calls, as the price loop makes them: the ladder after the
    last one and all events, in order. *)
Fixpoint run (prices : list Z) (st : ladder) : ladder * list Z :=
  match prices with
  | [] => (st, [])
  | p :: rest =>
      let '(_, st1, events) := check_and_notify_price_threshold p st in
      let '(st2, later) := run rest st1 in
      (st2, events ++ later)
  end.

End Sink.

(** The ladder invariant, as executable checks. *)
Definition subsetb (a b : list Z) : bool := forallb (fun x => mem x b) a.

Fixpoint increasingb (l : list Z) : bool :=
  match l with
  | [] => true
  | x :: rest =>
      match rest with
      | [] => true
      | y :: _ => (x <? y) && increasingb rest
      end
  end.

Definition ladder_inv (st : ladder) : bool :=
  subsetb (notified st) (thresholds st) && increasingb (thresholds st).

Fixpoint nondecreasingb (l : list Z) : bool :=
  match l with
  | [] => true
  | x :: rest =>
      match rest with
      | [] => true
      | y :: _ => (x <=? y) && nondecreasingb rest
      end
  end.

(** A sink that always delivers. *)
Definition delivered (threshold : Z) : option exn := None.

End Ladder.

(** ** The birthday and postcard scheduler (lines 487-508, 557-624) *)

Module Scheduler.

Import PyDate.

(** A loop that may not end is run with fuel: [None] is "still running when
    the fuel ran out", [Some r] is how the code ended. *)
Definition fueled (A : Type) : Type := option (outcome A).

Definition fbind {A B : Type} (c : fueled A) (k : A -> fueled B) : fueled B :=
  match c with
  | Some (Return a) => k a
  | Some (Raise e) => Some (Raise e)
  | None => None
  end.

Notation "x <-- c ;; k" := (fbind c (fun x => k))
  (at level 61, c at next level, right associativity).

(** The next occurrence of a birthday and the days until it: the block
    shared by [get_next_birthday] (lines 497-503), [get_upcoming_birthdays]
    and [check_next_birthday] (lines 618-624). *)
Definition next_occurrence (birthday_date today : date) : outcome (date * Z) :=
  match replace_year birthday_date (year today) with
  | Raise e => Raise e
  | Return this_year_birthday =>
      if date_ltb this_year_birthday today then
        match replace_year this_year_birthday (year today + 1) with
        | Raise e => Raise e
        | Return this_year_birthday =>
            Return (this_year_birthday, days_between this_year_birthday today)
        end
      else Return (this_year_birthday, days_between this_year_birthday today)
  end.

(** [delivery_schedule] (lines 576-584) *)
Definition delivery_schedule (wd : Z) : outcome Z :=
  match wd with
  | 0 => Return 1
  | 1 => Return 1
  | 2 => Return 1
  | 3 => Return 1
  | 4 => Return 1
  | 5 => Return 3
  | 6 => Return 2
  | _ => Raise (KeyError "weekday")
  end.

(** [d.weekday() >= 5 or d in holidays] *)
Definition non_business (holidays : date -> bool) (d : date) : bool :=
  (5 <=? weekday d) || holidays d.

(** The loop of [get_next_business_day] (lines 564-565) *)
Fixpoint next_business_loop (fuel : nat) (holidays : date -> bool)
    (next_day : date) : fueled date :=
  match fuel with
  | O => None
  | S fuel' =>
      if non_business holidays next_day then
        match add_days next_day 1 with
        | Return next_day => next_business_loop fuel' holidays next_day
        | Raise e => Some (Raise e)
        end
      else Some (Return next_day)
  end.

(** [get_next_business_day] (lines 561-566) *)
Definition get_next_business_day (fuel : nat) (d : date)
    (holidays : date -> bool) : fueled date :=
  match add_days d 1 with
  | Return next_day => next_business_loop fuel holidays next_day
  | Raise e => Some (Raise e)
  end.

(** The first loop of [get_postcard_send_date] (lines 589-590) *)
Fixpoint send_date_loop (fuel : nat) (holidays : date -> bool)
    (send_date : date) : fueled date :=
  match fuel with
  | O => None
  | S fuel' =>
      if non_business holidays send_date then
        match add_days send_date (-1) with
        | Return send_date => send_date_loop fuel' holidays send_date
        | Raise e => Some (Raise e)
        end
      else Some (Return send_date)
  end.

(** The second loop of [get_postcard_send_date] (lines 593-595); it hands
    back the send date together with the delivery date computed for it. *)
Fixpoint delivery_gap_loop (fuel : nat) (holidays : date -> bool)
    (send_date delivery_date : date) : fueled (date * date) :=
  match fuel with
  | O => None
  | S fuel' =>
      if 4 <? days_between delivery_date send_date then
        match add_days send_date (-1) with
        | Return send_date =>
            delivery_date <-- get_next_business_day fuel' send_date holidays ;;
            delivery_gap_loop fuel' holidays send_date delivery_date
        | Raise e => Some (Raise e)
        end
      else Some (Return (send_date, delivery_date))
  end.

Section Holidays.

(** [get_dutch_holidays year] is the object [holidays.NL(years=year)],
    seen through its membership test [d in nl_holidays]. *)
Variable get_dutch_holidays : Z -> date -> bool.

(** The body of [get_postcard_send_date] (lines 568-597), with the
    delivery date the last loop test used. *)
Definition postcard_dates (fuel : nat) (birthday_date today : date)
  : fueled (date * date) :=
  let nl_holidays := get_dutch_holidays (year today) in
  days_before <-- Some (delivery_schedule (weekday birthday_date)) ;;
  send_date <-- Some (add_days birthday_date (- days_before)) ;;
  send_date <-- send_date_loop fuel nl_holidays send_date ;;
  delivery_date <-- get_next_business_day fuel send_date nl_holidays ;;
  delivery_gap_loop fuel nl_holidays send_date delivery_date.

(** [get_postcard_send_date] *)
Definition get_postcard_send_date (fuel : nat) (birthday_date today : date)
  : fueled date :=
  dates <-- postcard_dates fuel birthday_date today ;;
  Some (Return (fst dates)).

End Holidays.

(** The calendar never closes five days in a row. *)
Definition no_five_day_closure (holidays : date -> bool) : Prop :=
  forall o, 1 <= o -> o + 4 <= MAXORDINAL ->
    exists k, 0 <= k <= 4 /\ non_business holidays (fromordinal (o + k)) = false.

(** With no holidays at all only weekends are closed, two days in a row. *)
Definition no_holidays (d : date) : bool := false.

(** A crowded calendar: the Dutch holidays of the turn of 2024 (25 and
    26 December, 1 January) and two more days off, Monday 30 and Tuesday
    31 December. *)
Definition crowded (y : Z) (d : date) : bool :=
  existsb (date_eqb d)
    [mkdate 2024 12 25; mkdate 2024 12 26; mkdate 2024 12 30;
     mkdate 2024 12 31; mkdate 2025 1 1].

(** A week off: Tuesday 24 to Friday 27 December 2024 are holidays. *)
Definition week_off (y : Z) (d : date) : bool :=
  existsb (date_eqb d)
    [mkdate 2024 12 24; mkdate 2024 12 25; mkdate 2024 12 26; mkdate 2024 12 27].

(** The calendars on which the retreat loop, which steps back without
    looking at the day it steps to, cannot land on a closed day: a business
    day that four closed days follow has no closed day right before it. *)
Definition no_closed_day_before_long_closure (holidays : date -> bool)
  : Prop :=
  forall o, 2 <= o -> o + 4 <= MAXORDINAL ->
    non_business holidays (fromordinal o) = false ->
    (forall k, 1 <= k <= 4 ->
       non_business holidays (fromordinal (o + k)) = true) ->
    non_business holidays (fromordinal (o - 1)) = false.

(** Christmas 2023: Monday 25 and Tuesday 26 December are holidays, so
    Friday 22 December is followed by four closed days. *)
Definition christmas (y : Z) (d : date) : bool :=
  existsb (date_eqb d) [mkdate 2023 12 25; mkdate 2023 12 26].

End Scheduler.

(** ** The price loop and the /bitcoin command (lines 241-262, 367-419) *)

Module PriceLoop.

Import Bot Ladder.

(** [pat in s] on strings *)
Fixpoint substring_of (pat s : string) : bool :=
  String.prefix pat s
  || match s with
     | EmptyString => false
     | String _ rest => substring_of pat rest
     end.

(** [key in v] *)
Definition contains (v : value) (key : string) : outcome bool :=
  match v with
  | VDict items =>
      Return (match lookup key items with Some _ => true | None => false end)
  | VStr s => Return (substring_of key s)
  | _ => Raise (TypeError "argument is not iterable")
  end.

(** [d.get(key, default)] on a dict *)
Definition dict_get_default (v : value) (key : string) (default : value)
  : outcome value :=
  match v with
  | VDict items =>
      Return (match lookup key items with Some x => x | None => default end)
  | _ => Raise (TypeError "object has no attribute 'get'")
  end.

(** [v == 'N/A'] *)
Definition is_na (v : value) : bool :=
  match v with
  | VStr s => String.eqb s "N/A"
  | _ => false
  end.

(** [get_fee_emoji] (lines 367-378); the emojis are named as the comments
    of the source name them. *)
Inductive fee_emoji : Type := Amazing | Great | OK | Meh | SuperBad.

Definition get_fee_emoji (fee : value) : outcome fee_emoji :=
  match fee with
  | VNum fee =>
      Return
        (if fee <=? 1 then Amazing
         else if (2 <=? fee) && (fee <=? 10) then Great
         else if (11 <=? fee) && (fee <=? 20) then OK
         else if (21 <=? fee) && (fee <=? 100) then Meh
         else SuperBad)
  | _ => Raise (TypeError "'<=' not supported between these types")
  end.

Inductive change_emoji : Type := GreenCircle | RedCircle | WhiteCircle | QuestionMark.

(** The replies of [send_bitcoin_price], by their variable parts. *)
Inductive reply : Type :=
| PriceReply (price : value) (change : change_emoji) (change_text : value)
    (fee : fee_emoji) (suggested_fee : value)
| SorryReply.

(** The process state the price loop and the /bitcoin command share: the
    world of the fetchers, the ladder, and what went out: the threshold
    notifications issued, the number of [bot.send_message] calls made for
    the volatility alert, and the replies to commands. *)
Record state : Type := mkstate {
  bot : world;
  LAST_NOTIFIED_PRICE : ladder;
  threshold_events : list Z;
  alert_sends : nat;
  replies : list reply
}.

Definition P (A : Type) : Type := state -> outcome A * state.

Definition pret {A : Type} (a : A) : P A := fun s => (Return a, s).

Definition pbind {A B : Type} (c : P A) (k : A -> P B) : P B :=
  fun s =>
    match c s with
    | (Return a, s1) => k a s1
    | (Raise e, s1) => (Raise e, s1)
    end.

Definition plift {A : Type} (o : outcome A) : P A := fun s => (o, s).

Notation "x <~ c ;; k" := (pbind c (fun x => k))
  (at level 61, c at next level, right associativity).
Notation "c ;;~ k" := (pbind c (fun _ => k))
  (at level 61, right associativity).

(** A fetcher run in the shared state *)
Definition on_bot {A : Type} (c : M A) : P A :=
  fun s =>
    let '(r, w) := c (bot s) in
    (r, mkstate w (LAST_NOTIFIED_PRICE s) (threshold_events s)
          (alert_sends s) (replies s)).

(** [time.sleep(seconds)] *)
Definition state_sleep (secs : Z) (s : state) : state :=
  mkstate (sleep secs (bot s)) (LAST_NOTIFIED_PRICE s) (threshold_events s)
    (alert_sends s) (replies s).

(** [current_price != LAST_NOTIFIED_PRICE['price']], for the numbers of
    [value], the integers.  (A float NaN, which differs from itself, is
    not among them.) *)
Definition differs_from (v : value) (z : Z) : bool :=
  match v with
  | VNum n => negb (n =? z)
  | _ => true
  end.

(** [abs(v) > bound] *)
Definition abs_gt (v : value) (bound : Z) : outcome bool :=
  match v with
  | VNum n => Return (bound <? Z.abs n)
  | _ => Raise (TypeError "bad operand type for abs()")
  end.

(** [v > 0], [v < 0] *)
Definition sign_emoji (v : value) : outcome change_emoji :=
  match v with
  | VNum n =>
      Return (if 0 <? n then GreenCircle
              else if n <? 0 then RedCircle else WhiteCircle)
  | _ => Raise (TypeError "'>' not supported between these types")
  end.

Section Environment.

Variable mempool_api : nat -> outcome (Z * Z * Z).
Variable coingecko_change_api : nat -> outcome Z.
Variable coingecko_api : nat -> outcome value.

(** The sink of the threshold notifications, as in [Ladder]. *)
Variable send_message : Z -> option exn.

(** [save_last_notified_price]: [None] when the file is written, [Some e]
    when writing raises [e]. *)
Variable save_last_notified_price : ladder -> option exn.

(** What the [k]-th [bot.send_message] of a volatility alert does. *)
Variable alert_api : nat -> outcome value.

(** [bot.reply_to(message, response)] *)
Variable reply_to : reply -> option exn.

(** [os.getenv('GROUP_CHAT_ID')], [os.getenv('PERSONAL_CHAT_ID')] *)
Variable GROUP_CHAT_ID PERSONAL_CHAT_ID : option string.

(** [if chat_id:] *)
Definition chat_configured (chat_id : option string) : bool :=
  match chat_id with
  | Some id => negb (String.eqb id "")
  | None => false
  end.

(** [check_and_notify_price_threshold(price, change_24h)] on the shared
    ladder, with the write to the file that ends it (line 239).  The price
    has to be a number for [price // 1000]. *)
Definition check_and_notify (price_arg change_24h : value) : P value :=
  fun s =>
    match price_arg with
    | VNum p =>
        let '(o, l, events) :=
          check_and_notify_price_threshold send_message p
            (LAST_NOTIFIED_PRICE s) in
        let s1 :=
          mkstate (bot s) l (threshold_events s ++ events)
            (alert_sends s) (replies s) in
        match o with
        | Raise e => (Raise e, s1)
        | Return _ =>
            match save_last_notified_price l with
            | Some e => (Raise e, s1)
            | None => (Return VNone, s1)
            end
        end
    | _ => (Raise (TypeError "unsupported operand type(s) for //"), s)
    end.

(** [lambda: bot.send_message(chat_id=chat_id, text=message_to_send)] *)
Definition send_alert : P value :=
  fun s =>
    (alert_api (alert_sends s),
     mkstate (bot s) (LAST_NOTIFIED_PRICE s) (threshold_events s)
       (S (alert_sends s)) (replies s)).

(** The [for chat_id in chat_ids] loop of the alert (lines 255-257) *)
Fixpoint send_alerts (chat_ids : list (option string)) : P unit :=
  match chat_ids with
  | [] => pret tt
  | chat_id :: rest =>
      (if chat_configured chat_id
       then Backoff.api_request_with_backoff state_sleep send_alert 5 1 ;;~
            pret tt
       else pret tt) ;;~
      send_alerts rest
  end.

(** The [try] block of [check_bitcoin_price] (lines 245-257) *)
Definition check_bitcoin_price_body : P unit :=
  bitcoin_data <~
    Backoff.api_request_with_backoff state_sleep
      (on_bot (get_bitcoin_price mempool_api coingecko_change_api
                 coingecko_api)) 5 1 ;;
  has_bitcoin <~
    (if truthy bitcoin_data then plift (contains bitcoin_data "bitcoin")
     else pret false) ;;
  if has_bitcoin then
    inner <~ plift (getitem bitcoin_data "bitcoin") ;;
    current_price <~ plift (getitem inner "eur") ;;
    inner <~ plift (getitem bitcoin_data "bitcoin") ;;
    change_24h <~ plift (getitem inner "eur_24h_change") ;;
    Backoff.api_request_with_backoff state_sleep
      (check_and_notify current_price change_24h) 5 1 ;;~
    big_change <~ plift (abs_gt change_24h 5) ;;
    price_moved <~
      (fun s =>
         (Return (big_change
                  && differs_from current_price
                       (price (LAST_NOTIFIED_PRICE s))), s)) ;;
    if price_moved then
      plift (format_2f current_price) ;;~
      plift (format_2f change_24h) ;;~
      send_alerts [GROUP_CHAT_ID; PERSONAL_CHAT_ID]
    else pret tt
  else pret tt.

(** [current_price] of a turn (line 246): [bitcoin_data['bitcoin']['eur']]
    of what [get_bitcoin_price] hands to the loop, when the turn gets that
    far. *)
Definition current_price_read (s : state) : option value :=
  match
    Backoff.api_request_with_backoff state_sleep
      (on_bot (get_bitcoin_price mempool_api coingecko_change_api
                 coingecko_api)) 5 1 s
  with
  | (Return bitcoin_data, _) =>
      match getitem bitcoin_data "bitcoin" with
      | Return inner =>
          match getitem inner "eur" with
          | Return current_price => Some current_price
          | Raise _ => None
          end
      | Raise _ => None
      end
  | (Raise _, _) => None
  end.

(** One turn of the [while True] loop of [check_bitcoin_price]: the [try]
    block, the [except] that only logs, and the hour of sleep. *)
Definition check_bitcoin_price_iteration (s : state) : state :=
  state_sleep 3600 (snd (check_bitcoin_price_body s)).

(** [send_bitcoin_price] (lines 380-419) *)
Definition send_bitcoin_price : P unit :=
  bitcoin_data <~
    on_bot (get_bitcoin_price mempool_api coingecko_change_api
              coingecko_api) ;;
  has_bitcoin <~
    (if truthy bitcoin_data then plift (contains bitcoin_data "bitcoin")
     else pret false) ;;
  response <~
    (if has_bitcoin then
       inner <~ plift (getitem bitcoin_data "bitcoin") ;;
       price <~ plift (getitem inner "eur") ;;
       inner <~ plift (getitem bitcoin_data "bitcoin") ;;
       change_24h <~ plift (getitem inner "eur_24h_change") ;;
       inner <~ plift (getitem bitcoin_data "bitcoin") ;;
       suggested_fee <~
         plift (dict_get_default inner "suggested_fee" (VStr "N/A")) ;;
       change <~
         (if is_na change_24h then pret (QuestionMark, VStr "N/A (API error)")
          else
            emoji <~ plift (sign_emoji change_24h) ;;
            plift (format_2f change_24h) ;;~
            pret (emoji, change_24h)) ;;
       fee <~ plift (get_fee_emoji suggested_fee) ;;
       plift (format_2f price) ;;~
       (if negb (is_na change_24h)
        then check_and_notify price change_24h ;;~ pret tt
        else pret tt) ;;~
       pret (PriceReply price (fst change) (snd change) fee suggested_fee)
     else pret SorryReply) ;;
  fun s =>
    match reply_to response with
    | Some e => (Raise e, s)
    | None =>
        (Return tt,
         mkstate (bot s) (LAST_NOTIFIED_PRICE s) (threshold_events s)
           (alert_sends s) (replies s ++ [response]))
    end.

End Environment.

(** Same alerts sent, same replies. *)
Definition quiet (s s' : state) : Prop :=
  alert_sends s' = alert_sends s /\ replies s' = replies s.

(** What CoinGecko's price endpoint answers, and an upstream that always
    answers it. *)
Definition coingecko_body : value :=
  VDict [("bitcoin",
          VDict [("eur", VNum 60000); ("usd", VNum 65000);
                 ("eur_24h_change", VNum 3)])].

Definition up_coingecko (k : nat) : outcome value := Return coingecko_body.

(** A day on which the price moved by 7 percent. *)
Definition volatile_change (k : nat) : outcome Z := Return 7.

(** A state with nothing cached, an empty ladder and nothing sent. *)
Definition cold_state : state :=
  mkstate cold_world default_ladder [] 0 [].

Definition writes (l : ladder) : option exn := None.
Definition alert_delivered (k : nat) : outcome value := Return VNone.
Definition replied (r : reply) : option exn := None.

(** A ladder sink that fails with a bad gateway for one threshold. *)
Definition gateway_down_for (t0 t : Z) : option exn :=
  if t =? t0 then Some (ApiException 502) else None.

End PriceLoop.

(** ** The birthday book and its commands

    [birthdays] is the global dict loaded from [BIRTHDAYS_FILE]: group name
    to a dict from a person's name to the birthday, a ["DD-MM-YYYY"] string
    or nothing.  The commands /add, /delete, /birthdays, /missing and /soon
    and the daily check read and change it. *)

Module Birthdays.

Import PyDate Scheduler.

(** *** Python dicts with string keys, in insertion order *)

Definition dict (V : Type) : Type := list (string * V).

(** [d.get(key)] *)
Fixpoint get {V : Type} (key : string) (d : dict V) : option V :=
  match d with
  | [] => None
  | (k, v) :: rest => if String.eqb k key then Some v else get key rest
  end.

(** [key in d] *)
Definition contains {V : Type} (key : string) (d : dict V) : bool :=
  match get key d with
  | Some _ => true
  | None => false
  end.

(** [d[key] = v]: an existing key keeps its place, a new one goes last. *)
Fixpoint set {V : Type} (key : string) (v : V) (d : dict V) : dict V :=
  match d with
  | [] => [(key, v)]
  | (k, x) :: rest =>
      if String.eqb k key then (k, v) :: rest else (k, x) :: set key v rest
  end.

(** [del d[key]] *)
Fixpoint del {V : Type} (key : string) (d : dict V) : outcome (dict V) :=
  match d with
  | [] => Raise (KeyError key)
  | (k, x) :: rest =>
      if String.eqb k key then Return rest
      else
        match del key rest with
        | Return rest' => Return ((k, x) :: rest')
        | Raise e => Raise e
        end
  end.

(** The keys of a dict are distinct. *)
Definition distinct_keys {V : Type} (d : dict V) : Prop := NoDup (map fst d).

(** *** Strings *)

Definition space : Ascii.ascii := Ascii.ascii_of_nat 32.

(** [s.split(sep)] for a one-character separator *)
Fixpoint split (sep : Ascii.ascii) (s : string) : list string :=
  match s with
  | EmptyString => [EmptyString]
  | String c rest =>
      if Ascii.eqb c sep then EmptyString :: split sep rest
      else
        match split sep rest with
        | [] => [String c EmptyString]
        | part :: parts => String c part :: parts
        end
  end.

(** [sep.join(parts)] *)
Fixpoint join (sep : string) (parts : list string) : string :=
  match parts with
  | [] => EmptyString
  | [part] => part
  | part :: rest => part ++ sep ++ join sep rest
  end.

(** [c in s] for a character *)
Fixpoint has_char (c : Ascii.ascii) (s : string) : bool :=
  match s with
  | EmptyString => false
  | String c' rest => Ascii.eqb c' c || has_char c rest
  end.

(** *** The book *)

(** A birthday as the JSON file has it: a string, or [null]. *)
Definition birthday : Type := option string.

(** [if birthday:] *)
Definition is_set (b : birthday) : bool :=
  match b with
  | Some s => negb (String.eqb s "")
  | None => false
  end.

Definition book : Type := dict (dict birthday).

(** [birthdays[group][name]], when both keys are there *)
Definition entry (group name : string) (b : book) : option birthday :=
  match get group b with
  | Some g => get name g
  | None => None
  end.

Record message : Type := mkmessage {
  from_user : string;   (* [str(message.from_user.id)] *)
  text : string
}.

(** One line of the /birthdays list *)
Inductive line : Type :=
| NotSet (name : string)
| Line (name formatted_birthday : string) (age days_left : Z).

(** The replies of the commands, by their variable parts. *)
Inductive reply : Type :=
| Added (name group formatted_birthday : string)
| AddedWithReminder (name group formatted_birthday : string)
| NotAuthorizedToEdit (name : string)
| InvalidDate
| InvalidAddFormat (error : string)
| NotAuthorizedToRemove
| Removed (name : string)
| NotFound (name : string)
| InvalidDeleteFormat (error : string)
| BirthdayList (sections : list (string * list line))
    (next_birthday_name : option string)
    (days_until_next_birthday : option Z)
    (missing_birthdays : list string)
| AllAdded
| Missing (names_without_birthdays : list (string * string))
| Upcoming (upcoming_birthdays : list (string * date * Z))
    (formatted : list string)
| NoUpcoming.

(** The messages of the tests at startup *)
Inductive test_message : Type :=
| TestCrossed
| TestAlert
| TestBirthdayTomorrow
| TestPostcard (test_birthday : string).

(** The notifications of the daily check *)
Inductive notification : Type :=
| BirthdayTomorrow (name : string)
| LastDayForPostcard (name formatted_birthday : string).

(** How a turn of the daily check ends: asleep until 08:00 of [tomorrow],
    or for an hour after an exception. *)
Inductive pause : Type :=
| UntilEight (tomorrow : date)
| OneHour.

(** [datetime.now(user_timezone)], as far as the code looks at it *)
Record datetime : Type := mkdatetime { date_of : date; hour : Z }.

(** The process state the commands share: the book, what
    [save_birthdays] wrote, in order, and the replies sent. *)
Record state : Type := mkstate {
  birthdays : book;
  saved : list book;
  replies : list reply
}.

Definition H (A : Type) : Type := state -> outcome A * state.

Definition hret {A : Type} (a : A) : H A := fun s => (Return a, s).

Definition hbind {A B : Type} (c : H A) (k : A -> H B) : H B :=
  fun s =>
    match c s with
    | (Return a, s1) => k a s1
    | (Raise e, s1) => (Raise e, s1)
    end.

Definition hlift {A : Type} (o : outcome A) : H A := fun s => (o, s).

Notation "x <~~ c ;; k" := (hbind c (fun x => k))
  (at level 61, c at next level, right associativity).
Notation "c ;;~~ k" := (hbind c (fun _ => k))
  (at level 61, right associativity).

Definition obind {A B : Type} (o : outcome A) (k : A -> outcome B)
  : outcome B :=
  match o with
  | Return a => k a
  | Raise e => Raise e
  end.

Notation "x <-? c ;; k" := (obind c (fun x => k))
  (at level 61, c at next level, right associativity).

(** [try: c except ValueError as e: handler(str(e))] *)
Definition except_ValueError {A : Type} (c : H A) (handler : string -> H A)
  : H A :=
  fun s =>
    match c s with
    | (Raise (ValueError msg), s1) => handler msg s1
    | r => r
    end.

(** [birthdays = b] as far as the dict objects go *)
Definition set_birthdays (b : book) : H unit :=
  fun s => (Return tt, mkstate b (saved s) (replies s)).

(** The stable sort of [sorted(upcoming, key=lambda x: x[2])] *)
Fixpoint insert_by_days (x : string * date * Z)
    (l : list (string * date * Z)) : list (string * date * Z) :=
  match l with
  | [] => [x]
  | y :: rest =>
      if snd x <=? snd y then x :: l else y :: insert_by_days x rest
  end.

Fixpoint sorted_by_days (l : list (string * date * Z))
  : list (string * date * Z) :=
  match l with
  | [] => []
  | x :: rest => insert_by_days x (sorted_by_days rest)
  end.

(** [days_left < days_until_next_birthday], which starts at
    [float('inf')] *)
Definition less_than_best (days_left : Z) (best : option Z) : bool :=
  match best with
  | None => true
  | Some b => days_left <? b
  end.

Section Environment.

(** [os.getenv('AUTHORIZED_USER_ID')] *)
Variable AUTHORIZED_USER_ID : option string.

(** [datetime.strptime(s, "%d-%m-%Y")], by the date it gives, and
    [d.strftime("%d-%m-%Y")] *)
Variable strptime : string -> outcome date.
Variable strftime : date -> string.

(** [format_date_for_display] (lines 73-76), through its results: the
    text with the month's name, or what [int] and the unpacking raise. *)
Variable format_date_for_display : string -> outcome string.

(** [save_birthdays] and [bot.reply_to]: [None] when the call returns,
    [Some e] when it raises [e]. *)
Variable save_birthdays : book -> option exn.
Variable reply_to : reply -> option exn.

(** [bot.send_message(chat_id=chat_id, text=message)] *)
Variable send_message : string -> notification -> option exn.

(** [os.getenv('GROUP_CHAT_ID')], [os.getenv('PERSONAL_CHAT_ID')] *)
Variable GROUP_CHAT_ID PERSONAL_CHAT_ID : option string.

Variable get_dutch_holidays : Z -> date -> bool.

(** [AUTHORIZED_USER_ID and str(message.from_user.id) ==
    AUTHORIZED_USER_ID] *)
Definition authorized (m : message) : bool :=
  match AUTHORIZED_USER_ID with
  | Some id => negb (String.eqb id "") && String.eqb (from_user m) id
  | None => false
  end.

Definition save : H unit :=
  fun s =>
    match save_birthdays (birthdays s) with
    | Some e => (Raise e, s)
    | None =>
        (Return tt,
         mkstate (birthdays s) (saved s ++ [birthdays s]) (replies s))
    end.

Definition send_reply (r : reply) : H unit :=
  fun s =>
    match reply_to r with
    | Some e => (Raise e, s)
    | None =>
        (Return tt, mkstate (birthdays s) (saved s) (replies s ++ [r]))
    end.

(** [birthdays[group][name] = birthday] *)
Definition set_entry (group name birthday : string) : H unit :=
  fun s =>
    match get group (birthdays s) with
    | Some g =>
        (Return tt,
         mkstate (set group (set name (Some birthday) g) (birthdays s))
           (saved s) (replies s))
    | None => (Raise (KeyError group), s)
    end.

(** [add_birthday_to_dict] (lines 467-485) *)
Definition add_birthday_to_dict (group name birthday : string) (m : message)
  : H unit :=
  (fun s =>
     if contains group (birthdays s) then (Return tt, s)
     else set_birthdays (set group [] (birthdays s)) s) ;;~~
  g <~~ (fun s =>
           match get group (birthdays s) with
           | Some g => (Return g, s)
           | None => (Raise (KeyError group), s)
           end) ;;
  if contains name g then
    if authorized m then
      set_entry group name birthday ;;~~
      save ;;~~
      formatted_birthday <~~ hlift (format_date_for_display birthday) ;;
      send_reply (AddedWithReminder name group formatted_birthday)
    else send_reply (NotAuthorizedToEdit name)
  else
    set_entry group name birthday ;;~~
    save ;;~~
    formatted_birthday <~~ hlift (format_date_for_display birthday) ;;
    send_reply (Added name group formatted_birthday).

(** The inner [try] of [add_birthday] (lines 453-456) *)
Definition validate (date : string) : outcome unit :=
  birthday_date <-? strptime date ;;
  if negb (String.eqb (strftime birthday_date) date)
  then Raise (ValueError "")
  else Return tt.

(** [add_birthday], the /add command (lines 437-465) *)
Definition add_birthday (m : message) : H unit :=
  except_ValueError
    (fun s =>
       let parts := split space (text m) in
       if (List.length parts <? 4)%nat then
         (Raise (ValueError "Not enough information provided"), s)
       else
         let group := nth 1 parts "" in
         let date := last parts "" in
         let name := join " " (skipn 2 (removelast parts)) in
         match validate date with
         | Raise (ValueError _) => send_reply InvalidDate s
         | Raise e => (Raise e, s)
         | Return _ => add_birthday_to_dict group name date m s
         end)
    (fun error => send_reply (InvalidAddFormat error)).

(** The [for group_name, group in birthdays.items()] loop of
    [remove_birthday] (lines 306-311), up to the [del]: the book without
    the name in the first group that has it, or nothing. *)
Fixpoint delete_from_first_group (name : string) (groups : book)
  : outcome (option book) :=
  match groups with
  | [] => Return None
  | (group_name, group) :: rest =>
      if contains name group then
        group' <-? del name group ;;
        Return (Some ((group_name, group') :: rest))
      else
        found <-? delete_from_first_group name rest ;;
        Return (option_map (cons (group_name, group)) found)
  end.

(** [remove_birthday], the /delete command (lines 291-318) *)
Definition remove_birthday (m : message) : H unit :=
  if negb (authorized m) then send_reply NotAuthorizedToRemove
  else
    except_ValueError
      (fun s =>
         let parts := split space (text m) in
         if (List.length parts <? 2)%nat then
           (Raise (ValueError "Full name not provided"), s)
         else
           let name := join " " (skipn 1 parts) in
           (found <~~ hlift (delete_from_first_group name (birthdays s)) ;;
            match found with
            | Some b =>
                set_birthdays b ;;~~ save ;;~~ send_reply (Removed name)
            | None => send_reply (NotFound name)
            end) s)
      (fun error => send_reply (InvalidDeleteFormat error)).

(** The age of one entry of /birthdays (lines 343-345) *)
Definition age_on (birthday_date today : date) : outcome Z :=
  let age := year today - year birthday_date in
  this_year <-? replace_year birthday_date (year today) ;;
  Return (if date_ltb today this_year then age - 1 else age).

(** The body of the inner loop of [send_birthdays] (lines 331-349) *)
Definition birthday_line (today : date) (name : string) (b : birthday)
  : outcome line :=
  if negb (is_set b) then Return (NotSet name)
  else
    let s := match b with Some s => s | None => "" end in
    birthday_date <-? strptime s ;;
    next <-? next_occurrence birthday_date today ;;
    age <-? age_on birthday_date today ;;
    formatted_birthday <-? format_date_for_display s ;;
    Return (Line name formatted_birthday age (snd next)).

Fixpoint group_lines (today : date) (group : dict birthday)
  : outcome (list line) :=
  match group with
  | [] => Return []
  | (name, b) :: rest =>
      l <-? birthday_line today name b ;;
      ls <-? group_lines today rest ;;
      Return (l :: ls)
  end.

Fixpoint book_lines (today : date) (groups : book)
  : outcome (list (string * list line)) :=
  match groups with
  | [] => Return []
  | (group_name, group) :: rest =>
      ls <-? group_lines today group ;;
      sections <-? book_lines today rest ;;
      Return ((group_name, ls) :: sections)
  end.

(** The names [missing_birthdays] collects *)
Definition missing_of (sections : list (string * list line)) : list string :=
  flat_map
    (fun section =>
       flat_map (fun l => match l with NotSet name => [name] | _ => [] end)
         (snd section))
    sections.

(** The two loops of [get_next_birthday] (lines 492-506) *)
Fixpoint next_in_group (today : date) (group : dict birthday)
    (best : option string * option Z) : outcome (option string * option Z) :=
  match group with
  | [] => Return best
  | (name, b) :: rest =>
      if negb (is_set b) then next_in_group today rest best
      else
        let s := match b with Some s => s | None => "" end in
        birthday_date <-? strptime s ;;
        next <-? next_occurrence birthday_date today ;;
        let days_left := snd next in
        next_in_group today rest
          (if less_than_best days_left (snd best)
           then (Some name, Some days_left) else best)
  end.

Fixpoint next_in_book (today : date) (groups : book)
    (best : option string * option Z) : outcome (option string * option Z) :=
  match groups with
  | [] => Return best
  | (_, group) :: rest =>
      best' <-? next_in_group today group best ;;
      next_in_book today rest best'
  end.

(** [get_next_birthday] (lines 487-508); [None] for the days is
    [float('inf')]. *)
Definition get_next_birthday (today : date) (b : book)
  : outcome (option string * option Z) :=
  next_in_book today b (None, None).

(** [send_birthdays], the /birthdays command (lines 321-364) *)
Definition send_birthdays (today : date) : H unit :=
  fun s =>
    match book_lines today (birthdays s) with
    | Raise e => (Raise e, s)
    | Return sections =>
        match get_next_birthday today (birthdays s) with
        | Raise e => (Raise e, s)
        | Return next =>
            send_reply (BirthdayList sections (fst next) (snd next)
                     (missing_of sections)) s
        end
    end.

(** [show_missing_birthdays], the /missing command (lines 422-434) *)
Definition names_without_birthdays (b : book) : list (string * string) :=
  flat_map
    (fun g =>
       flat_map
         (fun e => if negb (is_set (snd e)) then [(fst g, fst e)] else [])
         (snd g))
    b.

Definition show_missing_birthdays : H unit :=
  fun s =>
    match names_without_birthdays (birthdays s) with
    | [] => send_reply AllAdded s
    | names => send_reply (Missing names) s
    end.

(** The two loops of [get_upcoming_birthdays] (lines 512-523) *)
Fixpoint upcoming_in_group (today : date) (days : Z) (group : dict birthday)
  : outcome (list (string * date * Z)) :=
  match group with
  | [] => Return []
  | (name, b) :: rest =>
      if negb (is_set b) then upcoming_in_group today days rest
      else
        let s := match b with Some s => s | None => "" end in
        birthday_date <-? strptime s ;;
        next <-? next_occurrence birthday_date today ;;
        let '(this_year_birthday, days_left) := next in
        upcoming <-? upcoming_in_group today days rest ;;
        Return (if (0 <=? days_left) && (days_left <=? days)
                then (name, this_year_birthday, days_left) :: upcoming
                else upcoming)
  end.

Fixpoint upcoming_in_book (today : date) (days : Z) (groups : book)
  : outcome (list (string * date * Z)) :=
  match groups with
  | [] => Return []
  | (_, group) :: rest =>
      first <-? upcoming_in_group today days group ;;
      others <-? upcoming_in_book today days rest ;;
      Return (first ++ others)
  end.

(** [get_upcoming_birthdays] (lines 510-524) *)
Definition get_upcoming_birthdays (today : date) (days : Z) (b : book)
  : outcome (list (string * date * Z)) :=
  upcoming <-? upcoming_in_book today days b ;;
  Return (sorted_by_days upcoming).

(** The loops of [show_upcoming_birthdays] (lines 532-544) *)
Fixpoint soon_in_group (today : date) (group : dict birthday)
  : outcome (list (string * date * Z)) :=
  match group with
  | [] => Return []
  | (name, b) :: rest =>
      if is_set b then
        let s := match b with Some s => s | None => "" end in
        birthday_date <-? strptime s ;;
        next <-? next_occurrence birthday_date today ;;
        let '(this_year_birthday, days_until) := next in
        upcoming <-? soon_in_group today rest ;;
        Return (if (0 <=? days_until) && (days_until <=? 30)
                then (name, this_year_birthday, days_until) :: upcoming
                else upcoming)
      else soon_in_group today rest
  end.

Fixpoint soon_in_book (today : date) (groups : book)
  : outcome (list (string * date * Z)) :=
  match groups with
  | [] => Return []
  | (_, group) :: rest =>
      first <-? soon_in_group today group ;;
      others <-? soon_in_book today rest ;;
      Return (first ++ others)
  end.

(** The texts of the lines of /soon (lines 549-551) *)
Fixpoint formatted_dates (l : list (string * date * Z))
  : outcome (list string) :=
  match l with
  | [] => Return []
  | (_, birthday_date, _) :: rest =>
      formatted_date <-? format_date_for_display (strftime birthday_date) ;;
      others <-? formatted_dates rest ;;
      Return (formatted_date :: others)
  end.

(** [show_upcoming_birthdays], the /soon command (lines 526-555) *)
Definition show_upcoming_birthdays (today : date) : H unit :=
  upcoming_birthdays <~~
    (fun s => (soon_in_book today (birthdays s), s)) ;;
  match upcoming_birthdays with
  | _ :: _ =>
      let upcoming_birthdays := sorted_by_days upcoming_birthdays in
      formatted <~~ hlift (formatted_dates upcoming_birthdays) ;;
      send_reply (Upcoming upcoming_birthdays formatted)
  | [] => send_reply NoUpcoming
  end.

(** [send_notification] (lines 647-654): how it ends and what went out,
    to which chat. *)
Fixpoint send_to (chat_ids : list (option string)) (n : notification)
  : outcome unit * list (string * notification) :=
  match chat_ids with
  | [] => (Return tt, [])
  | chat_id :: rest =>
      match chat_id with
      | Some id =>
          if negb (String.eqb id "") then
            match send_message id n with
            | Some e => (Raise e, [])
            | None =>
                let '(o, sent) := send_to rest n in (o, (id, n) :: sent)
            end
          else send_to rest n
      | None => send_to rest n
      end
  end.

Definition send_notification (n : notification)
  : outcome unit * list (string * notification) :=
  send_to [GROUP_CHAT_ID; PERSONAL_CHAT_ID] n.

(** What a part of the daily check has done: [None] when a loop of
    [get_postcard_send_date] is still running as the fuel runs out, else how
    the part ended and the notifications that went out. *)
Definition checked : Type :=
  option (outcome unit * list (string * notification)).

Definition and_then (c : checked) (k : checked) : checked :=
  match c with
  | Some (Return _, sent) =>
      match k with
      | Some (o, sent') => Some (o, sent ++ sent')
      | None => None
      end
  | other => other
  end.

Definition notify_if (b : bool) (n : notification) : checked :=
  if b then Some (send_notification n) else Some (Return tt, []).

(** The work on one entry (lines 611-636).  [nl_holidays], assigned at
    lines 607 and 622, is read nowhere: [get_postcard_send_date] asks for
    the calendar of [today.year] itself. *)
Definition check_entry (fuel : nat) (now : datetime) (name : string)
    (birthday_str : birthday) : checked :=
  let today := date_of now in
  if is_set birthday_str then
    let s := match birthday_str with Some s => s | None => "" end in
    match strptime s with
    | Raise (ValueError _) => Some (Return tt, [])
    | Raise e => Some (Raise e, [])
    | Return birthday_date =>
        match next_occurrence birthday_date today with
        | Raise e => Some (Raise e, [])
        | Return (this_year_birthday, days_until) =>
            and_then
              (notify_if (days_until =? 1) (BirthdayTomorrow name))
              match
                get_postcard_send_date get_dutch_holidays fuel
                  this_year_birthday today
              with
              | None => None
              | Some (Raise e) => Some (Raise e, [])
              | Some (Return postcard_send_date) =>
                  if date_eqb today postcard_send_date && (hour now <? 10)
                  then
                    match
                      format_date_for_display (strftime this_year_birthday)
                    with
                    | Raise e => Some (Raise e, [])
                    | Return formatted_birthday =>
                        Some (send_notification
                                (LastDayForPostcard name formatted_birthday))
                    end
                  else Some (Return tt, [])
              end
        end
    end
  else Some (Return tt, []).

Fixpoint check_group (fuel : nat) (now : datetime) (group : dict birthday)
  : checked :=
  match group with
  | [] => Some (Return tt, [])
  | (name, birthday_str) :: rest =>
      and_then (check_entry fuel now name birthday_str)
        (check_group fuel now rest)
  end.

Fixpoint check_book (fuel : nat) (now : datetime) (groups : book)
  : checked :=
  match groups with
  | [] => Some (Return tt, [])
  | (_, group) :: rest =>
      and_then (check_group fuel now group) (check_book fuel now rest)
  end.

(** One turn of the [while True] loop of [check_next_birthday] (lines
    599-645): the notifications sent and the sleep that ends it. *)
Definition check_next_birthday_iteration (fuel : nat) (now : datetime)
    (b : book) : option (pause * list (string * notification)) :=
  match check_book fuel now b with
  | None => None
  | Some (Raise _, sent) => Some (OneHour, sent)
  | Some (Return _, sent) =>
      match add_days (date_of now) 1 with
      | Return tomorrow => Some (UntilEight tomorrow, sent)
      | Raise _ => Some (OneHour, sent)
      end
  end.

(** [bot.send_message(chat_id=chat_id, text=message)] for a test message *)
Variable test_api : string -> test_message -> option exn.

(** [send_test_message] (lines 656-663) *)
Definition send_test_message (chat_id : string) (m : test_message) : bool :=
  match test_api chat_id m with
  | Some _ => false
  | None => true
  end.

(** [if personal_chat_id:] with the id to send to *)
Definition configured (chat_id : option string) : option string :=
  match chat_id with
  | Some id => if negb (String.eqb id "") then Some id else None
  | None => None
  end.

(** The end of [run_all_tests] (lines 693-696): the test person leaves
    the book. *)
Definition remove_test_person : H unit :=
  fun s =>
    match get "Others" (birthdays s) with
    | Some others =>
        if contains "Test Person" others then
          match del "Test Person" others with
          | Return others' =>
              (set_birthdays (set "Others" others' (birthdays s)) ;;~~
               save) s
          | Raise e => (Raise e, s)
          end
        else (Return tt, s)
    | None => (Return tt, s)
    end.

(** [run_all_tests] (lines 665-699): what it returns, with the test
    messages it tried to send, in order. *)
Definition run_all_tests (today : date) : H (bool * list test_message) :=
  let personal_chat_id := configured PERSONAL_CHAT_ID in
  let tests_passed := true in
  let '(tests_passed, tried) :=
    match personal_chat_id with
    | Some id =>
        let tests_passed := tests_passed && send_test_message id TestCrossed in
        let tests_passed := tests_passed && send_test_message id TestAlert in
        (tests_passed, [TestCrossed; TestAlert])
    | None => (false, [])
    end in
  tomorrow <~~ hlift (add_days today 1) ;;
  test_birthday <~~ hlift (format_date_for_display (strftime tomorrow)) ;;
  let '(tests_passed, tried) :=
    match personal_chat_id with
    | Some id =>
        let tests_passed :=
          tests_passed && send_test_message id TestBirthdayTomorrow in
        let tests_passed :=
          tests_passed && send_test_message id (TestPostcard test_birthday) in
        (tests_passed,
         tried ++ [TestBirthdayTomorrow; TestPostcard test_birthday])
    | None => (tests_passed, tried)
    end in
  remove_test_person ;;~~
  hret (tests_passed, tried).

(** What one entry can make the daily check send: the reminder of a
    birthday that is tomorrow, or the reminder of a postcard whose send
    date is today, before 10:00. *)
Definition due (fuel : nat) (now : datetime) (name : string) (b : birthday)
    (m : notification) : Prop :=
  exists str bd next k,
    b = Some str /\ str <> "" /\ strptime str = Return bd
    /\ next_occurrence bd (date_of now) = Return (next, k)
    /\ ((m = BirthdayTomorrow name /\ k = 1)
        \/ exists formatted,
             m = LastDayForPostcard name formatted
             /\ hour now < 10
             /\ get_postcard_send_date get_dutch_holidays fuel next
                  (date_of now)
                = Some (Return (date_of now))).

(** What the book can make the daily check send *)
Definition due_in (fuel : nat) (now : datetime) (b : book)
    (m : notification) : Prop :=
  exists g grp name birthday_str,
    In (g, grp) b /\ In (name, birthday_str) grp
    /\ due fuel now name birthday_str m.

End Environment.

(** A birthday on 29 February *)
Definition leap_day (d : date) : bool := (month d =? 2) && (day d =? 29).

(** *** A small book and its surroundings *)

(** [strptime] and [strftime] on the dates of the examples *)
Definition sample_strptime (s : string) : outcome date :=
  if String.eqb s "10-03-1990" then Return (mkdate 1990 3 10)
  else if String.eqb s "25-12-1985" then Return (mkdate 1985 12 25)
  else if String.eqb s "29-02-2000" then Return (mkdate 2000 2 29)
  else Raise (ValueError "time data does not match format '%d-%m-%Y'").

Definition sample_strftime (d : date) : string :=
  if date_eqb d (mkdate 1990 3 10) then "10-03-1990"
  else if date_eqb d (mkdate 1985 12 25) then "25-12-1985"
  else if date_eqb d (mkdate 2000 2 29) then "29-02-2000"
  else if date_eqb d (mkdate 2024 3 10) then "10-03-2024"
  else "".

Definition sample_format (s : string) : outcome string :=
  if String.eqb s "10-03-1990" then Return "10 Mar 1990"
  else if String.eqb s "25-12-1985" then Return "25 Dec 1985"
  else if String.eqb s "10-03-2024" then Return "10 Mar 2024"
  else Raise (ValueError "invalid literal for int() with base 10").

Definition saves (b : book) : option exn := None.
Definition replies_sent (r : reply) : option exn := None.
Definition message_sent (chat_id : string) (n : notification) : option exn :=
  None.

Definition sample_book : book :=
  [("Family", [("Ann", Some "10-03-1990"); ("Bob", None)]);
   ("Friends", [("Ann", Some "25-12-1985")])].

(** The same book with a birthday on 29 February *)
Definition leap_book : book :=
  [("Family", [("Ann", Some "10-03-1990"); ("Bob", None)]);
   ("Friends", [("Cleo", Some "29-02-2000"); ("Ann", Some "25-12-1985")])].

Definition sample_state : state := mkstate sample_book [] [].

Definition test_sent (chat_id : string) (m : test_message) : option exn :=
  None.

End Birthdays.

(** * Properties *)

(** ** The calendar *)

Module PyDateFacts.
Import PyDate.

Lemma check_range_sound fuel : forall i P,
  check_range fuel i P = true ->
  forall j, i <= j < i + Z.of_nat fuel -> P j = true.
Proof.
  induction fuel as [|f IH]; intros i P H j Hj.
  - simpl in Hj. lia.
  - simpl in H. apply andb_true_iff in H as [H0 H1].
    destruct (Z.eq_dec j i) as [->|Hne]; [exact H0|].
    apply (IH (i + 1) P H1). lia.
Qed.

Lemma cycle_checked : check_range (Z.to_nat 146097) 0 cycle_ok = true.
Proof. vm_cast_no_check (eq_refl true). Qed.

Lemma cycle_ok_all r : 0 <= r < 146097 -> cycle_ok r = true.
Proof.
  intros Hr. apply (check_range_sound _ _ _ cycle_checked). lia.
Qed.

Lemma is_leap_shift y q : is_leap (y + 400 * q) = is_leap y.
Proof.
  unfold is_leap.
  replace (y + 400 * q) with (y + (100 * q) * 4) at 1 by lia.
  replace (y + 400 * q) with (y + (4 * q) * 100) at 1 by lia.
  replace (y + 400 * q) with (y + q * 400) by lia.
  now rewrite !Z_mod_plus_full.
Qed.

Lemma days_before_year_shift y q :
  days_before_year (y + 400 * q) = days_before_year y + 146097 * q.
Proof.
  unfold days_before_year. cbv zeta.
  replace (y + 400 * q - 1) with (y - 1 + (100 * q) * 4) at 2 by lia.
  replace (y + 400 * q - 1) with (y - 1 + (4 * q) * 100) at 2 by lia.
  replace (y + 400 * q - 1) with (y - 1 + q * 400) at 2 by lia.
  rewrite !Z_div_plus_full by lia. lia.
Qed.

Lemma ymd2ord_shift y m d q :
  ymd2ord (y + 400 * q) m d = ymd2ord y m d + 146097 * q.
Proof.
  unfold ymd2ord, days_before_month.
  rewrite is_leap_shift, days_before_year_shift. lia.
Qed.

Lemma days_in_month_shift y m q :
  days_in_month (y + 400 * q) m = days_in_month y m.
Proof. unfold days_in_month. now rewrite is_leap_shift. Qed.

Lemma ord2ymd_shift q r :
  0 <= r < 146097 ->
  ord2ymd (146097 * q + r + 1) =
  let '(y, m, d) := ord2ymd (r + 1) in (y + 400 * q, m, d).
Proof.
  intros Hr. unfold ord2ymd. cbv zeta.
  replace (146097 * q + r + 1 - 1) with (r + q * 146097) by lia.
  replace (r + 1 - 1) with r by lia.
  rewrite Z_div_plus_full, Z_mod_plus_full by lia.
  rewrite (Z.div_small r 146097), (Z.mod_small r 146097) by lia.
  repeat match goal with
  | |- context [if ?b then _ else _] => destruct b
  end; f_equal; try f_equal; lia.
Qed.


Ltac month_simpl :=
  cbv [DAYS_BEFORE_MONTH DAYS_IN_MONTH Z.eqb Z.ltb Z.compare Pos.eqb
       Pos.compare Pos.compare_cont andb] in *.

Lemma days_before_year_succ y :
  days_before_year (y + 1) =
  days_before_year y + 365 + (if is_leap y then 1 else 0).
Proof.
  unfold days_before_year, is_leap. cbv zeta.
  replace (y + 1 - 1) with y by lia.
  destruct (y mod 4 =? 0) eqn:E4; destruct (y mod 100 =? 0) eqn:E100;
    destruct (y mod 400 =? 0) eqn:E400; simpl;
    rewrite ?Z.eqb_eq, ?Z.eqb_neq in *;
    Z.to_euclidean_division_equations; lia.
Qed.

Lemma days_before_year_steps y (k : nat) :
  days_before_year y + 365 * Z.of_nat k <= days_before_year (y + Z.of_nat k).
Proof.
  induction k as [|k IH].
  - replace (y + Z.of_nat 0) with y by lia. lia.
  - replace (y + Z.of_nat (S k)) with (y + Z.of_nat k + 1) by lia.
    rewrite days_before_year_succ.
    destruct (is_leap (y + Z.of_nat k)); lia.
Qed.

Lemma days_before_year_mono y1 y2 :
  y1 <= y2 -> days_before_year y1 + 365 * (y2 - y1) <= days_before_year y2.
Proof.
  intros H. pose proof (days_before_year_steps y1 (Z.to_nat (y2 - y1))) as S.
  rewrite Z2Nat.id in S by lia.
  now replace (y1 + (y2 - y1)) with y2 in S by lia.
Qed.

Lemma day_of_year_bounds y m d :
  1 <= m <= 12 -> 1 <= d <= days_in_month y m ->
  1 <= days_before_month y m + d <= 365 + (if is_leap y then 1 else 0).
Proof.
  intros Hm Hd. unfold days_in_month, days_before_month in *.
  assert (Hc : m = 1 \/ m = 2 \/ m = 3 \/ m = 4 \/ m = 5 \/ m = 6 \/ m = 7
               \/ m = 8 \/ m = 9 \/ m = 10 \/ m = 11 \/ m = 12) by lia.
  destruct (is_leap y);
    repeat (destruct Hc as [-> | Hc]; [month_simpl; lia|]);
    subst m; month_simpl; lia.
Qed.

Lemma ord2ymd_spec n :
  let '(y, m, d) := ord2ymd n in
  ymd2ord y m d = n /\ (1 <= n -> 1 <= y) /\ (n <= MAXORDINAL -> y <= MAXYEAR)
  /\ 1 <= m <= 12 /\ 1 <= d <= days_in_month y m.
Proof.
  pose (q := (n - 1) / 146097). pose (r := (n - 1) mod 146097).
  assert (Hr : 0 <= r < 146097) by (apply Z.mod_pos_bound; lia).
  assert (Hn : n = 146097 * q + r + 1).
  { pose proof (Z.div_mod (n - 1) 146097 ltac:(lia)). unfold q, r. lia. }
  pose proof (cycle_ok_all r Hr) as Hc. unfold cycle_ok in Hc.
  clearbody q r. subst n. rewrite ord2ymd_shift by exact Hr.
  destruct (ord2ymd (r + 1)) as [[y m] d].
  rewrite !andb_true_iff in Hc.
  destruct Hc as [[[[[[H1 H2] H3] H4] H5] H6] H7].
  rewrite ymd2ord_shift, days_in_month_shift.
  apply Z.eqb_eq in H1. apply Z.leb_le in H2, H3, H4, H5, H6, H7.
  assert (Hb : 1 <= days_before_month (y + 400 * q) m + d).
  { apply day_of_year_bounds; [lia|]. rewrite days_in_month_shift. lia. }
  repeat split; try lia.
  intros Hmax. unfold MAXORDINAL, MAXYEAR in *.
  destruct (Z_le_gt_dec (y + 400 * q) 9999) as [Hle|Hgt]; [exact Hle|exfalso].
  pose proof (days_before_year_mono 10000 (y + 400 * q) ltac:(lia)) as Hm.
  assert (E : ymd2ord (y + 400 * q) m d = 146097 * q + r + 1)
    by (rewrite ymd2ord_shift; lia).
  unfold ymd2ord in E.
  change (days_before_year 10000) with 3652059 in Hm. lia.
Qed.

Lemma toordinal_fromordinal n : toordinal (fromordinal n) = n.
Proof.
  pose proof (ord2ymd_spec n) as H. unfold toordinal, fromordinal.
  destruct (ord2ymd n) as [[y m] d]. simpl. tauto.
Qed.

Lemma fromordinal_valid n :
  1 <= n <= MAXORDINAL -> valid_date (fromordinal n) = true.
Proof.
  intros Hn. pose proof (ord2ymd_spec n) as H.
  unfold valid_date, valid_ymd, fromordinal, MINYEAR.
  destruct (ord2ymd n) as [[y m] d]. simpl.
  destruct H as (_ & Hy1 & Hy2 & Hm & Hd).
  rewrite !andb_true_iff, !Z.leb_le. repeat split; lia.
Qed.

Lemma valid_ymd_inv y m d :
  valid_ymd y m d = true ->
  1 <= y <= 9999 /\ 1 <= m <= 12 /\ 1 <= d <= days_in_month y m.
Proof.
  unfold valid_ymd, MINYEAR, MAXYEAR.
  rewrite !andb_true_iff, !Z.leb_le. lia.
Qed.

Lemma month_day_lt y m1 d1 m2 d2 :
  1 <= m1 <= 12 -> 1 <= d1 <= days_in_month y m1 ->
  1 <= m2 <= 12 -> 1 <= d2 <= days_in_month y m2 ->
  m1 < m2 ->
  days_before_month y m1 + d1 < days_before_month y m2 + d2.
Proof.
  intros Hm1 Hd1 Hm2 Hd2 Hlt.
  unfold days_in_month, days_before_month in *.
  assert (Hc1 : m1 = 1 \/ m1 = 2 \/ m1 = 3 \/ m1 = 4 \/ m1 = 5 \/ m1 = 6
               \/ m1 = 7 \/ m1 = 8 \/ m1 = 9 \/ m1 = 10 \/ m1 = 11 \/ m1 = 12)
    by lia.
  assert (Hc2 : m2 = 1 \/ m2 = 2 \/ m2 = 3 \/ m2 = 4 \/ m2 = 5 \/ m2 = 6
               \/ m2 = 7 \/ m2 = 8 \/ m2 = 9 \/ m2 = 10 \/ m2 = 11 \/ m2 = 12)
    by lia.
  destruct (is_leap y);
    repeat (destruct Hc1 as [-> | Hc1]); subst;
    repeat (destruct Hc2 as [-> | Hc2]); subst; month_simpl; lia.
Qed.

Lemma toordinal_lt a b :
  valid_date a = true -> valid_date b = true ->
  date_ltb a b = true -> toordinal a < toordinal b.
Proof.
  unfold valid_date, date_ltb, toordinal.
  destruct a as [y1 m1 d1], b as [y2 m2 d2]. cbn [year month day].
  intros Ha Hb Hlt.
  apply valid_ymd_inv in Ha, Hb.
  destruct Ha as (Hy1 & Hm1 & Hd1), Hb as (Hy2 & Hm2 & Hd2).
  pose proof (day_of_year_bounds y1 m1 d1 Hm1 Hd1) as B1.
  pose proof (day_of_year_bounds y2 m2 d2 Hm2 Hd2) as B2.
  unfold ymd2ord.
  repeat (rewrite orb_true_iff in Hlt || rewrite andb_true_iff in Hlt).
  rewrite !Z.ltb_lt, !Z.eqb_eq in Hlt.
  destruct Hlt as [Hy | [Hy [Hm | [Hm Hd]]]].
  - pose proof (days_before_year_mono (y1 + 1) y2 ltac:(lia)) as M.
    rewrite days_before_year_succ in M. lia.
  - subst y2. pose proof (month_day_lt y1 m1 d1 m2 d2 Hm1 Hd1 Hm2 Hd2 Hm). lia.
  - subst y2 m2. lia.
Qed.

Lemma toordinal_le a b :
  valid_date a = true -> valid_date b = true ->
  date_ltb a b = false -> toordinal b <= toordinal a.
Proof.
  intros Ha Hb Hlt.
  destruct (date_ltb b a) eqn:E.
  - pose proof (toordinal_lt b a Hb Ha E). lia.
  - assert (year a = year b /\ month a = month b /\ day a = day b) as (Ey & Em & Ed).
    { unfold date_ltb in *.
      repeat (rewrite orb_false_iff in * || rewrite andb_false_iff in * ).
      rewrite !Z.ltb_ge, !Z.eqb_neq in *. lia. }
    unfold toordinal. rewrite Ey, Em, Ed. lia.
Qed.

Lemma toordinal_range d :
  valid_date d = true -> 1 <= toordinal d <= MAXORDINAL.
Proof.
  unfold valid_date, toordinal. destruct d as [y m dd]. cbn [year month day].
  intros H.
  apply valid_ymd_inv in H. destruct H as (Hy & Hm & Hd).
  pose proof (day_of_year_bounds y m dd Hm Hd) as B.
  pose proof (days_before_year_mono 1 y ltac:(lia)) as M1.
  pose proof (days_before_year_mono (y + 1) 10000 ltac:(lia)) as M2.
  rewrite days_before_year_succ in M2.
  change (days_before_year 1) with 0 in M1.
  change (days_before_year 10000) with 3652059 in M2.
  unfold ymd2ord, MAXORDINAL. lia.
Qed.

Lemma date_new_valid y m d :
  valid_ymd y m d = true -> date_new y m d = Return (mkdate y m d).
Proof.
  unfold valid_ymd, date_new. intros H.
  repeat (apply andb_true_iff in H as [H ?]).
  repeat match goal with E : _ = true |- _ => rewrite E; clear E end.
  reflexivity.
Qed.

Lemma date_new_returns y m d r :
  date_new y m d = Return r -> valid_ymd y m d = true /\ r = mkdate y m d.
Proof.
  unfold valid_ymd, date_new.
  destruct ((MINYEAR <=? y) && (y <=? MAXYEAR)); [|discriminate].
  destruct ((1 <=? m) && (m <=? 12)) eqn:Em; [|discriminate].
  destruct ((1 <=? d) && (d <=? days_in_month y m)) eqn:Ed; [|discriminate].
  apply andb_true_iff in Em as [-> ->]. apply andb_true_iff in Ed as [-> ->].
  simpl. intros [= <-]. split; reflexivity.
Qed.

End PyDateFacts.

(** ** The retry wrapper *)

Module BackoffFacts.
Import Backoff.

Section Generic.
Context {W A : Type}.
Variable sleep : Z -> W -> W.

Lemma backoff_return_first (func : W -> outcome A * W) n d w v w1 :
  func w = (Return v, w1) ->
  api_request_with_backoff sleep func (S n) d w = (Return v, w1).
Proof.
  intros H. unfold api_request_with_backoff. simpl. now rewrite H.
Qed.

(** Whatever relation every call and every sleep of a non-negative delay
    respects, the whole wrapper respects. *)
Section Rel.
Variable R : W -> W -> Prop.
Variable func : W -> outcome A * W.
Variable d : Z.
Hypothesis Hd : 0 <= d.
Hypothesis Hrefl : forall w, R w w.
Hypothesis Htrans : forall a b c, R a b -> R b c -> R a c.
Hypothesis Hfunc : forall w, R w (snd (func w)).
Hypothesis Hsleep : forall s w, 0 <= s -> R w (sleep s w).

Lemma retry_loop_rel : forall remaining retries w,
  R w (snd (retry_loop sleep func d remaining retries w)).
Proof.
  induction remaining as [|n IH]; intros retries w; simpl.
  - apply Hrefl.
  - pose proof (Hfunc w) as Hf.
    destruct (func w) as [[v|e] w1]; simpl in *; [exact Hf|].
    destruct e; simpl; try exact Hf.
    destruct (error_code =? 502); simpl; [|exact Hf].
    destruct (d * 2 ^ retries <? 0); simpl; [exact Hf|].
    eapply Htrans; [exact Hf|]. eapply Htrans; [|apply IH].
    apply Hsleep. apply Z.mul_nonneg_nonneg; [exact Hd|].
    apply Z.pow_nonneg. lia.
Qed.

Lemma retry_loop_after_first : forall remaining retries w,
  R (snd (func w)) (snd (retry_loop sleep func d (S remaining) retries w)).
Proof.
  intros remaining retries w. simpl.
  destruct (func w) as [[v|e] w1]; simpl; [apply Hrefl|].
  destruct e; simpl; try apply Hrefl.
  destruct (error_code =? 502); simpl; [|apply Hrefl].
  destruct (d * 2 ^ retries <? 0); simpl; [apply Hrefl|].
  eapply Htrans; [|apply retry_loop_rel].
  apply Hsleep. apply Z.mul_nonneg_nonneg; [exact Hd|].
  apply Z.pow_nonneg. lia.
Qed.
End Rel.
End Generic.

Lemma delays_S d r k : delays d r (S k) = d * 2 ^ r :: delays d (r + 1) k.
Proof.
  unfold delays. simpl. rewrite Z.add_0_r. f_equal.
  rewrite <- seq_shift, map_map. apply map_ext. intros a.
  do 2 f_equal. lia.
Qed.

Section Scripted.
Context {A : Type}.
Variable script : nat -> outcome A.

(** [k] transient failures in a row are each followed by a sleep and a
    further invocation, the delays being non-negative. *)
Lemma retry_loop_transient_prefix d : forall k remaining retries p,
  ((0 < k)%nat -> 0 <= d) ->
  (forall i, (i < k)%nat ->
     script (invocations p + i)%nat = Raise (ApiException 502)) ->
  retry_loop probe_sleep (scripted script) d (k + remaining) retries p =
  retry_loop probe_sleep (scripted script) d remaining
    (retries + Z.of_nat k)
    (mkprobe (invocations p + k) (slept p ++ delays d retries k)).
Proof.
  induction k as [|k IH]; intros remaining retries p Hd H.
  - simpl. unfold delays. simpl. rewrite app_nil_r, Z.add_0_r, Nat.add_0_r.
    now destruct p.
  - cbn [Nat.add retry_loop]. unfold scripted at 1.
    pose proof (H 0%nat ltac:(lia)) as H0. rewrite Nat.add_0_r in H0.
    rewrite H0. cbn [Z.eqb Pos.eqb].
    replace (d * 2 ^ retries <? 0) with false
      by (symmetry; apply Z.ltb_ge; apply Z.mul_nonneg_nonneg;
          [apply Hd; lia | apply Z.pow_nonneg; lia]).
    rewrite IH.
    + unfold probe_sleep. cbn [invocations slept].
      rewrite delays_S, <- app_assoc. cbn [app].
      replace (retries + 1 + Z.of_nat k) with (retries + Z.of_nat (S k))
        by lia.
      now replace (S (invocations p) + k)%nat
        with (invocations p + S k)%nat by lia.
    + intros _. apply Hd. lia.
    + intros i Hi. unfold probe_sleep. cbn [invocations].
      specialize (H (S i) ltac:(lia)).
      now replace (S (invocations p) + i)%nat
        with (invocations p + S i)%nat by lia.
Qed.

Lemma backoff_success_after d k max_retries v :
  ((0 < k)%nat -> 0 <= d) ->
  (k < max_retries)%nat ->
  (forall i, (i < k)%nat -> script i = Raise (ApiException 502)) ->
  script k = Return v ->
  api_request_with_backoff probe_sleep (scripted script) max_retries d probe0
  = (Return v, mkprobe (S k) (delays d 0 k)).
Proof.
  intros Hd Hk Hpre Hv. unfold api_request_with_backoff.
  replace max_retries with (k + S (max_retries - S k))%nat by lia.
  rewrite retry_loop_transient_prefix
    by (try exact Hd; intros i Hi; now apply Hpre).
  cbn [retry_loop probe0 invocations slept Nat.add app]. unfold scripted.
  cbn [invocations slept]. now rewrite Hv.
Qed.

Lemma backoff_permanent_after d k max_retries e :
  ((0 < k)%nat -> 0 <= d) ->
  (k < max_retries)%nat ->
  (forall i, (i < k)%nat -> script i = Raise (ApiException 502)) ->
  script k = Raise e -> transient e = false -> lacks_error_code e = false ->
  api_request_with_backoff probe_sleep (scripted script) max_retries d probe0
  = (Raise e, mkprobe (S k) (delays d 0 k)).
Proof.
  intros Hd Hk Hpre He Ht Hc. unfold api_request_with_backoff.
  replace max_retries with (k + S (max_retries - S k))%nat by lia.
  rewrite retry_loop_transient_prefix
    by (try exact Hd; intros i Hi; now apply Hpre).
  cbn [retry_loop probe0 invocations slept Nat.add app]. unfold scripted.
  cbn [invocations slept]. rewrite He.
  destruct e; try reflexivity; try discriminate Hc.
  simpl in Ht. now rewrite Ht.
Qed.

(** An [ApiException] without an [error_code] ends the wrapper with the
    [AttributeError] of the handler. *)
Lemma backoff_attribute_error_after d k max_retries e :
  ((0 < k)%nat -> 0 <= d) ->
  (k < max_retries)%nat ->
  (forall i, (i < k)%nat -> script i = Raise (ApiException 502)) ->
  script k = Raise e -> lacks_error_code e = true ->
  api_request_with_backoff probe_sleep (scripted script) max_retries d probe0
  = (Raise (AttributeError "object has no attribute 'error_code'"),
     mkprobe (S k) (delays d 0 k)).
Proof.
  intros Hd Hk Hpre He Hc. unfold api_request_with_backoff.
  replace max_retries with (k + S (max_retries - S k))%nat by lia.
  rewrite retry_loop_transient_prefix
    by (try exact Hd; intros i Hi; now apply Hpre).
  cbn [retry_loop probe0 invocations slept Nat.add app]. unfold scripted.
  cbn [invocations slept]. rewrite He.
  destruct e; try discriminate Hc; reflexivity.
Qed.

Lemma backoff_exhausted d max_retries :
  ((0 < max_retries)%nat -> 0 <= d) ->
  (forall i, (i < max_retries)%nat -> script i = Raise (ApiException 502)) ->
  api_request_with_backoff probe_sleep (scripted script) max_retries d probe0
  = (Raise (Exception "Max retries reached"),
     mkprobe max_retries (delays d 0 max_retries)).
Proof.
  intros Hd Hpre. unfold api_request_with_backoff.
  replace max_retries with (max_retries + 0)%nat at 1 by lia.
  rewrite retry_loop_transient_prefix
    by (try exact Hd; intros i Hi; now apply Hpre).
  reflexivity.
Qed.
End Scripted.

(** C4.  Backoff timing.  Under [max_retries = 5] and [initial_delay = 1],
    whatever the wrapped callable is: when its first two invocations raise
    the transient error and its third returns [v], the wrapper returns [v],
    has invoked the callable exactly 3 times, and has slept the delays
    [1 * 2^0] before retry 0 and [1 * 2^1] before retry 1, that is
    [1 + 2 = 3] seconds in all. *)
Theorem backoff_two_transient_failures_then_success
    {A : Type} (script : nat -> outcome A) (v : A) :
  script 0%nat = Raise (ApiException 502) ->
  script 1%nat = Raise (ApiException 502) ->
  script 2%nat = Return v ->
  let '(r, p) :=
    api_request_with_backoff probe_sleep (scripted script) 5 1 probe0 in
  r = Return v /\ invocations p = 3%nat
  /\ slept p = [1 * 2 ^ 0; 1 * 2 ^ 1] /\ total_delay p = 1 + 2.
Proof.
  intros H0 H1 H2.
  rewrite (backoff_success_after script 1 2 5 v); [ | lia | lia | | exact H2].
  - repeat split.
  - intros i Hi. destruct i as [|[|i]]; [exact H0 | exact H1 | lia].
Qed.

Lemma backoff_two_transient_failures_then_success_witness :
  let '(r, p) :=
    api_request_with_backoff probe_sleep (scripted two_then_ok) 5 1 probe0 in
  r = Return 42 /\ invocations p = 3%nat
  /\ slept p = [1 * 2 ^ 0; 1 * 2 ^ 1] /\ total_delay p = 1 + 2.
Proof.
  apply (backoff_two_transient_failures_then_success two_then_ok 42);
    reflexivity.
Defined.




End BackoffFacts.

(** ** The caches *)

Module BotFacts.
Import Backoff Bot BackoffFacts.

Lemma frame_all_refl w : frame_all w w.
Proof. unfold frame_all, grows. repeat split; lia. Qed.

Lemma frame_all_trans a b c : frame_all a b -> frame_all b c -> frame_all a c.
Proof.
  unfold frame_all, grows.
  intros (G1 & M1 & B1) (G2 & M2 & B2).
  repeat split; try lia; congruence.
Qed.

Lemma frame_bitcoin_refl w : frame_bitcoin w w.
Proof. unfold frame_bitcoin, grows. repeat split; lia. Qed.

Lemma frame_bitcoin_trans a b c :
  frame_bitcoin a b -> frame_bitcoin b c -> frame_bitcoin a c.
Proof.
  unfold frame_bitcoin, grows.
  intros (G1 & B1) (G2 & B2). repeat split; try lia; congruence.
Qed.

Lemma frame_all_bitcoin a b : frame_all a b -> frame_bitcoin a b.
Proof. unfold frame_all, frame_bitcoin. tauto. Qed.

Lemma frame_all_sleep s w : 0 <= s -> frame_all w (sleep s w).
Proof.
  intros Hs. unfold frame_all, grows, sleep, seconds. simpl.
  repeat split; lia.
Qed.

Lemma frame_bitcoin_sleep s w : 0 <= s -> frame_bitcoin w (sleep s w).
Proof. intros Hs. now apply frame_all_bitcoin, frame_all_sleep. Qed.

Lemma frame_all_advance dt w : 0 <= dt -> frame_all w (advance dt w).
Proof.
  intros Hs. unfold frame_all, grows, advance. simpl. repeat split; lia.
Qed.


(** An expired cache stays expired as time goes on. *)
Lemma fresh_false_later c t t' :
  fresh c t = false -> t <= t' -> fresh c t' = false.
Proof.
  unfold fresh. destruct (last_updated c) as [u|]; [|reflexivity].
  rewrite !Z.ltb_ge. lia.
Qed.

Section Upstream.

Variable mempool_api : nat -> outcome (Z * Z * Z).
Variable coingecko_change_api : nat -> outcome Z.
Variable coingecko_api : nat -> outcome value.

Local Abbreviation get_mempool := (get_mempool_data mempool_api).
Local Abbreviation get_change :=
  (get_coingecko_price_change coingecko_change_api).
Local Abbreviation get_bitcoin :=
  (get_bitcoin_price mempool_api coingecko_change_api coingecko_api).
Local Abbreviation refresh_mempool := (mempool_refresh mempool_api).
Local Abbreviation refresh_bitcoin :=
  (bitcoin_refresh mempool_api coingecko_change_api coingecko_api).
Local Abbreviation backoff := (api_request_with_backoff sleep).

(** *** The raw fetches *)

Lemma mempool_fetch_frame w :
  frame_all w (snd (mempool_fetch_data mempool_api w))
  /\ mempool_requests (snd (mempool_fetch_data mempool_api w))
     = S (mempool_requests w).
Proof.
  unfold mempool_fetch_data, frame_all, grows.
  destruct (mempool_api (mempool_requests w)) as [[[eur usd] fee]|e];
    simpl; repeat split; lia.
Qed.

Lemma change_fetch_frame w :
  frame_all w (snd (change_fetch_data coingecko_change_api w))
  /\ change_requests (snd (change_fetch_data coingecko_change_api w))
     = S (change_requests w).
Proof.
  unfold change_fetch_data, frame_all, grows.
  destruct (coingecko_change_api (change_requests w)) as [c|e];
    simpl; repeat split; lia.
Qed.

Lemma coingecko_fetch_frame w :
  frame_all w (snd (fetch_coingecko coingecko_api w)).
Proof.
  unfold fetch_coingecko, frame_all, grows. simpl. repeat split; lia.
Qed.

(** *** The wrapper around a raw fetch *)

Lemma backoff_frame {A : Type} (func : world -> outcome A * world) n w :
  (forall w, frame_all w (snd (func w))) ->
  frame_all w (snd (api_request_with_backoff sleep func n 1 w)).
Proof.
  intros Hf. unfold api_request_with_backoff.
  apply retry_loop_rel;
    [lia | apply frame_all_refl | apply frame_all_trans | exact Hf
    | apply frame_all_sleep].
Qed.

Lemma backoff_frame_first {A : Type} (func : world -> outcome A * world) n w :
  (forall w, frame_all w (snd (func w))) ->
  frame_all (snd (func w))
    (snd (api_request_with_backoff sleep func (S n) 1 w)).
Proof.
  intros Hf. unfold api_request_with_backoff.
  apply retry_loop_after_first;
    [lia | apply frame_all_refl | apply frame_all_trans | exact Hf
    | apply frame_all_sleep].
Qed.

Lemma backoff_mempool_fetch w :
  let w1 :=
    snd (api_request_with_backoff sleep (mempool_fetch_data mempool_api)
           5 1 w) in
  frame_all w w1 /\ (mempool_requests w < mempool_requests w1)%nat.
Proof.
  cbv zeta. split.
  - apply backoff_frame. intros w0. apply mempool_fetch_frame.
  - pose proof (backoff_frame_first (mempool_fetch_data mempool_api) 4 w
                  (fun w0 => proj1 (mempool_fetch_frame w0))) as H.
    destruct (mempool_fetch_frame w) as [_ E].
    destruct H as ((_ & H & _) & _). lia.
Qed.

Lemma backoff_change_fetch w :
  let w1 :=
    snd (api_request_with_backoff sleep
           (change_fetch_data coingecko_change_api) 5 1 w) in
  frame_all w w1 /\ (change_requests w < change_requests w1)%nat.
Proof.
  cbv zeta. split.
  - apply backoff_frame. intros w0. apply change_fetch_frame.
  - pose proof (backoff_frame_first
                  (change_fetch_data coingecko_change_api) 4 w
                  (fun w0 => proj1 (change_fetch_frame w0))) as H.
    destruct (change_fetch_frame w) as [_ E].
    destruct H as ((_ & _ & H & _) & _). lia.
Qed.

(** *** [get_mempool_data] *)

(** The [try] block: a failure leaves the caches alone, a success stores
    the data with the time read at the start of the call. *)
Lemma mempool_refresh_spec t w :
  let '(r, w1) := refresh_mempool t w in
  (mempool_requests w < mempool_requests w1)%nat
  /\ grows w w1
  /\ BITCOIN_CACHE w1 = BITCOIN_CACHE w
  /\ match r with
     | Raise _ => MEMPOOL_CACHE w1 = MEMPOOL_CACHE w
     | Return d => MEMPOOL_CACHE w1 = mkcache d (Some t)
     end.
Proof.
  unfold mempool_refresh, bind, ret, set_MEMPOOL_CACHE.
  pose proof (backoff_mempool_fetch w) as H. cbv zeta in H.
  destruct (api_request_with_backoff sleep (mempool_fetch_data mempool_api)
              5 1 w) as [[d|e] w1]; simpl in *;
    destruct H as ((G & Em & Eb) & Hlt); unfold grows in *; simpl;
    repeat split; try lia; assumption.
Qed.

Lemma get_mempool_stale w :
  fresh (MEMPOOL_CACHE w) (clock w) = false ->
  get_mempool w =
  match refresh_mempool (clock w) w with
  | (Return d, w1) => (Return d, w1)
  | (Raise _, w1) => (Return VNone, w1)
  end.
Proof.
  intros H. unfold get_mempool_data. rewrite H.
  unfold try_except, ret.
  now destruct (refresh_mempool (clock w) w) as [[d|e] w1].
Qed.

Lemma get_mempool_returns w : exists v, fst (get_mempool w) = Return v.
Proof.
  destruct (fresh (MEMPOOL_CACHE w) (clock w)) eqn:F.
  - unfold get_mempool_data. rewrite F. simpl. eauto.
  - rewrite get_mempool_stale by exact F.
    destruct (refresh_mempool (clock w) w) as [[d|e] w1]; simpl; eauto.
Qed.

Lemma get_mempool_frame w : frame_bitcoin w (snd (get_mempool w)).
Proof.
  destruct (fresh (MEMPOOL_CACHE w) (clock w)) eqn:F.
  - unfold get_mempool_data. rewrite F. simpl.
    apply frame_bitcoin_refl.
  - rewrite get_mempool_stale by exact F.
    pose proof (mempool_refresh_spec (clock w) w) as H.
    destruct (refresh_mempool (clock w) w) as [[d|e] w1]; simpl;
      unfold frame_bitcoin; tauto.
Qed.

(** *** [get_coingecko_price_change] *)

Lemma get_change_spec w :
  let '(r, w1) := get_change w in
  (exists v, r = Return v)
  /\ frame_all w w1 /\ (change_requests w < change_requests w1)%nat.
Proof.
  unfold get_coingecko_price_change, try_except, bind, ret, lift.
  pose proof (backoff_change_fetch w) as H. cbv zeta in H.
  destruct (api_request_with_backoff sleep
              (change_fetch_data coingecko_change_api) 5 1 w)
    as [[d|e] w1]; simpl in *.
  - destruct (format_2f d) as [[]|e]; simpl; split; eauto.
  - split; eauto.
Qed.

(** *** The wrapper around a fetcher that never raises *)

Lemma backoff_of_total {A : Type} (func : world -> outcome A * world) w :
  (exists v, fst (func w) = Return v) ->
  api_request_with_backoff sleep func 5 1 w = func w.
Proof.
  intros [v Hv]. destruct (func w) as [r w1] eqn:E. simpl in Hv. subst r.
  now apply backoff_return_first.
Qed.

(** *** [get_bitcoin_price] *)

Lemma lift_frame {A : Type} (o : outcome A) w : snd (lift o w) = w.
Proof. reflexivity. Qed.

(** The part of the [try] block before the cache is assigned. *)
Lemma bitcoin_refresh_spec t w :
  let '(r, w1) := refresh_bitcoin t w in
  (change_requests w < change_requests w1)%nat
  /\ grows w w1
  /\ match r with
     | Raise _ => BITCOIN_CACHE w1 = BITCOIN_CACHE w
     | Return d => BITCOIN_CACHE w1 = mkcache d (Some t)
     end.
Proof.
  unfold bitcoin_refresh.
  unfold bind at 1.
  rewrite (backoff_of_total (get_mempool_data mempool_api) w)
    by apply get_mempool_returns.
  pose proof (get_mempool_returns w) as [md Hmd].
  pose proof (get_mempool_frame w) as Fa.
  destruct (get_mempool_data mempool_api w) as [r wa]. simpl in Hmd, Fa.
  subst r.
  unfold bind at 1.
  rewrite (backoff_of_total
             (get_coingecko_price_change coingecko_change_api) wa)
    by (pose proof (get_change_spec wa) as H;
        destruct (get_coingecko_price_change coingecko_change_api wa);
        simpl; tauto).
  pose proof (get_change_spec wa) as Hb.
  destruct (get_coingecko_price_change coingecko_change_api wa) as [r wb].
  destruct Hb as ([pc ->] & Fb & Hlt).
  assert (Fab : frame_bitcoin w wb /\
                (change_requests w < change_requests wb)%nat).
  { split.
    - eapply frame_bitcoin_trans; [exact Fa|]. now apply frame_all_bitcoin.
    - destruct Fa as ((_ & _ & H & _) & _). lia. }
  clear Fa Fb Hlt. destruct Fab as [Fab Hlt].
  assert (Hfin : forall (r : outcome value) wc,
    frame_all wb wc ->
    let '(r', w1) :=
      match r with
      | Return a =>
          (_ <- set_BITCOIN_CACHE (mkcache a (Some t)) ;; ret a) wc
      | Raise e => (Raise e, wc)
      end in
    (change_requests w < change_requests w1)%nat /\ grows w w1 /\
    match r' with
    | Raise _ => BITCOIN_CACHE w1 = BITCOIN_CACHE w
    | Return d => BITCOIN_CACHE w1 = mkcache d (Some t)
    end).
  { intros r wc Fc.
    pose proof (frame_bitcoin_trans _ _ _ Fab (frame_all_bitcoin _ _ Fc))
      as ((G1 & G2 & G3 & G4) & B).
    destruct Fc as ((_ & _ & G3' & _) & _).
    destruct r as [a|e]; unfold bind, set_BITCOIN_CACHE, ret, grows; simpl;
      repeat split; try lia; assumption. }
  unfold bind at 1.
  destruct (truthy md).
  - unfold bind, lift, ret.
    destruct (getitem md "price_eur") as [eur|e];
      [|exact (Hfin (Raise e) wb (frame_all_refl wb))].
    destruct (getitem md "price_usd") as [usd|e];
      [|exact (Hfin (Raise e) wb (frame_all_refl wb))].
    destruct (getitem md "fee") as [fee|e];
      [|exact (Hfin (Raise e) wb (frame_all_refl wb))].
    destruct (format_2f eur) as [[]|e];
      [|exact (Hfin (Raise e) wb (frame_all_refl wb))].
    destruct (format_2f usd) as [[]|e];
      [|exact (Hfin (Raise e) wb (frame_all_refl wb))].
    exact (Hfin (Return _) wb (frame_all_refl wb)).
  - unfold bind at 1.
    pose proof (backoff_frame (fetch_coingecko coingecko_api) 5 wb
                  coingecko_fetch_frame) as Fc.
    destruct (api_request_with_backoff sleep (fetch_coingecko coingecko_api)
                5 1 wb) as [[bd|e] wc]; simpl in Fc;
      [|exact (Hfin (Raise e) wc Fc)].
    unfold bind, lift, ret.
    destruct (getitem bd "bitcoin") as [inner|e];
      [|exact (Hfin (Raise e) wc Fc)].
    destruct (getitem inner "eur") as [eur|e];
      [|exact (Hfin (Raise e) wc Fc)].
    destruct (format_2f eur) as [[]|e];
      [|exact (Hfin (Raise e) wc Fc)].
    exact (Hfin (Return bd) wc Fc).
Qed.

Lemma get_bitcoin_stale w :
  fresh (BITCOIN_CACHE w) (clock w) = false ->
  get_bitcoin w =
  match refresh_bitcoin (clock w) w with
  | (Return d, w1) => (Return d, w1)
  | (Raise _, w1) => (Return VNone, w1)
  end.
Proof.
  intros H. unfold get_bitcoin_price. rewrite H.
  unfold try_except, ret.
  now destruct (refresh_bitcoin (clock w) w) as [[d|e] w1].
Qed.

Lemma get_bitcoin_returns w : exists v, fst (get_bitcoin w) = Return v.
Proof.
  destruct (fresh (BITCOIN_CACHE w) (clock w)) eqn:F.
  - unfold get_bitcoin_price. rewrite F. simpl. eauto.
  - rewrite get_bitcoin_stale by exact F.
    destruct (refresh_bitcoin (clock w) w) as [[d|e] w1]; simpl; eauto.
Qed.

Lemma get_mempool_fresh w t :
  last_updated (MEMPOOL_CACHE w) = Some t -> clock w - t < seconds 60 ->
  get_mempool w = (Return (data (MEMPOOL_CACHE w)), w).
Proof.
  intros Ht Hlt. unfold get_mempool_data, fresh. rewrite Ht.
  now apply Z.ltb_lt in Hlt as ->.
Qed.

Lemma get_bitcoin_fresh w t :
  last_updated (BITCOIN_CACHE w) = Some t -> clock w - t < seconds 60 ->
  get_bitcoin w = (Return (data (BITCOIN_CACHE w)), w).
Proof.
  intros Ht Hlt. unfold get_bitcoin_price, fresh. rewrite Ht.
  now apply Z.ltb_lt in Hlt as ->.
Qed.

Lemma expired_not_fresh c t now :
  last_updated c = Some t -> seconds 61 <= now - t -> fresh c now = false.
Proof.
  intros Ht H. unfold fresh. rewrite Ht. apply Z.ltb_ge.
  unfold seconds in *. lia.
Qed.

(** C6.  Cache failure isolation, for [MEMPOOL_CACHE] and then for
    [BITCOIN_CACHE].  When the cache has expired and the fetch (the [try]
    block) fails, the getter returns [None] and not the cached data, the
    cache (data and [last_updated]) is as before the call, and a call made
    right after, or any time later, finds the cache expired and issues a
    request upstream again. *)
Theorem cache_failure_isolation :
  (forall w e w1,
     fresh (MEMPOOL_CACHE w) (clock w) = false ->
     refresh_mempool (clock w) w = (Raise e, w1) ->
     get_mempool w = (Return VNone, w1)
     /\ MEMPOOL_CACHE w1 = MEMPOOL_CACHE w
     /\ forall dt, 0 <= dt ->
          let w2 := advance dt w1 in
          fresh (MEMPOOL_CACHE w2) (clock w2) = false
          /\ (mempool_requests w2
              < mempool_requests (snd (get_mempool w2)))%nat)
  /\ (forall w e w1,
        fresh (BITCOIN_CACHE w) (clock w) = false ->
        refresh_bitcoin (clock w) w = (Raise e, w1) ->
        get_bitcoin w = (Return VNone, w1)
        /\ BITCOIN_CACHE w1 = BITCOIN_CACHE w
        /\ forall dt, 0 <= dt ->
             let w2 := advance dt w1 in
             fresh (BITCOIN_CACHE w2) (clock w2) = false
             /\ (change_requests w2
                 < change_requests (snd (get_bitcoin w2)))%nat).
Proof.
  split.
  - intros w e w1 F E.
    pose proof (mempool_refresh_spec (clock w) w) as S. rewrite E in S.
    destruct S as (_ & (Gc & _) & _ & Ec).
    rewrite get_mempool_stale by exact F. rewrite E.
    repeat split; [exact Ec|..]; cbv zeta.
    + simpl. rewrite Ec. eapply fresh_false_later; [exact F|lia].
    + assert (F2 : fresh (MEMPOOL_CACHE (advance dt w1))
                     (clock (advance dt w1)) = false).
      { simpl. rewrite Ec. eapply fresh_false_later; [exact F|lia]. }
      rewrite get_mempool_stale by exact F2.
      pose proof (mempool_refresh_spec (clock (advance dt w1))
                    (advance dt w1)) as S2.
      destruct (refresh_mempool (clock (advance dt w1)) (advance dt w1))
        as [[d|e'] w3]; simpl; tauto.
  - intros w e w1 F E.
    pose proof (bitcoin_refresh_spec (clock w) w) as S. rewrite E in S.
    destruct S as (_ & (Gc & _) & Ec).
    rewrite get_bitcoin_stale by exact F. rewrite E.
    repeat split; [exact Ec|..]; cbv zeta.
    + simpl. rewrite Ec. eapply fresh_false_later; [exact F|lia].
    + assert (F2 : fresh (BITCOIN_CACHE (advance dt w1))
                     (clock (advance dt w1)) = false).
      { simpl. rewrite Ec. eapply fresh_false_later; [exact F|lia]. }
      rewrite get_bitcoin_stale by exact F2.
      pose proof (bitcoin_refresh_spec (clock (advance dt w1))
                    (advance dt w1)) as S2.
      destruct (refresh_bitcoin (clock (advance dt w1)) (advance dt w1))
        as [[d|e'] w3]; simpl; tauto.
Qed.

(** C7.  Cache freshness, for [MEMPOOL_CACHE] and then for
    [BITCOIN_CACHE]: (1) with a cached value less than 60 seconds old the
    getter returns it and leaves the world as it is, so nothing is
    fetched; (2) after a call whose fetch succeeded, a second call less
    than 60 seconds after the first returns the same data without
    fetching, so the two calls fetch once; (3) 61 seconds or more after
    the cached value was stored the getter sends a request upstream, and
    when the fetch succeeds it returns the new data and the cache holds
    it, stamped with the time read at the start of the call. *)
Theorem cache_freshness :
  (forall w t,
     last_updated (MEMPOOL_CACHE w) = Some t -> clock w - t < seconds 60 ->
     get_mempool w = (Return (data (MEMPOOL_CACHE w)), w))
  /\ (forall w d w1,
        fresh (MEMPOOL_CACHE w) (clock w) = false ->
        refresh_mempool (clock w) w = (Return d, w1) ->
        get_mempool w = (Return d, w1)
        /\ forall dt, 0 <= dt -> clock w1 + dt - clock w < seconds 60 ->
             get_mempool (advance dt w1) = (Return d, advance dt w1))
  /\ (forall w t,
        last_updated (MEMPOOL_CACHE w) = Some t ->
        seconds 61 <= clock w - t ->
        (mempool_requests w < mempool_requests (snd (get_mempool w)))%nat
        /\ forall d w1,
             refresh_mempool (clock w) w = (Return d, w1) ->
             get_mempool w = (Return d, w1)
             /\ MEMPOOL_CACHE w1 = mkcache d (Some (clock w)))
  /\ (forall w t,
        last_updated (BITCOIN_CACHE w) = Some t -> clock w - t < seconds 60 ->
        get_bitcoin w = (Return (data (BITCOIN_CACHE w)), w))
  /\ (forall w d w1,
        fresh (BITCOIN_CACHE w) (clock w) = false ->
        refresh_bitcoin (clock w) w = (Return d, w1) ->
        get_bitcoin w = (Return d, w1)
        /\ forall dt, 0 <= dt -> clock w1 + dt - clock w < seconds 60 ->
             get_bitcoin (advance dt w1) = (Return d, advance dt w1))
  /\ (forall w t,
        last_updated (BITCOIN_CACHE w) = Some t ->
        seconds 61 <= clock w - t ->
        (change_requests w < change_requests (snd (get_bitcoin w)))%nat
        /\ forall d w1,
             refresh_bitcoin (clock w) w = (Return d, w1) ->
             get_bitcoin w = (Return d, w1)
             /\ BITCOIN_CACHE w1 = mkcache d (Some (clock w))).
Proof.
  repeat apply conj.
  - exact get_mempool_fresh.
  - intros w d w1 F E.
    pose proof (mempool_refresh_spec (clock w) w) as S. rewrite E in S.
    destruct S as (_ & _ & _ & Ec).
    rewrite get_mempool_stale by exact F. rewrite E. split; [reflexivity|].
    intros dt Hdt Hlt.
    rewrite (get_mempool_fresh (advance dt w1) (clock w)).
    + simpl. now rewrite Ec.
    + simpl. now rewrite Ec.
    + simpl. exact Hlt.
  - intros w t Ht Hexp.
    pose proof (expired_not_fresh _ _ _ Ht Hexp) as F.
    rewrite get_mempool_stale by exact F.
    pose proof (mempool_refresh_spec (clock w) w) as S.
    destruct (refresh_mempool (clock w) w) as [[d|e] w1]; simpl.
    + split; [tauto|]. intros d' w1' [= <- <-]. tauto.
    + split; [tauto|]. intros d' w1' [=].
  - exact get_bitcoin_fresh.
  - intros w d w1 F E.
    pose proof (bitcoin_refresh_spec (clock w) w) as S. rewrite E in S.
    destruct S as (_ & _ & Ec).
    rewrite get_bitcoin_stale by exact F. rewrite E. split; [reflexivity|].
    intros dt Hdt Hlt.
    rewrite (get_bitcoin_fresh (advance dt w1) (clock w)).
    + simpl. now rewrite Ec.
    + simpl. now rewrite Ec.
    + simpl. exact Hlt.
  - intros w t Ht Hexp.
    pose proof (expired_not_fresh _ _ _ Ht Hexp) as F.
    rewrite get_bitcoin_stale by exact F.
    pose proof (bitcoin_refresh_spec (clock w) w) as S.
    destruct (refresh_bitcoin (clock w) w) as [[d|e] w1]; simpl.
    + split; [tauto|]. intros d' w1' [= <- <-]. tauto.
    + split; [tauto|]. intros d' w1' [=].
Qed.

(** C10.  The wrapper around the fetchers.  [get_mempool_data],
    [get_coingecko_price_change] and [get_bitcoin_price] never raise, so
    [api_request_with_backoff] applied to one of them is exactly one
    invocation of it, with no retry and no sleep of its own; and when the
    underlying fetch fails, what the wrapper returns, as a success, is
    [None]. *)
Theorem backoff_around_fetchers_never_retries (w : world) :
  (backoff get_mempool 5 1 w = get_mempool w
   /\ (exists v, fst (get_mempool w) = Return v)
   /\ forall e w1,
        fresh (MEMPOOL_CACHE w) (clock w) = false ->
        refresh_mempool (clock w) w = (Raise e, w1) ->
        backoff get_mempool 5 1 w = (Return VNone, w1))
  /\ (backoff get_change 5 1 w = get_change w
      /\ (exists v, fst (get_change w) = Return v)
      /\ forall e w1,
           backoff (change_fetch_data coingecko_change_api) 5 1 w
           = (Raise e, w1) ->
           backoff get_change 5 1 w = (Return VNone, w1))
  /\ (backoff get_bitcoin 5 1 w = get_bitcoin w
      /\ (exists v, fst (get_bitcoin w) = Return v)
      /\ forall e w1,
           fresh (BITCOIN_CACHE w) (clock w) = false ->
           refresh_bitcoin (clock w) w = (Raise e, w1) ->
           backoff get_bitcoin 5 1 w = (Return VNone, w1)).
Proof.
  assert (Hc : exists v, fst (get_change w) = Return v).
  { pose proof (get_change_spec w) as H.
    destruct (get_change w) as [r w1]. simpl. tauto. }
  repeat apply conj.
  - apply backoff_of_total, get_mempool_returns.
  - apply get_mempool_returns.
  - intros e w1 F E.
    rewrite backoff_of_total by apply get_mempool_returns.
    rewrite get_mempool_stale by exact F. now rewrite E.
  - now apply backoff_of_total.
  - exact Hc.
  - intros e w1 E. rewrite backoff_of_total by exact Hc.
    unfold get_coingecko_price_change, try_except, bind. now rewrite E.
  - apply backoff_of_total, get_bitcoin_returns.
  - apply get_bitcoin_returns.
  - intros e w1 F E.
    rewrite backoff_of_total by apply get_bitcoin_returns.
    rewrite get_bitcoin_stale by exact F. now rewrite E.
Qed.

End Upstream.

Lemma cache_failure_isolation_witness :
  (get_mempool_data down_mempool stale_world
   = (Return VNone, after_failed_mempool)
   /\ MEMPOOL_CACHE after_failed_mempool = MEMPOOL_CACHE stale_world
   /\ (1 < mempool_requests
             (snd (get_mempool_data down_mempool
                     (advance 0 after_failed_mempool))))%nat)
  /\ (get_bitcoin_price down_mempool down_change down_coingecko stale_world
      = (Return VNone, after_failed_bitcoin)
      /\ BITCOIN_CACHE after_failed_bitcoin = BITCOIN_CACHE stale_world
      /\ (1 < change_requests
                (snd (get_bitcoin_price down_mempool down_change
                        down_coingecko (advance 0 after_failed_bitcoin))))%nat).
Proof.
  destruct (cache_failure_isolation down_mempool down_change down_coingecko)
    as [Hm Hb].
  split.
  - destruct (Hm stale_world (HTTPError 503) after_failed_mempool
                eq_refl eq_refl) as (H1 & H2 & H3).
    split; [exact H1 | split; [exact H2 |]].
    exact (proj2 (H3 0 ltac:(lia))).
  - destruct (Hb stale_world (HTTPError 503) after_failed_bitcoin
                eq_refl eq_refl) as (H1 & H2 & H3).
    split; [exact H1 | split; [exact H2 |]].
    exact (proj2 (H3 0 ltac:(lia))).
Defined.

Lemma cache_freshness_witness :
  (get_mempool_data up_mempool cold_world = (Return snapshot, after_mempool)
   /\ get_mempool_data up_mempool (advance (seconds 59) after_mempool)
      = (Return snapshot, advance (seconds 59) after_mempool))
  /\ (0 < mempool_requests (snd (get_mempool_data up_mempool stale_world)))%nat
  /\ (get_bitcoin_price up_mempool up_change down_coingecko cold_world
      = (Return combined, after_bitcoin)
      /\ get_bitcoin_price up_mempool up_change down_coingecko
           (advance (seconds 59) after_bitcoin)
         = (Return combined, advance (seconds 59) after_bitcoin))
  /\ (0 < change_requests
            (snd (get_bitcoin_price up_mempool up_change down_coingecko
                    stale_world)))%nat.
Proof.
  destruct (cache_freshness up_mempool up_change down_coingecko)
    as (_ & Hm2 & Hm3 & _ & Hb2 & Hb3).
  repeat apply conj.
  - exact (proj1 (Hm2 cold_world snapshot after_mempool eq_refl eq_refl)).
  - apply (proj2 (Hm2 cold_world snapshot after_mempool eq_refl eq_refl));
      [unfold seconds; lia | reflexivity].
  - apply (proj1 (Hm3 stale_world (seconds 900) eq_refl
                    ltac:(unfold seconds; simpl; lia))).
  - exact (proj1 (Hb2 cold_world combined after_bitcoin eq_refl eq_refl)).
  - apply (proj2 (Hb2 cold_world combined after_bitcoin eq_refl eq_refl));
      [unfold seconds; lia | reflexivity].
  - apply (proj1 (Hb3 stale_world (seconds 900) eq_refl
                    ltac:(unfold seconds; simpl; lia))).
Defined.

Lemma backoff_around_fetchers_never_retries_witness :
  Backoff.api_request_with_backoff sleep (get_mempool_data down_mempool) 5 1
    stale_world
  = (Return VNone, after_failed_mempool)
  /\ Backoff.api_request_with_backoff sleep
       (get_bitcoin_price down_mempool down_change down_coingecko) 5 1
       stale_world
     = (Return VNone, after_failed_bitcoin).
Proof.
  destruct (backoff_around_fetchers_never_retries
              down_mempool down_change down_coingecko stale_world)
    as ((_ & _ & Hm) & _ & (_ & _ & Hb)).
  split.
  - exact (Hm (HTTPError 503) after_failed_mempool eq_refl eq_refl).
  - exact (Hb (HTTPError 503) after_failed_bitcoin eq_refl eq_refl).
Defined.

End BotFacts.

(** ** The ladder *)

Module LadderFacts.
Import Ladder.

Lemma mem_In x l : mem x l = true <-> In x l.
Proof.
  unfold mem. rewrite existsb_exists. split.
  - intros (y & Hy & E). apply Z.eqb_eq in E. now subst.
  - intros H. exists x. split; [exact H | apply Z.eqb_refl].
Qed.

Lemma mem_false x l : mem x l = false <-> ~ In x l.
Proof.
  rewrite <- mem_In. destruct (mem x l); split; congruence.
Qed.

Lemma subsetb_incl a b : subsetb a b = true <-> incl a b.
Proof.
  unfold subsetb, incl. rewrite forallb_forall.
  split; intros H x Hx; apply mem_In; now apply H.
Qed.

Lemma increasingb_Sorted l : increasingb l = true <-> Sorted Z.lt l.
Proof.
  induction l as [|x [|y rest] IH].
  - split; [constructor | reflexivity].
  - split; [repeat constructor | reflexivity].
  - change (increasingb (x :: y :: rest))
      with ((x <? y) && increasingb (y :: rest)).
    rewrite andb_true_iff, Z.ltb_lt, IH. split.
    + intros [Hxy Hs]. constructor; [exact Hs | now constructor].
    + intros H. inversion H as [|? ? Hs Hh]; subst.
      inversion Hh; subst. tauto.
Qed.

(** What the invariant says. *)
Lemma ladder_inv_spec st :
  ladder_inv st = true <->
  incl (notified st) (thresholds st) /\ Sorted Z.lt (thresholds st).
Proof.
  unfold ladder_inv. now rewrite andb_true_iff, subsetb_incl, increasingb_Sorted.
Qed.

(** *** [list.sort] *)

Lemma insert_perm x l : Permutation (insert x l) (x :: l).
Proof.
  induction l as [|y rest IH]; simpl; [reflexivity|].
  destruct (x <=? y); [reflexivity|].
  rewrite IH. apply perm_swap.
Qed.

Lemma sort_perm l : Permutation (sort l) l.
Proof.
  induction l as [|x rest IH]; simpl; [reflexivity|].
  now rewrite insert_perm, IH.
Qed.

Lemma insert_sorted x l : Sorted Z.le l -> Sorted Z.le (insert x l).
Proof.
  induction 1 as [|y rest Hs IH Hh]; simpl; [repeat constructor|].
  destruct (x <=? y) eqn:E.
  - apply Z.leb_le in E. repeat constructor; assumption.
  - apply Z.leb_gt in E. constructor; [exact IH|].
    destruct rest as [|z rest']; simpl.
    + constructor. lia.
    + destruct (x <=? z); constructor; [lia|]. now inversion Hh.
Qed.

Lemma sort_sorted l : Sorted Z.le (sort l).
Proof.
  induction l as [|x rest IH]; simpl; [constructor|].
  now apply insert_sorted.
Qed.

Lemma Sorted_lt_NoDup l : Sorted Z.lt l -> NoDup l.
Proof.
  intros H. apply Sorted_StronglySorted in H; [|exact Z.lt_trans].
  induction H as [|x rest Hs IH Hall]; constructor; [|exact IH].
  intros Hin. rewrite Forall_forall in Hall. specialize (Hall x Hin). lia.
Qed.

Lemma Sorted_le_NoDup_lt l : Sorted Z.le l -> NoDup l -> Sorted Z.lt l.
Proof.
  induction 1 as [|x rest Hs IH Hh]; intros Hnd; [constructor|].
  inversion Hnd as [|? ? Hnotin Hnd']; subst.
  constructor; [now apply IH|].
  destruct Hh as [|y rest' Hle]; constructor.
  assert (x <> y) by (intros ->; apply Hnotin; now left). lia.
Qed.

Lemma sort_append_increasing l x :
  increasingb l = true -> mem x l = false ->
  increasingb (sort (l ++ [x])) = true.
Proof.
  intros Hl Hx. apply increasingb_Sorted.
  apply Sorted_le_NoDup_lt; [apply sort_sorted|].
  apply (Permutation_NoDup (l := x :: l)).
  - rewrite sort_perm. apply Permutation_cons_append.
  - constructor; [now apply mem_false|].
    now apply Sorted_lt_NoDup, increasingb_Sorted.
Qed.

Lemma sort_append_incl l x : incl l (sort (l ++ [x])).
Proof.
  intros y Hy. apply (Permutation_in (l := l ++ [x])).
  - symmetry. apply sort_perm.
  - apply in_or_app. now left.
Qed.

Section Sink.

Variable send_message : Z -> option exn.

(** The loop only appends: to [notified] and to the events the same
    thresholds, each taken from the list walked, reached by the price, not
    notified before, and none twice. *)
Lemma notify_loop_spec p : forall ths notified events,
  exists new,
    snd (fst (notify_loop send_message p ths notified events))
    = notified ++ new
    /\ snd (notify_loop send_message p ths notified events) = events ++ new
    /\ NoDup new
    /\ forall x, In x new -> In x ths /\ x <= p /\ ~ In x notified.
Proof.
  induction ths as [|t rest IH]; intros notified events.
  - exists []. simpl. rewrite !app_nil_r.
    split; [reflexivity|]. split; [reflexivity|].
    split; [constructor | intros x []].
  - cbn [notify_loop].
    destruct ((t <=? p) && negb (mem t notified)) eqn:C.
    + apply andb_true_iff in C as [Hle Hnot].
      apply Z.leb_le in Hle. apply negb_true_iff, mem_false in Hnot.
      destruct (send_message t) as [e|].
      * exists [t]. simpl.
        split; [reflexivity|]. split; [reflexivity|]. split.
        -- constructor; [intros []|constructor].
        -- intros x [<-|[]]. tauto.
      * destruct (IH (notified ++ [t]) (events ++ [t]))
          as (new & E1 & E2 & Hnd & Hnew).
        exists (t :: new). rewrite E1, E2, <- !app_assoc. simpl.
        split; [reflexivity|]. split; [reflexivity|]. split.
        -- constructor; [|exact Hnd]. intros Hin.
           apply Hnew in Hin as (_ & _ & Hn). apply Hn.
           apply in_or_app. right. now left.
        -- intros x [<-|Hin]; [tauto|].
           apply Hnew in Hin as (H1 & H2 & H3).
           split; [now right|]. split; [exact H2|].
           intros Hin'. apply H3. apply in_or_app. now left.
    + destruct (IH notified events) as (new & E1 & E2 & Hnd & Hnew).
      exists new.
      split; [exact E1|]. split; [exact E2|]. split; [exact Hnd|].
      intros x Hin. apply Hnew in Hin as (H1 & H2 & H3).
      split; [now right | tauto].
Qed.

(** One call of [check_and_notify_price_threshold]. *)
Lemma check_and_notify_spec p st :
  let '(_, st', events) :=
    check_and_notify_price_threshold send_message p st in
  notified st' = notified st ++ events
  /\ NoDup events
  /\ (forall x, In x events ->
        In x (thresholds st') /\ x <= p /\ ~ In x (notified st))
  /\ incl (thresholds st) (thresholds st')
  /\ (increasingb (thresholds st) = true ->
      increasingb (thresholds st') = true).
Proof.
  unfold check_and_notify_price_threshold. cbv zeta.
  set (next := (p / 1000 + 1) * 1000).
  set (ths := if mem next (thresholds st) then thresholds st
              else sort (thresholds st ++ [next])).
  destruct (notify_loop_spec p ths (notified st) [])
    as (new & E1 & E2 & Hnd & Hnew).
  assert (Hincl : incl (thresholds st) ths).
  { unfold ths. destruct (mem next (thresholds st));
      [apply incl_refl | apply sort_append_incl]. }
  assert (Hinc : increasingb (thresholds st) = true -> increasingb ths = true).
  { unfold ths. destruct (mem next (thresholds st)) eqn:M; [tauto|].
    intros H. now apply sort_append_increasing. }
  destruct (notify_loop send_message p ths (notified st) [])
    as [[o notified'] events].
  simpl in E1, E2. subst notified' events.
  destruct o as [[]|e]; simpl;
    (split; [reflexivity|]); (split; [exact Hnd|]);
    (split; [exact Hnew|]); (split; [exact Hincl | exact Hinc]).
Qed.

(** Over any number of calls, at any prices: no threshold is notified
    twice, and none that was already notified. *)
Lemma run_spec : forall prices st,
  let '(st', events) := run send_message prices st in
  notified st' = notified st ++ events
  /\ NoDup events
  /\ (forall x, In x events -> ~ In x (notified st))
  /\ (ladder_inv st = true -> ladder_inv st' = true).
Proof.
  induction prices as [|p rest IH]; intros st.
  - simpl. rewrite app_nil_r.
    split; [reflexivity|]. split; [constructor|].
    split; [intros x [] | tauto].
  - cbn [run].
    pose proof (check_and_notify_spec p st) as H1.
    destruct (check_and_notify_price_threshold send_message p st)
      as [[o st1] ev1].
    destruct H1 as (E1 & Hnd1 & Hnew1 & Hincl1 & Hinc1).
    specialize (IH st1).
    destruct (run send_message rest st1) as [st2 later].
    destruct IH as (E2 & Hnd2 & Hnew2 & Hinv2).
    rewrite E2, E1, <- app_assoc.
    split; [reflexivity|]. split; [|split].
    + apply NoDup_app; [exact Hnd1 | exact Hnd2 |].
      intros x Hx1 Hx2. apply (Hnew2 x Hx2). rewrite E1.
      apply in_or_app. now right.
    + intros x Hx Hin. apply in_app_or in Hx as [Hx|Hx].
      * now apply (Hnew1 x Hx).
      * apply (Hnew2 x Hx). rewrite E1. apply in_or_app. now left.
    + intros Hinv. apply Hinv2.
      apply ladder_inv_spec in Hinv as [Hsub Hsorted].
      apply ladder_inv_spec. split.
      * rewrite E1. apply incl_app.
        -- eapply incl_tran; [exact Hsub | exact Hincl1].
        -- intros x Hx. now apply Hnew1.
      * apply increasingb_Sorted, Hinc1. now apply increasingb_Sorted.
Qed.

(** C2.  From the empty ladder ([thresholds = []], [notified = []]):
    [check_and_notify_price_threshold 30500] computes the next threshold
    [(30500 // 1000 + 1) * 1000 = 31000], inserts it and issues no event;
    the call at 31200 then inserts 32000 and issues exactly one event, for
    31000; a third call at 31500 issues none.  This holds whatever the
    notification sink does. *)
Theorem ladder_three_calls_from_empty (last_price : Z) :
  (30500 / 1000 + 1) * 1000 = 31000
  /\ let '(_, st1, events1) :=
       check_and_notify_price_threshold send_message 30500
         (mkladder last_price [] []) in
     let '(_, st2, events2) :=
       check_and_notify_price_threshold send_message 31200 st1 in
     let '(_, st3, events3) :=
       check_and_notify_price_threshold send_message 31500 st2 in
     thresholds st1 = [31000] /\ events1 = []
     /\ thresholds st2 = [31000; 32000] /\ events2 = [31000]
     /\ thresholds st3 = [31000; 32000] /\ events3 = []
     /\ notified st3 = [31000].
Proof.
  split; [reflexivity|].
  unfold check_and_notify_price_threshold. simpl.
  destruct (send_message 31000); simpl; repeat split.
Qed.

(** C3.  The ladder invariant ([notified] within [thresholds],
    [thresholds] strictly increasing) is preserved by every call, and every
    call keeps all of [notified]; and over any sequence of calls at
    non-decreasing prices no threshold gets more than one event. *)
Theorem ladder_invariant_and_idempotency :
  (forall p st,
     ladder_inv st = true ->
     let '(_, st', _) := check_and_notify_price_threshold send_message p st in
     ladder_inv st' = true /\ incl (notified st) (notified st'))
  /\ (forall prices st,
        ladder_inv st = true -> nondecreasingb prices = true ->
        NoDup (snd (run send_message prices st))).
Proof.
  split.
  - intros p st Hinv.
    pose proof (run_spec [p] st) as H. cbn [run] in H.
    destruct (check_and_notify_price_threshold send_message p st)
      as [[o st'] events].
    rewrite app_nil_r in H. destruct H as (E & _ & _ & Hinv').
    split; [now apply Hinv'|].
    rewrite E. now apply incl_appl, incl_refl.
  - intros prices st _ _.
    pose proof (run_spec prices st) as H.
    destruct (run send_message prices st) as [st' events]. simpl. tauto.
Qed.

End Sink.

Lemma ladder_invariant_and_idempotency_witness :
  (ladder_inv (mkladder 30500 [30000; 31000] [30000]) = true
   /\ incl [] [30000])
  /\ NoDup [30000; 31000; 32000].
Proof.
  destruct (ladder_invariant_and_idempotency delivered) as [H1 H2].
  split.
  - exact (H1 30500 (mkladder 29000 [30000] []) eq_refl).
  - exact (H2 [30500; 31000; 31000; 32500] (mkladder 29000 [30000] [])
             eq_refl eq_refl).
Defined.

End LadderFacts.

(** ** The scheduler *)

Module SchedulerFacts.
Import PyDate PyDateFacts Scheduler.

Lemma toordinal_inj a b :
  valid_date a = true -> valid_date b = true ->
  toordinal a = toordinal b -> a = b.
Proof.
  intros Ha Hb E.
  destruct (date_ltb a b) eqn:Lab.
  { pose proof (toordinal_lt a b Ha Hb Lab). lia. }
  destruct (date_ltb b a) eqn:Lba.
  { pose proof (toordinal_lt b a Hb Ha Lba). lia. }
  unfold date_ltb in *.
  repeat (rewrite orb_false_iff in * || rewrite andb_false_iff in * ).
  rewrite !Z.ltb_ge, !Z.eqb_neq in *.
  destruct a as [y1 m1 d1], b as [y2 m2 d2]. cbn [year month day] in *.
  f_equal; lia.
Qed.

Lemma fromordinal_toordinal d :
  valid_date d = true -> fromordinal (toordinal d) = d.
Proof.
  intros Hv. apply toordinal_inj.
  - apply fromordinal_valid. now apply toordinal_range.
  - exact Hv.
  - apply toordinal_fromordinal.
Qed.

(** A day number is a given date exactly when it is that date's number. *)
Lemma date_eqb_fromordinal x d :
  valid_date d = true ->
  date_eqb (fromordinal x) d = (x =? toordinal d).
Proof.
  intros Hv. destruct (Z.eqb_spec x (toordinal d)) as [->|Hne].
  - rewrite (fromordinal_toordinal d Hv). unfold date_eqb.
    now rewrite !Z.eqb_refl.
  - destruct (date_eqb (fromordinal x) d) eqn:E; [|reflexivity].
    exfalso. apply Hne. unfold date_eqb in E.
    apply andb_true_iff in E as [E E3]. apply andb_true_iff in E as [E1 E2].
    apply Z.eqb_eq in E1, E2, E3.
    rewrite <- (toordinal_fromordinal x). unfold toordinal.
    now rewrite E1, E2, E3.
Qed.

(** *** Next occurrence *)

(** C8, as amended.  For a valid [today] and a birthday whose month and
    day make a date in today's year and, when that date is before today,
    also in the year after: the next occurrence is that date of today's
    year if it is not before today and the date of the next year otherwise;
    the days until it are not negative, and 0 exactly when it is today.
    Seen from 2024-03-10 the next 1 January is 2025-01-01 and the next
    25 December is 2024-12-25. *)
Theorem next_occurrence_spec :
  (forall birthday_date today,
     valid_date today = true ->
     let m := month birthday_date in
     let d := day birthday_date in
     let candidate := mkdate (year today) m d in
     valid_ymd (year today) m d = true ->
     (date_ltb candidate today = true ->
      valid_ymd (year today + 1) m d = true) ->
     let next :=
       if date_ltb candidate today then mkdate (year today + 1) m d
       else candidate in
     next_occurrence birthday_date today
     = Return (next, days_between next today)
     /\ 0 <= days_between next today
     /\ (days_between next today = 0 <-> next = today))
  /\ (forall y,
        next_occurrence (mkdate y 1 1) (mkdate 2024 3 10)
        = Return (mkdate 2025 1 1, 297))
  /\ (forall y,
        next_occurrence (mkdate y 12 25) (mkdate 2024 3 10)
        = Return (mkdate 2024 12 25, 290)).
Proof.
  split; [|split; intros y; reflexivity].
  intros b today Ht m d candidate Hc Hnext next.
  unfold next_occurrence, replace_year. fold m d.
  rewrite (date_new_valid _ _ _ Hc). fold candidate.
  assert (Hvc : valid_date candidate = true) by exact Hc.
  subst next. destruct (date_ltb candidate today) eqn:L.
  - unfold candidate at 1 2. cbn [year month day].
    rewrite (date_new_valid _ _ _ (Hnext eq_refl)).
    set (next := mkdate (year today + 1) m d).
    assert (Hvn : valid_date next = true) by exact (Hnext eq_refl).
    assert (Hlt : toordinal today < toordinal next).
    { apply toordinal_lt; [exact Ht | exact Hvn |].
      unfold date_ltb, next. cbn [year month day].
      replace (year today <? year today + 1) with true; [reflexivity|].
      symmetry. apply Z.ltb_lt. lia. }
    unfold days_between. split; [reflexivity|]. split; [lia|].
    split; [lia|]. intros E. rewrite E in Hlt. lia.
  - pose proof (toordinal_le candidate today Hvc Ht L) as Hle.
    unfold days_between. split; [reflexivity|]. split; [lia|].
    split.
    + intros E. apply toordinal_inj; [exact Hvc | exact Ht | lia].
    + intros E. rewrite E. lia.
Qed.

Lemma next_occurrence_spec_witness :
  next_occurrence (mkdate 1990 3 10) (mkdate 2024 3 10)
  = Return (mkdate 2024 3 10, 0)
  /\ next_occurrence (mkdate 1990 3 9) (mkdate 2024 3 10)
     = Return (mkdate 2025 3 9, 364).
Proof.
  split.
  - exact (proj1 (proj1 next_occurrence_spec
                    (mkdate 1990 3 10) (mkdate 2024 3 10)
                    eq_refl eq_refl (fun _ => eq_refl))).
  - exact (proj1 (proj1 next_occurrence_spec
                    (mkdate 1990 3 9) (mkdate 2024 3 10)
                    eq_refl eq_refl (fun _ => eq_refl))).
Defined.

(** C8, as stated, fails for a 29 February birthday seen from 10 March
    2024: 2024-02-29 is a date and has passed, 2025-02-29 is none, and
    [replace] raises [ValueError] instead of returning a date. *)
Lemma next_occurrence_feb29_counterexample :
  valid_date (mkdate 2024 3 10) = true
  /\ valid_ymd 2024 2 29 = true
  /\ date_ltb (mkdate 2024 2 29) (mkdate 2024 3 10) = true
  /\ next_occurrence (mkdate 2000 2 29) (mkdate 2024 3 10)
     = Raise (ValueError "day is out of range for month")
  /\ forall r,
       next_occurrence (mkdate 2000 2 29) (mkdate 2024 3 10) <> Return r.
Proof.
  repeat split. intros r H. discriminate H.
Qed.

(** *** Business days *)

Lemma weekday_fromordinal o : weekday (fromordinal o) = (o + 6) mod 7.
Proof. unfold weekday. now rewrite toordinal_fromordinal. Qed.

Lemma add_days_fromordinal o n :
  add_days (fromordinal o) n =
  if (0 <? o + n) && (o + n <=? MAXORDINAL) then Return (fromordinal (o + n))
  else Raise (OverflowError "date value out of range").
Proof. unfold add_days. now rewrite toordinal_fromordinal. Qed.

Lemma add_days_in_range o n :
  1 <= o + n <= MAXORDINAL ->
  add_days (fromordinal o) n = Return (fromordinal (o + n)).
Proof.
  intros H. rewrite add_days_fromordinal.
  replace (0 <? o + n) with true by (symmetry; apply Z.ltb_lt; lia).
  now replace (o + n <=? MAXORDINAL) with true
    by (symmetry; apply Z.leb_le; lia).
Qed.

Lemma add_days_result d n r :
  add_days d n = Return r ->
  r = fromordinal (toordinal d + n) /\ 1 <= toordinal d + n <= MAXORDINAL.
Proof.
  unfold add_days.
  destruct ((0 <? toordinal d + n) && (toordinal d + n <=? MAXORDINAL)) eqn:E;
    [|discriminate].
  apply andb_true_iff in E as [E1 E2].
  apply Z.ltb_lt in E1. apply Z.leb_le in E2.
  intros [= <-]. split; [reflexivity | lia].
Qed.

Section Calendar.

Variable holidays : date -> bool.

(** *** What the loops return *)

Lemma next_business_loop_business fuel : forall next_day d,
  next_business_loop fuel holidays next_day = Some (Return d) ->
  non_business holidays d = false
  /\ toordinal next_day <= toordinal d.
Proof.
  induction fuel as [|fuel IH]; intros next_day d H; [discriminate|].
  cbn [next_business_loop] in H.
  destruct (non_business holidays next_day) eqn:B.
  - destruct (add_days next_day 1) as [nd|e] eqn:A; [|discriminate].
    apply add_days_result in A as [-> Hr].
    apply IH in H as [H1 H2]. rewrite toordinal_fromordinal in H2.
    split; [exact H1 | lia].
  - injection H as <-. split; [exact B | lia].
Qed.

Lemma get_next_business_day_business fuel d0 d :
  get_next_business_day fuel d0 holidays = Some (Return d) ->
  non_business holidays d = false /\ toordinal d0 < toordinal d.
Proof.
  unfold get_next_business_day.
  destruct (add_days d0 1) as [nd|e] eqn:A; [|discriminate].
  apply add_days_result in A as [-> Hr]. intros H.
  apply next_business_loop_business in H as [H1 H2].
  rewrite toordinal_fromordinal in H2. split; [exact H1 | lia].
Qed.

Lemma send_date_loop_business fuel : forall send_date d,
  send_date_loop fuel holidays send_date = Some (Return d) ->
  non_business holidays d = false.
Proof.
  induction fuel as [|fuel IH]; intros send_date d H; [discriminate|].
  cbn [send_date_loop] in H.
  destruct (non_business holidays send_date) eqn:B.
  - destruct (add_days send_date (-1)) as [sd|e]; [|discriminate].
    now apply IH in H.
  - now injection H as <-.
Qed.

Lemma delivery_gap_loop_sound fuel : forall send_date delivery_date s d,
  delivery_gap_loop fuel holidays send_date delivery_date
  = Some (Return (s, d)) ->
  non_business holidays delivery_date = false ->
  toordinal send_date < toordinal delivery_date ->
  days_between d s <= 4 /\ 0 < days_between d s
  /\ non_business holidays d = false.
Proof.
  induction fuel as [|fuel IH]; intros send_date delivery_date s d H B L;
    [discriminate|].
  cbn [delivery_gap_loop] in H.
  destruct (4 <? days_between delivery_date send_date) eqn:G.
  - destruct (add_days send_date (-1)) as [sd|e]; [|discriminate].
    unfold fbind in H.
    destruct (get_next_business_day fuel sd holidays) as [[dd|e]|] eqn:N;
      try discriminate.
    apply get_next_business_day_business in N as [N1 N2].
    exact (IH sd dd s d H N1 N2).
  - injection H as <- <-. apply Z.ltb_ge in G.
    unfold days_between in *. repeat split; [lia | lia | exact B].
Qed.

(** The delivery date the retreat loop hands back is the next business day
    after the send date it hands back. *)
Lemma delivery_gap_loop_delivery fuel : forall send_date delivery_date s d,
  delivery_gap_loop fuel holidays send_date delivery_date
  = Some (Return (s, d)) ->
  (exists f, get_next_business_day f send_date holidays
             = Some (Return delivery_date)) ->
  exists f, get_next_business_day f s holidays = Some (Return d).
Proof.
  induction fuel as [|fuel IH]; intros send_date delivery_date s d H Hinit;
    [discriminate|].
  cbn [delivery_gap_loop] in H.
  destruct (4 <? days_between delivery_date send_date).
  - destruct (add_days send_date (-1)) as [sd|e]; [|discriminate].
    unfold fbind in H.
    destruct (get_next_business_day fuel sd holidays) as [[dd|e]|] eqn:N;
      try discriminate.
    apply (IH sd dd s d H). eauto.
  - injection H as <- <-. exact Hinit.
Qed.

(** Started from day number [o], the loops stay on day numbers. *)
Lemma send_date_loop_result fuel : forall o d,
  1 <= o <= MAXORDINAL ->
  send_date_loop fuel holidays (fromordinal o) = Some (Return d) ->
  exists o', 1 <= o' <= o /\ d = fromordinal o'
    /\ non_business holidays (fromordinal o') = false.
Proof.
  induction fuel as [|fuel IH]; intros o d Ho H; [discriminate|].
  cbn [send_date_loop] in H.
  destruct (non_business holidays (fromordinal o)) eqn:B.
  - rewrite add_days_fromordinal in H.
    destruct ((0 <? o + -1) && (o + -1 <=? MAXORDINAL)) eqn:E;
      [|discriminate].
    apply andb_true_iff in E as [E1 E2]. apply Z.ltb_lt in E1.
    destruct (IH (o + -1) d ltac:(lia) H) as (o' & Ho' & -> & B').
    exists o'. repeat split; try lia; assumption.
  - injection H as <-. exists o. repeat split; try lia; assumption.
Qed.

Lemma next_business_loop_result fuel : forall o d,
  1 <= o <= MAXORDINAL ->
  next_business_loop fuel holidays (fromordinal o) = Some (Return d) ->
  exists o', o <= o' <= MAXORDINAL /\ d = fromordinal o'
    /\ non_business holidays (fromordinal o') = false.
Proof.
  induction fuel as [|fuel IH]; intros o d Ho H; [discriminate|].
  cbn [next_business_loop] in H.
  destruct (non_business holidays (fromordinal o)) eqn:B.
  - rewrite add_days_fromordinal in H.
    destruct ((0 <? o + 1) && (o + 1 <=? MAXORDINAL)) eqn:E;
      [|discriminate].
    apply andb_true_iff in E as [E1 E2]. apply Z.leb_le in E2.
    destruct (IH (o + 1) d ltac:(lia) H) as (o' & Ho' & -> & B').
    exists o'. repeat split; try lia; assumption.
  - injection H as <-. exists o. repeat split; try lia; assumption.
Qed.

(** The days [get_next_business_day] steps over are closed. *)
Lemma next_business_loop_skips fuel : forall o o',
  1 <= o <= MAXORDINAL ->
  next_business_loop fuel holidays (fromordinal o)
  = Some (Return (fromordinal o')) ->
  forall j, o <= j < o' -> non_business holidays (fromordinal j) = true.
Proof.
  induction fuel as [|fuel IH]; intros o o' Ho H j Hj; [discriminate|].
  cbn [next_business_loop] in H.
  destruct (non_business holidays (fromordinal o)) eqn:B.
  - rewrite add_days_fromordinal in H.
    destruct ((0 <? o + 1) && (o + 1 <=? MAXORDINAL)) eqn:E;
      [|discriminate].
    apply andb_true_iff in E as [E1 E2]. apply Z.leb_le in E2.
    destruct (Z.eq_dec j o) as [->|Hne]; [exact B|].
    apply (IH (o + 1) o' ltac:(lia) H). lia.
  - injection H as H. apply (f_equal toordinal) in H.
    rewrite !toordinal_fromordinal in H. lia.
Qed.

(** *** More fuel changes nothing *)

Lemma next_business_loop_mono fuel : forall d r k,
  next_business_loop fuel holidays d = Some r ->
  next_business_loop (fuel + k) holidays d = Some r.
Proof.
  induction fuel as [|fuel IH]; intros d r k H; [discriminate|].
  cbn [Nat.add next_business_loop] in *.
  destruct (non_business holidays d); [|exact H].
  destruct (add_days d 1); [now apply IH | exact H].
Qed.

Lemma get_next_business_day_mono fuel d r k :
  get_next_business_day fuel d holidays = Some r ->
  get_next_business_day (fuel + k) d holidays = Some r.
Proof.
  unfold get_next_business_day.
  destruct (add_days d 1); [apply next_business_loop_mono | tauto].
Qed.

Lemma send_date_loop_mono fuel : forall d r k,
  send_date_loop fuel holidays d = Some r ->
  send_date_loop (fuel + k) holidays d = Some r.
Proof.
  induction fuel as [|fuel IH]; intros d r k H; [discriminate|].
  cbn [Nat.add send_date_loop] in *.
  destruct (non_business holidays d); [|exact H].
  destruct (add_days d (-1)); [now apply IH | exact H].
Qed.

Lemma delivery_gap_loop_mono fuel : forall s d r k,
  delivery_gap_loop fuel holidays s d = Some r ->
  delivery_gap_loop (fuel + k) holidays s d = Some r.
Proof.
  induction fuel as [|fuel IH]; intros s d r k H; [discriminate|].
  cbn [Nat.add delivery_gap_loop] in *.
  destruct (4 <? days_between d s); [|exact H].
  destruct (add_days s (-1)) as [sd|e]; [|exact H].
  unfold fbind in *.
  destruct (get_next_business_day fuel sd holidays) as [[dd|e]|] eqn:N;
    [| |discriminate];
    rewrite (get_next_business_day_mono _ _ _ k N); [now apply IH | exact H].
Qed.

(** *** Enough fuel *)

(** Walking back from day [o], a business day at most [j] days earlier is
    found with more than [j] units of fuel. *)
Lemma send_date_loop_finds : forall (j fuel : nat) o,
  (j < fuel)%nat -> 1 <= o - Z.of_nat j -> o <= MAXORDINAL ->
  non_business holidays (fromordinal (o - Z.of_nat j)) = false ->
  exists o', o - Z.of_nat j <= o' <= o
    /\ non_business holidays (fromordinal o') = false
    /\ send_date_loop fuel holidays (fromordinal o)
       = Some (Return (fromordinal o')).
Proof.
  induction j as [|j IH]; intros fuel o Hf Hlo Hhi B.
  - destruct fuel as [|fuel]; [lia|]. exists o.
    replace (o - Z.of_nat 0) with o in * by lia.
    cbn [send_date_loop]. rewrite B. repeat split; lia.
  - destruct fuel as [|fuel]; [lia|]. cbn [send_date_loop].
    destruct (non_business holidays (fromordinal o)) eqn:Bo.
    + rewrite add_days_in_range by lia.
      destruct (IH fuel (o + -1)) as (o' & Hr & Bo' & E); try lia.
      * now replace (o + -1 - Z.of_nat j) with (o - Z.of_nat (S j)) by lia.
      * exists o'. repeat split; try lia; assumption.
    + exists o. repeat split; try lia; assumption.
Qed.

(** Close to the first day of the calendar the walk ends anyway. *)
Lemma send_date_loop_ends : forall (fuel : nat) o,
  1 <= o <= MAXORDINAL -> o < Z.of_nat fuel ->
  exists r, send_date_loop fuel holidays (fromordinal o) = Some r.
Proof.
  induction fuel as [|fuel IH]; intros o Ho Hf; [lia|].
  cbn [send_date_loop].
  destruct (non_business holidays (fromordinal o)); [|eauto].
  rewrite add_days_fromordinal.
  destruct ((0 <? o + -1) && (o + -1 <=? MAXORDINAL)) eqn:E; [|eauto].
  apply andb_true_iff in E as [E1 E2]. apply Z.ltb_lt in E1.
  apply IH; lia.
Qed.

Lemma next_business_loop_finds : forall (j fuel : nat) o,
  (j < fuel)%nat -> 1 <= o -> o + Z.of_nat j <= MAXORDINAL ->
  non_business holidays (fromordinal (o + Z.of_nat j)) = false ->
  exists o', o <= o' <= o + Z.of_nat j
    /\ non_business holidays (fromordinal o') = false
    /\ next_business_loop fuel holidays (fromordinal o)
       = Some (Return (fromordinal o')).
Proof.
  induction j as [|j IH]; intros fuel o Hf Hlo Hhi B.
  - destruct fuel as [|fuel]; [lia|]. exists o.
    replace (o + Z.of_nat 0) with o in * by lia.
    cbn [next_business_loop]. rewrite B. repeat split; lia.
  - destruct fuel as [|fuel]; [lia|]. cbn [next_business_loop].
    destruct (non_business holidays (fromordinal o)) eqn:Bo.
    + rewrite add_days_in_range by lia.
      destruct (IH fuel (o + 1)) as (o' & Hr & Bo' & E); try lia.
      * now replace (o + 1 + Z.of_nat j) with (o + Z.of_nat (S j)) by lia.
      * exists o'. repeat split; try lia; assumption.
    + exists o. repeat split; try lia; assumption.
Qed.

Lemma next_business_loop_ends : forall (fuel : nat) o,
  1 <= o <= MAXORDINAL -> MAXORDINAL - o < Z.of_nat fuel ->
  exists r, next_business_loop fuel holidays (fromordinal o) = Some r.
Proof.
  induction fuel as [|fuel IH]; intros o Ho Hf; [lia|].
  cbn [next_business_loop].
  destruct (non_business holidays (fromordinal o)); [|eauto].
  rewrite add_days_fromordinal.
  destruct ((0 <? o + 1) && (o + 1 <=? MAXORDINAL)) eqn:E; [|eauto].
  apply andb_true_iff in E as [E1 E2]. apply Z.leb_le in E2.
  apply IH; lia.
Qed.

Section Dense.

Hypothesis dense : no_five_day_closure holidays.

Lemma send_date_loop_terminates fuel o :
  (5 <= fuel)%nat -> 1 <= o <= MAXORDINAL ->
  exists r, send_date_loop fuel holidays (fromordinal o) = Some r
    /\ (5 <= o -> exists o', o - 4 <= o' <= o
          /\ non_business holidays (fromordinal o') = false
          /\ r = Return (fromordinal o')).
Proof.
  intros Hf Ho. destruct (Z_lt_le_dec o 5) as [Hs|Hb].
  - destruct (send_date_loop_ends fuel o Ho ltac:(lia)) as [r Hr].
    exists r. split; [exact Hr | lia].
  - destruct (dense (o - 4) ltac:(lia) ltac:(lia)) as (k & Hk & Bk).
    destruct (send_date_loop_finds (Z.to_nat (4 - k)) fuel o)
      as (o' & Hr & Bo' & E); try lia.
    + now replace (o - Z.of_nat (Z.to_nat (4 - k))) with (o - 4 + k) by lia.
    + exists (Return (fromordinal o')). split; [exact E|].
      intros _. exists o'. repeat split; try lia; assumption.
Qed.

Lemma next_business_loop_terminates fuel o :
  (5 <= fuel)%nat -> 1 <= o <= MAXORDINAL ->
  exists r, next_business_loop fuel holidays (fromordinal o) = Some r
    /\ (o + 4 <= MAXORDINAL -> exists o', o <= o' <= o + 4
          /\ non_business holidays (fromordinal o') = false
          /\ r = Return (fromordinal o')).
Proof.
  intros Hf Ho. destruct (Z_lt_le_dec MAXORDINAL (o + 4)) as [Hs|Hb].
  - destruct (next_business_loop_ends fuel o Ho ltac:(lia)) as [r Hr].
    exists r. split; [exact Hr | lia].
  - destruct (dense o ltac:(lia) ltac:(lia)) as (k & Hk & Bk).
    destruct (next_business_loop_finds (Z.to_nat k) fuel o)
      as (o' & Hr & Bo' & E); try lia.
    + now replace (o + Z.of_nat (Z.to_nat k)) with (o + k) by lia.
    + exists (Return (fromordinal o')). split; [exact E|].
      intros _. exists o'. repeat split; try lia; assumption.
Qed.

End Dense.

(** The retreat loop, entered at a business day [os] with its delivery day
    [od]: when the gap is too wide it steps back once, finds [os] itself as
    the next business day, and stops. *)
Lemma delivery_gap_loop_terminates fuel os od :
  (2 <= fuel)%nat -> 1 <= os < od -> od <= MAXORDINAL ->
  non_business holidays (fromordinal os) = false ->
  exists r,
    delivery_gap_loop fuel holidays (fromordinal os) (fromordinal od) = Some r
    /\ (2 <= os -> exists s d, r = Return (s, d)).
Proof.
  intros Hf Ho Hd B.
  destruct fuel as [|[|fuel]]; try lia.
  cbn [delivery_gap_loop]. unfold days_between.
  rewrite !toordinal_fromordinal.
  destruct (4 <? od - os); [|eauto].
  rewrite add_days_fromordinal.
  destruct ((0 <? os + -1) && (os + -1 <=? MAXORDINAL)) eqn:E;
    [|exists (Raise (OverflowError "date value out of range"));
      split; [reflexivity|];
      apply andb_false_iff in E as [E|E];
      [apply Z.ltb_ge in E | apply Z.leb_gt in E]; lia].
  unfold get_next_business_day.
  rewrite add_days_in_range by lia.
  replace (os + -1 + 1) with os by lia.
  cbn [next_business_loop]. rewrite B. unfold fbind.
  cbn [delivery_gap_loop]. unfold days_between.
  rewrite !toordinal_fromordinal.
  replace (4 <? os - (os + -1)) with false
    by (symmetry; apply Z.ltb_ge; lia).
  eauto.
Qed.

End Calendar.


Lemma delivery_schedule_total d :
  exists n, delivery_schedule (weekday d) = Return n /\ 1 <= n <= 3.
Proof.
  unfold weekday.
  pose proof (Z.mod_pos_bound (toordinal d + 6) 7 ltac:(lia)) as H.
  set (x := (toordinal d + 6) mod 7) in *.
  assert (Hc : x = 0 \/ x = 1 \/ x = 2 \/ x = 3 \/ x = 4 \/ x = 5 \/ x = 6)
    by lia.
  repeat (destruct Hc as [-> | Hc]; [simpl; eexists; split; [reflexivity|lia]|]).
  subst x. rewrite Hc. simpl. eexists; split; [reflexivity|lia].
Qed.

Lemma weekends_never_close_five_days : no_five_day_closure no_holidays.
Proof.
  intros o Ho Hmax. unfold non_business, no_holidays.
  destruct (Z_lt_le_dec ((o + 6) mod 7) 5) as [Hw|Hw].
  - exists 0. split; [lia|]. rewrite weekday_fromordinal, orb_false_r.
    apply Z.leb_gt. now replace (o + 0 + 6) with (o + 6) by lia.
  - exists 2. split; [lia|]. rewrite weekday_fromordinal, orb_false_r.
    apply Z.leb_gt. revert Hw. Z.to_euclidean_division_equations. lia.
Qed.

Section Holidays.

Variable get_dutch_holidays : Z -> date -> bool.

Lemma postcard_dates_mono fuel birthday_date today r k :
  postcard_dates get_dutch_holidays fuel birthday_date today = Some r ->
  postcard_dates get_dutch_holidays (fuel + k) birthday_date today = Some r.
Proof.
  unfold postcard_dates, fbind.
  destruct (delivery_schedule (weekday birthday_date)) as [n|e]; [|tauto].
  destruct (add_days birthday_date (- n)) as [s0|e]; [|tauto].
  destruct (send_date_loop fuel _ s0) as [[s|e]|] eqn:S; [| |discriminate];
    rewrite (send_date_loop_mono _ _ _ _ k S); [|tauto].
  destruct (get_next_business_day fuel s _) as [[d|e]|] eqn:N;
    [| |discriminate];
    rewrite (get_next_business_day_mono _ _ _ _ k N); [|tauto].
  apply delivery_gap_loop_mono.
Qed.

(** What [get_postcard_send_date] does guarantee: the delivery date its
    last loop test used is a business day, one to four days after the send
    date. *)
Lemma postcard_dates_sound fuel birthday_date today s d :
  postcard_dates get_dutch_holidays fuel birthday_date today
  = Some (Return (s, d)) ->
  0 < days_between d s <= 4
  /\ non_business (get_dutch_holidays (year today)) d = false.
Proof.
  unfold postcard_dates, fbind.
  destruct (delivery_schedule (weekday birthday_date)) as [n|e];
    [|discriminate].
  destruct (add_days birthday_date (- n)) as [s0|e]; [|discriminate].
  destruct (send_date_loop fuel _ s0) as [[s1|e]|]; try discriminate.
  destruct (get_next_business_day fuel s1 _) as [[d1|e]|] eqn:N;
    try discriminate.
  apply get_next_business_day_business in N as [N1 N2].
  intros H.
  destruct (delivery_gap_loop_sound _ _ _ _ _ _ H N1 N2) as (H1 & H2 & H3).
  repeat split; assumption.
Qed.

(** When the send date is a business day after all: the retreat loop steps
    back at most once, from a business day followed by four closed days, so
    it is enough that the day before such a day is never closed. *)
Lemma postcard_send_date_business fuel birthday_date today s d :
  let h := get_dutch_holidays (year today) in
  (forall o, 2 <= o -> o + 4 <= MAXORDINAL ->
     non_business h (fromordinal o) = false ->
     (forall k, 1 <= k <= 4 -> non_business h (fromordinal (o + k)) = true) ->
     non_business h (fromordinal (o - 1)) = false) ->
  valid_date birthday_date = true ->
  postcard_dates get_dutch_holidays fuel birthday_date today
  = Some (Return (s, d)) ->
  non_business h s = false.
Proof.
  intros h Hiso Hv. unfold postcard_dates. fold h.
  pose proof (toordinal_range birthday_date Hv) as Hob.
  destruct (delivery_schedule_total birthday_date) as (n & -> & Hn).
  cbn [fbind].
  destruct (add_days birthday_date (- n)) as [s0|e] eqn:A0; [|discriminate].
  apply add_days_result in A0 as [-> Hr0]. cbn [fbind].
  destruct (send_date_loop fuel h _) as [[s1|e]|] eqn:S1; try discriminate.
  destruct (send_date_loop_result h fuel _ _ Hr0 S1) as (os & Hos & -> & Bs).
  cbn [fbind]. unfold get_next_business_day at 1.
  rewrite add_days_in_range by lia.
  destruct (next_business_loop fuel h _) as [[d1|e]|] eqn:N1;
    try discriminate.
  destruct (next_business_loop_result h fuel (os + 1) d1 ltac:(lia) N1)
    as (od & Hod & -> & Bd).
  pose proof (next_business_loop_skips h fuel (os + 1) od ltac:(lia) N1)
    as Hskip.
  cbn [fbind]. destruct fuel as [|fuel]; [discriminate|].
  cbn [delivery_gap_loop]. unfold days_between.
  rewrite !toordinal_fromordinal.
  destruct (4 <? od - os) eqn:G.
  - apply Z.ltb_lt in G. rewrite add_days_fromordinal.
    destruct ((0 <? os + -1) && (os + -1 <=? MAXORDINAL)) eqn:E;
      [|discriminate].
    apply andb_true_iff in E as [E1 E2]. apply Z.ltb_lt in E1.
    unfold get_next_business_day. rewrite add_days_in_range by lia.
    replace (os + -1 + 1) with os by lia.
    destruct fuel as [|fuel]; [discriminate|].
    cbn [next_business_loop]. rewrite Bs. cbn [fbind delivery_gap_loop].
    unfold days_between. rewrite !toordinal_fromordinal.
    replace (4 <? os - (os + -1)) with false
      by (symmetry; apply Z.ltb_ge; lia).
    intros [= <- <-].
    replace (os + -1) with (os - 1) by lia.
    apply Hiso; [lia | lia | exact Bs |].
    intros k Hk. apply Hskip. lia.
  - intros [= <- <-]. exact Bs.
Qed.


(** C9.  Termination.  When the calendar never closes five days in a row,
    [get_postcard_send_date] ends for every birthday, its retreat loop
    included: five units of fuel per loop are enough.  It ends with a send
    date unless the walk leaves the range of [datetime.date], which needs a
    birthday within eight days of 0001-01-01 or four of 9999-12-31 (the
    code then ends with [OverflowError]). *)
Theorem postcard_retreat_terminates (birthday_date today : date) (fuel : nat) :
  valid_date birthday_date = true ->
  no_five_day_closure (get_dutch_holidays (year today)) ->
  (5 <= fuel)%nat ->
  (exists r,
     get_postcard_send_date get_dutch_holidays fuel birthday_date today
     = Some r)
  /\ (9 <= toordinal birthday_date <= MAXORDINAL - 4 ->
      exists send_date,
        get_postcard_send_date get_dutch_holidays fuel birthday_date today
        = Some (Return send_date)).
Proof.
  intros Hv dense Hf.
  pose proof (toordinal_range birthday_date Hv) as Hob.
  set (ob := toordinal birthday_date) in *.
  set (h := get_dutch_holidays (year today)).
  assert (Hmain :
    exists r, postcard_dates get_dutch_holidays fuel birthday_date today
              = Some r
      /\ (9 <= ob <= MAXORDINAL - 4 -> exists s d, r = Return (s, d))).
  { unfold postcard_dates. fold h.
    destruct (delivery_schedule_total birthday_date) as (n & -> & Hn).
    cbn [fbind]. unfold add_days at 1. fold ob.
    destruct ((0 <? ob + - n) && (ob + - n <=? MAXORDINAL)) eqn:E;
      [|exists (Raise (OverflowError "date value out of range"));
        split; [reflexivity|];
        apply andb_false_iff in E as [E|E];
        [apply Z.ltb_ge in E | apply Z.leb_gt in E]; lia].
    apply andb_true_iff in E as [E1 E2].
    apply Z.ltb_lt in E1. apply Z.leb_le in E2.
    cbn [fbind].
    destruct (send_date_loop_terminates h dense fuel (ob + - n) Hf
                ltac:(lia)) as (r1 & S & Sin).
    rewrite S. destruct r1 as [s|e]; cbn [fbind];
      [|exists (Raise e); split; [reflexivity|];
        intros Hr; destruct (Sin ltac:(lia)) as (? & _ & _ & [=])].
    destruct (send_date_loop_result h fuel (ob + - n) s ltac:(lia) S)
      as (os & Hos & -> & Bs).
    unfold get_next_business_day. rewrite add_days_in_range by lia.
    destruct (next_business_loop_terminates h dense fuel (os + 1) Hf
                ltac:(lia)) as (r2 & N & Nin).
    rewrite N. destruct r2 as [d|e]; cbn [fbind];
      [|exists (Raise e); split; [reflexivity|];
        intros Hr; destruct (Sin ltac:(lia)) as (? & _ & _ & [=]);
        destruct (Nin ltac:(lia)) as (? & _ & _ & [=])].
    destruct (next_business_loop_result h fuel (os + 1) d ltac:(lia) N)
      as (od & Hod & -> & Bd).
    destruct (delivery_gap_loop_terminates h fuel os od ltac:(lia)
                ltac:(lia) ltac:(lia) Bs) as (r3 & G & Gin).
    exists r3. split; [exact G|]. intros Hr. apply Gin.
    destruct (Sin ltac:(lia)) as (os' & Hos' & _ & Es).
    injection Es as Es. apply (f_equal toordinal) in Es.
    rewrite !toordinal_fromordinal in Es. lia. }
  destruct Hmain as (r & Hr & Hin).
  unfold get_postcard_send_date. rewrite Hr. split.
  - destruct r as [[s d]|e]; cbn [fbind]; eauto.
  - intros Hrange. destruct (Hin Hrange) as (s & d & ->). cbn [fbind]. eauto.
Qed.

End Holidays.

Lemma postcard_retreat_terminates_witness :
  (exists r,
     get_postcard_send_date (fun _ => no_holidays) 5
       (mkdate 2024 12 25) (mkdate 2024 3 10) = Some r)
  /\ exists send_date,
       get_postcard_send_date (fun _ => no_holidays) 5
         (mkdate 2024 12 25) (mkdate 2024 3 10) = Some (Return send_date).
Proof.
  destruct (postcard_retreat_terminates (fun _ => no_holidays)
              (mkdate 2024 12 25) (mkdate 2024 3 10) 5
              eq_refl weekends_never_close_five_days (le_n 5)) as [H1 H2].
  split; [exact H1|]. apply H2. vm_compute. split; discriminate.
Defined.

(** At Christmas 2023 only Friday 22 December is followed by four closed
    days, and the Thursday before it is a business day. *)
Lemma christmas_retreat_lands_on_business :
  no_closed_day_before_long_closure (christmas 2023).
Proof.
  assert (Hnb : forall x,
            non_business (christmas 2023) (fromordinal x) = true
            <-> 5 <= (x + 6) mod 7 \/ x = 738879 \/ x = 738880).
  { intros x. unfold non_business, christmas. cbn [existsb].
    rewrite weekday_fromordinal, !date_eqb_fromordinal by reflexivity.
    change (toordinal (mkdate 2023 12 25)) with 738879.
    change (toordinal (mkdate 2023 12 26)) with 738880.
    rewrite orb_false_r, !orb_true_iff, Z.leb_le, !Z.eqb_eq. tauto. }
  intros o Ho Hmax Bo Hclosed.
  pose proof (proj1 (Hnb (o + 1)) (Hclosed 1 ltac:(lia))) as H1.
  pose proof (proj1 (Hnb (o + 2)) (Hclosed 2 ltac:(lia))) as H2.
  pose proof (proj1 (Hnb (o + 3)) (Hclosed 3 ltac:(lia))) as H3.
  pose proof (proj1 (Hnb (o + 4)) (Hclosed 4 ltac:(lia))) as H4.
  destruct (non_business (christmas 2023) (fromordinal (o - 1))) eqn:B;
    [|reflexivity].
  apply Hnb in B. exfalso.
  assert (B0 : ~ (5 <= (o + 6) mod 7 \/ o = 738879 \/ o = 738880)).
  { intros H. apply Hnb in H. congruence. }
  clear Hnb Hclosed Bo. revert H1 H2 H3 H4 B B0.
  Z.to_euclidean_division_equations. lia.
Qed.



End SchedulerFacts.

(** ** The retry wrapper: bounds *)

Module BackoffBounds.
Import Backoff BackoffFacts.

Lemma delays_length d r k : List.length (delays d r k) = k.
Proof. unfold delays. now rewrite List.length_map, List.length_seq. Qed.

Lemma delays_sum d r k :
  0 <= r ->
  fold_right Z.add 0 (delays d r k) = d * 2 ^ r * (2 ^ Z.of_nat k - 1).
Proof.
  revert r. induction k as [|k IH]; intros r Hr.
  - simpl. lia.
  - rewrite delays_S. cbn [fold_right]. rewrite IH by lia.
    replace (r + 1) with (Z.succ r) by lia.
    rewrite Nat2Z.inj_succ, !Z.pow_succ_r by lia. ring.
Qed.

(** Whatever the callable does, the loop invokes it at most [remaining]
    times and sleeps the first delays of the doubling sequence, one after
    each transient failure. *)
Lemma retry_loop_shape {A : Type} (script : nat -> outcome A) d :
  forall remaining retries p,
    let p' := snd (retry_loop probe_sleep (scripted script) d
                     remaining retries p) in
    exists k, (k <= remaining)%nat
      /\ slept p' = slept p ++ delays d retries k
      /\ (invocations p' <= invocations p + remaining)%nat.
Proof.
  induction remaining as [|n IH]; intros retries p; cbv zeta.
  - exists 0%nat. simpl. rewrite app_nil_r. repeat split; lia.
  - cbn [retry_loop].
    change (scripted script p)
      with (script (invocations p), mkprobe (S (invocations p)) (slept p)).
    assert (Hstop :
      exists k, (k <= S n)%nat
        /\ slept (mkprobe (S (invocations p)) (slept p))
           = slept p ++ delays d retries k
        /\ (invocations (mkprobe (S (invocations p)) (slept p))
            <= invocations p + S n)%nat).
    { exists 0%nat. simpl. rewrite app_nil_r. repeat split; lia. }
    destruct (script (invocations p)) as [v|e]; [cbn [snd]; exact Hstop|].
    destruct e; try (cbn [snd]; exact Hstop).
    destruct (error_code =? 502); [|cbn [snd]; exact Hstop].
    destruct (d * 2 ^ retries <? 0); [cbn [snd]; exact Hstop|].
    destruct (IH (retries + 1)
                (probe_sleep (d * 2 ^ retries)
                   (mkprobe (S (invocations p)) (slept p))))
      as (k & Hk & Hs & Hi).
    exists (S k). split; [lia|]. split.
    + rewrite Hs. unfold probe_sleep. cbn [slept invocations].
      rewrite delays_S, <- app_assoc. reflexivity.
    + change (invocations
                (probe_sleep (d * 2 ^ retries)
                   (mkprobe (S (invocations p)) (slept p))))
        with (S (invocations p)) in Hi.
      lia.
Qed.

(** X1.  Worst case of the wrapper.  Whatever the wrapped callable does,
    [api_request_with_backoff] invokes it at most [max_retries] times,
    sleeps at most [max_retries] times, the delays being the first terms of
    [initial_delay * 2^a], and so blocks its caller for at most
    [initial_delay * (2^max_retries - 1)] seconds of sleep: 31 seconds with
    the defaults 5 and 1. *)
Theorem backoff_bounds {A : Type} (script : nat -> outcome A)
    (max_retries : nat) (initial_delay : Z) :
  let p := snd (api_request_with_backoff probe_sleep (scripted script)
                  max_retries initial_delay probe0) in
  (invocations p <= max_retries)%nat
  /\ (List.length (slept p) <= max_retries)%nat
  /\ slept p = delays initial_delay 0 (List.length (slept p))
  /\ (0 <= initial_delay ->
      total_delay p <= initial_delay * (2 ^ Z.of_nat max_retries - 1)).
Proof.
  cbv zeta. unfold api_request_with_backoff.
  destruct (retry_loop_shape script initial_delay max_retries 0 probe0)
    as (k & Hk & Hs & Hi).
  cbv zeta in Hs, Hi. cbn [probe0 slept invocations app Nat.add] in Hs, Hi.
  rewrite Hs, delays_length. repeat split; try lia.
  intros Hd. unfold total_delay. rewrite Hs, delays_sum by lia.
  rewrite Z.pow_0_r, Z.mul_1_r.
  apply Z.mul_le_mono_nonneg_l; [exact Hd|].
  assert (2 ^ Z.of_nat k <= 2 ^ Z.of_nat max_retries)
    by (apply Z.pow_le_mono_r; lia).
  lia.
Qed.

Lemma backoff_bounds_witness :
  total_delay
    (snd (api_request_with_backoff probe_sleep (scripted bad_gateway) 5 1
            probe0)) <= 31.
Proof.
  exact (proj2 (proj2 (proj2 (backoff_bounds bad_gateway 5 1)))
           ltac:(lia)).
Defined.

End BackoffBounds.

(** ** The ladder: what a call notifies and what it loses *)

Module LadderMore.
Import Ladder LadderFacts.

Lemma sort_append_In l x y : In y (sort (l ++ [x])) <-> In y l \/ y = x.
Proof.
  split.
  - intros H. apply (Permutation_in _ (sort_perm _)) in H.
    apply in_app_or in H as [H|[H|[]]]; auto.
  - intros H. apply (Permutation_in _ (Permutation_sym (sort_perm _))).
    apply in_or_app. destruct H as [H| ->]; [now left | right; now left].
Qed.

Section Sink.

Variable send_message : Z -> option exn.

(** A loop that ends normally has notified every threshold the price
    reached. *)
Lemma notify_loop_complete p : forall ths notified events,
  fst (fst (notify_loop send_message p ths notified events)) = Return tt ->
  forall t, In t ths -> t <= p ->
    In t (snd (fst (notify_loop send_message p ths notified events))).
Proof.
  induction ths as [|x rest IH]; intros notified events H t Hin Hle;
    [destruct Hin|].
  cbn [notify_loop] in *.
  assert (Hkeep : forall n ev, In t n ->
    In t (snd (fst (notify_loop send_message p rest n ev)))).
  { intros n ev Hn.
    destruct (notify_loop_spec send_message p rest n ev) as (new & E & _).
    rewrite E. apply in_or_app. now left. }
  destruct ((x <=? p) && negb (mem x notified)) eqn:C.
  - destruct (send_message x) as [e|]; [discriminate H|].
    destruct Hin as [->|Hin]; [|now apply IH].
    apply Hkeep. apply in_or_app. right. now left.
  - destruct Hin as [->|Hin]; [|now apply IH].
    apply Hkeep. apply andb_false_iff in C as [C|C].
    + apply Z.leb_gt in C. lia.
    + apply negb_false_iff in C. now apply mem_In.
Qed.

(** A loop that ends with an exception ends at the threshold whose send
    raised it, after marking it notified. *)
Lemma notify_loop_raise p : forall ths notified events e,
  fst (fst (notify_loop send_message p ths notified events)) = Raise e ->
  exists t, send_message t = Some e
    /\ In t (snd (fst (notify_loop send_message p ths notified events)))
    /\ In t (snd (notify_loop send_message p ths notified events))
    /\ ~ In t notified.
Proof.
  induction ths as [|x rest IH]; intros notified events e H;
    [discriminate H|].
  cbn [notify_loop] in *.
  destruct ((x <=? p) && negb (mem x notified)) eqn:C.
  - apply andb_true_iff in C as [_ C].
    apply negb_true_iff, mem_false in C.
    destruct (send_message x) as [e'|] eqn:S.
    + simpl in *. injection H as <-. exists x.
      repeat split; try assumption; apply in_or_app; right; now left.
    + destruct (IH _ _ _ H) as (t & H1 & H2 & H3 & H4).
      exists t. repeat split; try assumption.
      intros Hin. apply H4. apply in_or_app. now left.
  - now apply IH.
Qed.

(** X2.  What one call of [check_and_notify_price_threshold] does to the
    ladder: the threshold it inserts is the first multiple of 1000 above
    the price; no threshold is ever removed; the thresholds it notifies
    were in the ladder before the call, are reached by the price and were
    not notified before (so the threshold just inserted is never notified
    by the same call); and when the call returns normally every threshold
    the price has reached is notified and the price is recorded. *)
Theorem check_and_notify_crossings (p : Z) (st : ladder) :
  let '(o, st', events) :=
    check_and_notify_price_threshold send_message p st in
  let next_threshold := (p / 1000 + 1) * 1000 in
  (p < next_threshold <= p + 1000 /\ next_threshold mod 1000 = 0
   /\ In next_threshold (thresholds st'))
  /\ incl (thresholds st) (thresholds st')
  /\ (forall t, In t events ->
        In t (thresholds st) /\ t <= p /\ ~ In t (notified st))
  /\ (o = Return tt ->
      price st' = p
      /\ forall t, In t (thresholds st') -> t <= p -> In t (notified st')).
Proof.
  pose proof (check_and_notify_spec send_message p st) as Hspec.
  unfold check_and_notify_price_threshold in *. cbv zeta in *.
  set (next := (p / 1000 + 1) * 1000) in *.
  assert (Hnext : p < next <= p + 1000 /\ next mod 1000 = 0).
  { unfold next. split; [|apply Z_mod_mult].
    pose proof (Z.div_mod p 1000 ltac:(lia)).
    pose proof (Z.mod_pos_bound p 1000 ltac:(lia)). lia. }
  set (ths := if mem next (thresholds st) then thresholds st
              else sort (thresholds st ++ [next])) in *.
  assert (Hths : forall t, In t ths <-> In t (thresholds st) \/ t = next).
  { intros t. unfold ths. destruct (mem next (thresholds st)) eqn:M.
    - apply mem_In in M. split; [tauto|]. intros [H| ->]; assumption.
    - apply sort_append_In. }
  pose proof (notify_loop_complete p ths (notified st) []) as Hc.
  destruct (notify_loop send_message p ths (notified st) [])
    as [[o notified'] events].
  cbn [fst snd] in Hc.
  assert (Hev : forall t, In t events ->
            In t (thresholds st) /\ t <= p /\ ~ In t (notified st)).
  { intros t Ht.
    assert (In t ths /\ t <= p /\ ~ In t (notified st)) as (H1 & H2 & H3).
    { destruct o as [[]|e]; destruct Hspec as (_ & _ & H & _);
        now apply H. }
    apply Hths in H1 as [H1|H1]; [tauto | lia]. }
  destruct o as [[]|e]; cbn [price thresholds notified].
  - split; [split; [tauto | split; [tauto | apply Hths; now right]]|].
    split; [intros t Ht; apply Hths; now left|].
    split; [exact Hev|]. intros _. split; [reflexivity|].
    intros t Ht Hle. now apply Hc.
  - split; [split; [tauto | split; [tauto | apply Hths; now right]]|].
    split; [intros t Ht; apply Hths; now left|].
    split; [exact Hev|]. intros [=].
Qed.

(** X3.  A notification that fails is lost.  When the call raises, the
    exception is the one the sink raised for some threshold [t]; [t] is
    marked notified all the same, the recorded price is not updated, and no
    later call, at any price, issues a notification for [t] again. *)
Theorem failed_notification_is_lost (p : Z) (st : ladder) (e : exn) :
  let '(o, st', events) :=
    check_and_notify_price_threshold send_message p st in
  o = Raise e ->
  price st' = price st
  /\ exists t, send_message t = Some e
       /\ In t events /\ ~ In t (notified st) /\ In t (notified st')
       /\ forall prices, ~ In t (snd (run send_message prices st')).
Proof.
  unfold check_and_notify_price_threshold. cbv zeta.
  set (ths := if mem _ (thresholds st) then thresholds st else _).
  pose proof (notify_loop_raise p ths (notified st) [] e) as Hr.
  destruct (notify_loop send_message p ths (notified st) [])
    as [[o notified'] events].
  cbn [fst snd] in Hr.
  destruct o as [[]|e']; [intros [=]|]. intros [= ->].
  destruct (Hr eq_refl) as (t & H1 & H2 & H3 & H4).
  split; [reflexivity|]. exists t. cbn [notified].
  repeat split; try assumption.
  intros prices Hin.
  pose proof (run_spec send_message prices
                (mkladder (price st) ths notified')) as Hrun.
  destruct (run send_message prices (mkladder (price st) ths notified'))
    as [st2 later].
  destruct Hrun as (_ & _ & Hnew & _). exact (Hnew t Hin H2).
Qed.

End Sink.

Lemma check_and_notify_crossings_witness :
  price (snd (fst (check_and_notify_price_threshold delivered 30500
                     (mkladder 29000 [30000] [])))) = 30500
  /\ In 30000
       (notified (snd (fst (check_and_notify_price_threshold delivered 30500
                              (mkladder 29000 [30000] []))))).
Proof.
  pose proof (check_and_notify_crossings delivered 30500
                (mkladder 29000 [30000] [])) as H.
  destruct (check_and_notify_price_threshold delivered 30500
              (mkladder 29000 [30000] [])) as [[o st'] events] eqn:E.
  destruct H as (_ & _ & _ & H).
  assert (Ho : o = Return tt) by (now injection E as <- _ _).
  destruct (H Ho) as [H1 H2]. split; [exact H1|].
  apply H2; [|lia]. injection E as _ <- _. simpl. now left.
Defined.

Lemma failed_notification_is_lost_witness :
  ~ In 30000
      (snd (run (PriceLoop.gateway_down_for 30000) [30500; 31500; 30200]
              (snd (fst (check_and_notify_price_threshold
                           (PriceLoop.gateway_down_for 30000) 30500
                           (mkladder 29000 [30000] [])))))).
Proof.
  pose proof (failed_notification_is_lost (PriceLoop.gateway_down_for 30000)
                30500 (mkladder 29000 [30000] []) (ApiException 502)) as H.
  destruct (check_and_notify_price_threshold
              (PriceLoop.gateway_down_for 30000) 30500
              (mkladder 29000 [30000] [])) as [[o st'] events] eqn:E.
  assert (Ho : o = Raise (ApiException 502)) by (now injection E as <- _ _).
  destruct (H Ho) as (_ & t & Ht & _ & _ & _ & Hlost).
  assert (t = 30000) as ->.
  { unfold PriceLoop.gateway_down_for in Ht.
    destruct (Z.eqb_spec t 30000); [assumption | discriminate Ht]. }
  exact (Hlost [30500; 31500; 30200]).
Defined.

End LadderMore.

(** ** The caches: degraded upstreams *)

Module BotMore.
Import Backoff Bot BackoffFacts BotFacts PriceLoop.

Section Generic.

Context {W A : Type}.
Variable sleep : Z -> W -> W.
Variable func : W -> outcome A * W.

(** A callable that fails whenever it is invoked makes the wrapper fail. *)
Lemma backoff_all_fail d :
  (forall w, exists e, fst (func w) = Raise e) ->
  forall remaining retries w,
    exists e, fst (retry_loop sleep func d remaining retries w) = Raise e.
Proof.
  intros Hf. induction remaining as [|n IH]; intros retries w; simpl.
  - eauto.
  - destruct (Hf w) as [e He]. destruct (func w) as [r w1].
    simpl in He. subst r. destruct e; simpl; eauto.
    destruct (error_code =? 502); simpl; eauto.
    destruct (d * 2 ^ retries <? 0); simpl; eauto.
Qed.

(** What the wrapper returns was returned by an invocation. *)
Lemma backoff_return_inv d : forall remaining retries w v w',
  retry_loop sleep func d remaining retries w = (Return v, w') ->
  exists w0, func w0 = (Return v, w').
Proof.
  induction remaining as [|n IH]; intros retries w v w' H; simpl in H.
  - discriminate.
  - destruct (func w) as [[a|e] w1] eqn:E.
    + injection H as <- <-. eauto.
    + destruct e; try discriminate.
      destruct (error_code =? 502); [|discriminate].
      destruct (d * 2 ^ retries <? 0); [discriminate|]. eauto.
Qed.

End Generic.

Section Upstream.

Variable mempool_api : nat -> outcome (Z * Z * Z).
Variable coingecko_change_api : nat -> outcome Z.
Variable coingecko_api : nat -> outcome value.

Local Abbreviation get_mempool := (get_mempool_data mempool_api).
Local Abbreviation get_change :=
  (get_coingecko_price_change coingecko_change_api).
Local Abbreviation get_bitcoin :=
  (get_bitcoin_price mempool_api coingecko_change_api coingecko_api).
Local Abbreviation backoff := (api_request_with_backoff sleep).

Lemma get_mempool_down w :
  (forall k, exists e, mempool_api k = Raise e) ->
  fresh (MEMPOOL_CACHE w) (clock w) = false ->
  fst (get_mempool w) = Return VNone
  /\ MEMPOOL_CACHE (snd (get_mempool w)) = MEMPOOL_CACHE w
  /\ frame_bitcoin w (snd (get_mempool w)).
Proof.
  intros Hdown F. split; [|split; [|apply get_mempool_frame]].
  - rewrite get_mempool_stale by exact F.
    unfold mempool_refresh, bind.
    destruct (backoff_all_fail sleep (mempool_fetch_data mempool_api) 1)
      with (remaining := 5%nat) (retries := 0) (w := w) as [e He].
    { intros w0. unfold mempool_fetch_data.
      destruct (Hdown (mempool_requests w0)) as [e0 ->]. simpl. eauto. }
    unfold api_request_with_backoff.
    destruct (retry_loop sleep (mempool_fetch_data mempool_api) 1 5 0 w)
      as [r w1]. simpl in He. now subst r.
  - rewrite get_mempool_stale by exact F.
    pose proof (mempool_refresh_spec mempool_api (clock w) w) as S.
    unfold mempool_refresh, bind in *.
    destruct (backoff_all_fail sleep (mempool_fetch_data mempool_api) 1)
      with (remaining := 5%nat) (retries := 0) (w := w) as [e He].
    { intros w0. unfold mempool_fetch_data.
      destruct (Hdown (mempool_requests w0)) as [e0 ->]. simpl. eauto. }
    unfold api_request_with_backoff in *.
    destruct (retry_loop sleep (mempool_fetch_data mempool_api) 1 5 0 w)
      as [r w1]. simpl in He. subst r. simpl in *. tauto.
Qed.

Lemma get_change_down w :
  (forall k, exists e, coingecko_change_api k = Raise e) ->
  fst (get_change w) = Return VNone.
Proof.
  intros Hdown. unfold get_coingecko_price_change, try_except, bind.
  destruct (backoff_all_fail sleep (change_fetch_data coingecko_change_api) 1)
    with (remaining := 5%nat) (retries := 0) (w := w) as [e He].
  { intros w0. unfold change_fetch_data.
    destruct (Hdown (change_requests w0)) as [e0 ->]. simpl. eauto. }
  unfold api_request_with_backoff.
  destruct (retry_loop sleep (change_fetch_data coingecko_change_api) 1 5 0 w)
    as [r w1]. simpl in He. now subst r.
Qed.

(** While every request to Mempool.space fails and
    CoinGecko's price endpoint answers [body], a JSON object with a number
    under ["bitcoin"]["eur"], an expired [get_bitcoin_price] returns
    [body] as it came, stores it in [BITCOIN_CACHE] with the time of the
    call, and leaves [MEMPOOL_CACHE] as it was. *)
Lemma get_bitcoin_fallback
    (w : world) (body inner : value) (eur : Z) :
  fresh (BITCOIN_CACHE w) (clock w) = false ->
  fresh (MEMPOOL_CACHE w) (clock w) = false ->
  (forall k, exists e, mempool_api k = Raise e) ->
  (forall k, coingecko_api k = Return body) ->
  getitem body "bitcoin" = Return inner ->
  getitem inner "eur" = Return (VNum eur) ->
  let '(r, w') := get_bitcoin w in
  r = Return body
  /\ BITCOIN_CACHE w' = mkcache body (Some (clock w))
  /\ MEMPOOL_CACHE w' = MEMPOOL_CACHE w.
Proof.
  intros FB FM Hdown Hup Hinner Heur.
  rewrite get_bitcoin_stale by exact FB.
  unfold bitcoin_refresh. unfold bind at 1.
  rewrite (backoff_of_total (get_mempool_data mempool_api) w)
    by apply get_mempool_returns.
  destruct (get_mempool_down w Hdown FM) as (Hm1 & Hm2 & Hm3).
  destruct (get_mempool_data mempool_api w) as [r wa].
  cbn [fst snd] in Hm1, Hm2, Hm3. subst r.
  unfold bind at 1.
  pose proof (get_change_spec coingecko_change_api wa) as Hc.
  rewrite (backoff_of_total
             (get_coingecko_price_change coingecko_change_api) wa)
    by (destruct (get_coingecko_price_change coingecko_change_api wa);
        simpl; tauto).
  destruct (get_coingecko_price_change coingecko_change_api wa) as [r wb].
  destruct Hc as ([pc ->] & (_ & Hb1 & Hb2) & _).
  unfold bind at 1. cbn [truthy]. unfold bind at 1.
  rewrite (backoff_return_first sleep (fetch_coingecko coingecko_api) 4 1 wb
             body
             (mkworld (clock wb) (slept wb) (mempool_requests wb)
                (change_requests wb) (S (coingecko_requests wb))
                (MEMPOOL_CACHE wb) (BITCOIN_CACHE wb)))
    by (unfold fetch_coingecko; now rewrite Hup).
  unfold bind, lift, ret, set_BITCOIN_CACHE. rewrite Hinner, Heur.
  cbn [format_2f MEMPOOL_CACHE BITCOIN_CACHE].
  repeat split. congruence.
Qed.

(** X4.  Fallback.  While every request to Mempool.space fails and
    CoinGecko's price endpoint answers [body], a JSON object with a number
    under ["bitcoin"]["eur"], an expired [get_bitcoin_price] returns
    [body] as it came, stores it in [BITCOIN_CACHE] with the time of the
    call, and leaves [MEMPOOL_CACHE] as it was. *)
Theorem bitcoin_price_falls_back_to_coingecko
    (w : world) (body inner : value) (eur : Z) :
  fresh (BITCOIN_CACHE w) (clock w) = false ->
  fresh (MEMPOOL_CACHE w) (clock w) = false ->
  (forall k, exists e, mempool_api k = Raise e) ->
  (forall k, coingecko_api k = Return body) ->
  getitem body "bitcoin" = Return inner ->
  getitem inner "eur" = Return (VNum eur) ->
  let '(r, w') := get_bitcoin w in
  r = Return body
  /\ BITCOIN_CACHE w' = mkcache body (Some (clock w))
  /\ MEMPOOL_CACHE w' = MEMPOOL_CACHE w.
Proof. apply get_bitcoin_fallback. Qed.

(** X5.  A missing 24h change is cached.  When Mempool.space answers
    and every request for the 24h change fails, an expired
    [get_bitcoin_price] builds its answer from the Mempool data with
    ['N/A'] as the change, returns it as a success and stores it in
    [BITCOIN_CACHE]: the change is not asked for again until the cache
    expires. *)
Theorem missing_change_is_cached (w : world) (eur usd fee : Z) :
  fresh (BITCOIN_CACHE w) (clock w) = false ->
  fresh (MEMPOOL_CACHE w) (clock w) = false ->
  mempool_api (mempool_requests w) = Return (eur, usd, fee) ->
  (forall k, exists e, coingecko_change_api k = Raise e) ->
  let answer :=
    VDict [("bitcoin",
            VDict [("eur", VNum eur); ("usd", VNum usd);
                   ("eur_24h_change", VStr "N/A");
                   ("suggested_fee", VNum fee)])] in
  let '(r, w') := get_bitcoin w in
  r = Return answer
  /\ BITCOIN_CACHE w' = mkcache answer (Some (clock w))
  /\ forall dt, 0 <= dt -> clock w' + dt - clock w < seconds 60 ->
       get_bitcoin (advance dt w') = (Return answer, advance dt w').
Proof.
  intros FB FM Hup Hdown answer.
  assert (Href : exists w1,
    bitcoin_refresh mempool_api coingecko_change_api coingecko_api
      (clock w) w = (Return answer, w1)).
  { unfold bitcoin_refresh. unfold bind at 1.
    rewrite (backoff_of_total (get_mempool_data mempool_api) w)
      by apply get_mempool_returns.
    rewrite get_mempool_stale by exact FM.
    unfold mempool_refresh. unfold bind at 1.
    rewrite (backoff_return_first sleep (mempool_fetch_data mempool_api) 4 1 w
               (VDict [("price_eur", VNum eur); ("price_usd", VNum usd);
                       ("fee", VNum fee)])
               (mkworld (clock w) (slept w) (S (mempool_requests w))
                  (change_requests w) (coingecko_requests w)
                  (MEMPOOL_CACHE w) (BITCOIN_CACHE w)))
      by (unfold mempool_fetch_data; now rewrite Hup).
    unfold bind at 1. unfold set_MEMPOOL_CACHE, ret at 1.
    cbn [clock slept mempool_requests change_requests coingecko_requests
         MEMPOOL_CACHE BITCOIN_CACHE].
    set (wa := mkworld _ _ _ _ _ _ _).
    unfold bind at 1.
    pose proof (get_change_spec coingecko_change_api wa) as Hc.
    pose proof (get_change_down wa Hdown) as Hd.
    rewrite (backoff_of_total
               (get_coingecko_price_change coingecko_change_api) wa)
      by (destruct (get_coingecko_price_change coingecko_change_api wa);
          simpl; tauto).
    destruct (get_coingecko_price_change coingecko_change_api wa) as [r wb].
    cbn [fst] in Hd. subst r.
    unfold bind, lift, ret, set_BITCOIN_CACHE. cbn. eauto. }
  destruct Href as [w1 Href].
  rewrite get_bitcoin_stale by exact FB. rewrite Href.
  pose proof (bitcoin_refresh_spec mempool_api coingecko_change_api
                coingecko_api (clock w) w) as S.
  rewrite Href in S. destruct S as (_ & _ & S).
  split; [reflexivity|]. split; [exact S|].
  intros dt Hdt Hlt.
  rewrite (get_bitcoin_fresh mempool_api coingecko_change_api coingecko_api
             (advance dt w1) (clock w)).
  - simpl. now rewrite S.
  - simpl. now rewrite S.
  - simpl. exact Hlt.
Qed.

End Upstream.

Lemma bitcoin_price_falls_back_to_coingecko_witness :
  fst (get_bitcoin_price down_mempool up_change up_coingecko cold_world)
  = Return coingecko_body.
Proof.
  pose proof (bitcoin_price_falls_back_to_coingecko
                down_mempool up_change up_coingecko cold_world
                coingecko_body
                (VDict [("eur", VNum 60000); ("usd", VNum 65000);
                        ("eur_24h_change", VNum 3)])
                60000 eq_refl eq_refl
                (fun k => ex_intro _ (HTTPError 503) eq_refl)
                (fun k => eq_refl) eq_refl eq_refl) as H.
  destruct (get_bitcoin_price down_mempool up_change up_coingecko cold_world)
    as [r w']. exact (proj1 H).
Defined.

Lemma missing_change_is_cached_witness :
  fst (get_bitcoin_price up_mempool down_change down_coingecko cold_world)
  = Return
      (VDict [("bitcoin",
               VDict [("eur", VNum 60000); ("usd", VNum 65000);
                      ("eur_24h_change", VStr "N/A");
                      ("suggested_fee", VNum 12)])]).
Proof.
  pose proof (missing_change_is_cached
                up_mempool down_change down_coingecko cold_world
                60000 65000 12 eq_refl eq_refl eq_refl
                (fun k => ex_intro _ (HTTPError 503) eq_refl)) as H.
  cbv zeta in H.
  destruct (get_bitcoin_price up_mempool down_change down_coingecko
              cold_world) as [r w']. exact (proj1 H).
Defined.

End BotMore.

(** ** The price loop and the /bitcoin command *)

Module PriceLoopFacts.
Import Backoff Bot Ladder BackoffFacts BotFacts BotMore PriceLoop.

Section Environment.

Variable mempool_api : nat -> outcome (Z * Z * Z).
Variable coingecko_change_api : nat -> outcome Z.
Variable coingecko_api : nat -> outcome value.
Variable send_message : Z -> option exn.
Variable save_last_notified_price : ladder -> option exn.
Variable alert_api : nat -> outcome value.
Variable reply_to : reply -> option exn.
Variable GROUP_CHAT_ID PERSONAL_CHAT_ID : option string.

Local Abbreviation get_bitcoin :=
  (get_bitcoin_price mempool_api coingecko_change_api coingecko_api).
Local Abbreviation notify :=
  (check_and_notify send_message save_last_notified_price).
Local Abbreviation backoff := (api_request_with_backoff state_sleep).

Lemma quiet_refl s : quiet s s.
Proof. split; reflexivity. Qed.

Lemma quiet_trans a b c : quiet a b -> quiet b c -> quiet a c.
Proof. unfold quiet. intros [] []. split; congruence. Qed.

Lemma quiet_sleep secs s : quiet s (state_sleep secs s).
Proof. split; reflexivity. Qed.

Lemma quiet_on_bot {A : Type} (c : M A) s : quiet s (snd (on_bot c s)).
Proof. unfold on_bot. destruct (c (bot s)). split; reflexivity. Qed.

Lemma quiet_notify price_arg change_24h s :
  quiet s (snd (notify price_arg change_24h s)).
Proof.
  unfold check_and_notify. destruct price_arg; try apply quiet_refl.
  destruct (check_and_notify_price_threshold send_message n
              (LAST_NOTIFIED_PRICE s)) as [[o l] events].
  destruct o; [destruct (save_last_notified_price l)|]; split; reflexivity.
Qed.

Lemma quiet_backoff {A : Type} (func : state -> outcome A * state) n s :
  (forall s0, quiet s0 (snd (func s0))) ->
  quiet s (snd (backoff func n 1 s)).
Proof.
  intros Hf. unfold api_request_with_backoff.
  apply retry_loop_rel;
    [lia | apply quiet_refl | apply quiet_trans | exact Hf
    | intros; apply quiet_sleep].
Qed.

(** A call that returns has recorded the price it was given. *)
Lemma notify_returns price_arg change_24h s v s' :
  notify price_arg change_24h s = (Return v, s') ->
  exists p, price_arg = VNum p /\ price (LAST_NOTIFIED_PRICE s') = p.
Proof.
  unfold check_and_notify. destruct price_arg; try discriminate.
  unfold check_and_notify_price_threshold. cbv zeta.
  destruct (notify_loop send_message n _ _ _) as [[o notified'] events].
  destruct o as [[]|e]; [|discriminate].
  destruct (save_last_notified_price _); [discriminate|].
  intros [= <- <-]. exists n. split; reflexivity.
Qed.

Lemma backoff_notify_returns price_arg change_24h s v s' :
  backoff (notify price_arg change_24h) 5 1 s = (Return v, s') ->
  differs_from price_arg (price (LAST_NOTIFIED_PRICE s')) = false.
Proof.
  intros H. unfold api_request_with_backoff in H.
  apply backoff_return_inv in H as [s0 H].
  apply notify_returns in H as (p & -> & <-).
  simpl. now rewrite Z.eqb_refl.
Qed.

(** X6.  The volatility alert is not sent for an integer price.  In a
    turn of the loop of [check_bitcoin_price] in which the price read,
    [bitcoin_data['bitcoin']['eur']], is an integer, whatever the sinks
    and the ladder do, no [bot.send_message] is made for the alert: the
    test [current_price != LAST_NOTIFIED_PRICE['price']] is only reached
    after [check_and_notify_price_threshold] has returned, and that has
    just recorded [current_price] as the price. *)
Theorem volatility_alert_never_sent (s : state) :
  (forall current_price,
     current_price_read mempool_api coingecko_change_api coingecko_api s
     = Some current_price ->
     exists n, current_price = VNum n) ->
  alert_sends
    (check_bitcoin_price_iteration mempool_api coingecko_change_api
       coingecko_api send_message save_last_notified_price alert_api
       GROUP_CHAT_ID PERSONAL_CHAT_ID s)
  = alert_sends s.
Proof.
  intros Hint.
  unfold check_bitcoin_price_iteration.
  enough (H : quiet s
    (snd (check_bitcoin_price_body mempool_api coingecko_change_api
            coingecko_api send_message save_last_notified_price alert_api
            GROUP_CHAT_ID PERSONAL_CHAT_ID s))) by (simpl; apply H).
  unfold check_bitcoin_price_body. unfold pbind at 1.
  pose proof (quiet_backoff (on_bot get_bitcoin) 5 s
                (fun s0 => quiet_on_bot get_bitcoin s0)) as Q1.
  destruct (backoff (on_bot get_bitcoin) 5 1 s) as [[bitcoin_data|e] s1];
    cbn [snd] in *; [|exact Q1].
  unfold pbind at 1.
  assert (Hrest : forall has_bitcoin : bool,
    quiet s
      (snd ((if has_bitcoin
             then
               inner <~ plift (getitem bitcoin_data "bitcoin") ;;
               current_price <~ plift (getitem inner "eur") ;;
               inner0 <~ plift (getitem bitcoin_data "bitcoin") ;;
               change_24h <~ plift (getitem inner0 "eur_24h_change") ;;
               backoff (notify current_price change_24h) 5 1 ;;~
               big_change <~ plift (abs_gt change_24h 5) ;;
               price_moved <~
                 (fun s0 =>
                    (Return (big_change
                             && differs_from current_price
                                  (price (LAST_NOTIFIED_PRICE s0))), s0)) ;;
               (if price_moved
                then
                  plift (format_2f current_price) ;;~
                  plift (format_2f change_24h) ;;~
                  send_alerts alert_api [GROUP_CHAT_ID; PERSONAL_CHAT_ID]
                else pret tt)
             else pret tt) s1))).
  { intros [|]; [|exact Q1].
    unfold pbind at 1. unfold plift at 1.
    destruct (getitem bitcoin_data "bitcoin") as [inner|e]; [|exact Q1].
    unfold pbind at 1. unfold plift at 1.
    destruct (getitem inner "eur") as [current_price|e]; [|exact Q1].
    unfold pbind at 1. unfold plift at 1.
    unfold pbind at 1. unfold plift at 1.
    destruct (getitem inner "eur_24h_change") as [change_24h|e]; [|exact Q1].
    unfold pbind at 1.
    pose proof (quiet_backoff (notify current_price change_24h) 5 s1
                  (fun s0 => quiet_notify current_price change_24h s0)) as Q2.
    pose proof (backoff_notify_returns current_price change_24h s1) as Hp.
    destruct (backoff (notify current_price change_24h) 5 1 s1)
      as [[v|e] s2]; cbn [snd] in *;
      [|exact (quiet_trans _ _ _ Q1 Q2)].
    specialize (Hp v s2 eq_refl).
    unfold pbind at 1. unfold plift at 1.
    destruct (abs_gt change_24h 5) as [big_change|e];
      [|exact (quiet_trans _ _ _ Q1 Q2)].
    unfold pbind at 1. rewrite Hp, andb_false_r.
    exact (quiet_trans _ _ _ Q1 Q2). }
  destruct (truthy bitcoin_data).
  - unfold plift at 1.
    destruct (contains bitcoin_data "bitcoin") as [has_bitcoin|e];
      [apply Hrest | exact Q1].
  - apply (Hrest false).
Qed.

(** X7.  The /bitcoin command after a fallback.  While every request to
    Mempool.space fails and CoinGecko answers a body with a price but, as
    its API does, without ["suggested_fee"], [send_bitcoin_price] on
    expired caches raises (at the latest in [get_fee_emoji('N/A')]) before
    it replies: no reply is sent and the ladder is not touched. *)
Theorem bitcoin_command_fails_after_fallback
    (s : state) (body : value) (items : list (string * value)) (eur : Z) :
  fresh (BITCOIN_CACHE (bot s)) (clock (bot s)) = false ->
  fresh (MEMPOOL_CACHE (bot s)) (clock (bot s)) = false ->
  (forall k, exists e, mempool_api k = Raise e) ->
  (forall k, coingecko_api k = Return body) ->
  getitem body "bitcoin" = Return (VDict items) ->
  lookup "eur" items = Some (VNum eur) ->
  lookup "suggested_fee" items = None ->
  let '(r, s') :=
    send_bitcoin_price mempool_api coingecko_change_api coingecko_api
      send_message save_last_notified_price reply_to s in
  (exists e, r = Raise e)
  /\ replies s' = replies s
  /\ LAST_NOTIFIED_PRICE s' = LAST_NOTIFIED_PRICE s
  /\ threshold_events s' = threshold_events s.
Proof.
  intros FB FM Hdown Hup Hinner Heur Hfee.
  pose proof (get_bitcoin_fallback mempool_api coingecko_change_api
                coingecko_api (bot s) body (VDict items) eur FB FM Hdown Hup
                Hinner) as Hget.
  unfold getitem at 1 in Hget. rewrite Heur in Hget.
  specialize (Hget eq_refl).
  assert (Hbody : truthy body = true /\ contains body "bitcoin" = Return true).
  { destruct body as [| |?|bitems]; try discriminate Hinner.
    simpl in Hinner. destruct (lookup "bitcoin" bitems) eqn:L;
      [|discriminate Hinner].
    split; [destruct bitems; [discriminate L | reflexivity]|].
    simpl. now rewrite L. }
  destruct Hbody as [Ht Hc].
  unfold send_bitcoin_price, pbind, plift, pret, on_bot.
  destruct (get_bitcoin (bot s)) as [r w']. destruct Hget as (-> & _).
  rewrite Ht, Hc, Hinner.
  unfold getitem, dict_get_default. rewrite Heur, Hfee.
  destruct (lookup "eur_24h_change" items) as [change_24h|];
    [|cbn; repeat split; eauto].
  destruct (is_na change_24h).
  - cbn. repeat split; eauto.
  - destruct (sign_emoji change_24h) as [emoji|e];
      [|cbn; repeat split; eauto].
    destruct (format_2f change_24h) as [[]|e]; cbn; repeat split; eauto.
Qed.

End Environment.

Lemma volatility_alert_never_sent_witness :
  current_price_read up_mempool volatile_change up_coingecko cold_state
  = Some (VNum 60000)
  /\ abs_gt (VNum 7) 5 = Return true
  /\ alert_sends
       (check_bitcoin_price_iteration up_mempool volatile_change
          up_coingecko delivered writes alert_delivered
          (Some "-100") (Some "7") cold_state)
     = 0%nat.
Proof.
  split; [vm_compute; reflexivity|]. split; [reflexivity|].
  apply (volatility_alert_never_sent up_mempool volatile_change
           up_coingecko delivered writes alert_delivered
           (Some "-100") (Some "7") cold_state).
  intros current_price H. vm_compute in H. injection H as <-.
  now exists 60000.
Defined.

Lemma bitcoin_command_fails_after_fallback_witness :
  exists e,
    fst (send_bitcoin_price down_mempool up_change up_coingecko
           delivered writes replied cold_state) = Raise e.
Proof.
  pose proof (bitcoin_command_fails_after_fallback
                down_mempool up_change up_coingecko delivered writes replied
                cold_state coingecko_body
                [("eur", VNum 60000); ("usd", VNum 65000);
                 ("eur_24h_change", VNum 3)]
                60000 eq_refl eq_refl
                (fun k => ex_intro _ (HTTPError 503) eq_refl)
                (fun k => eq_refl) eq_refl eq_refl eq_refl) as H.
  destruct (send_bitcoin_price down_mempool up_change up_coingecko
              delivered writes replied cold_state) as [r s'].
  exact (proj1 H).
Defined.

End PriceLoopFacts.

(** ** The postcard date: how far before the birthday *)

Module SchedulerMore.
Import PyDate PyDateFacts Scheduler SchedulerFacts.

Section Calendar.

Variable holidays : date -> bool.

(** The days the first loop steps over are closed. *)
Lemma send_date_loop_skips fuel : forall o o',
  1 <= o <= MAXORDINAL ->
  send_date_loop fuel holidays (fromordinal o)
  = Some (Return (fromordinal o')) ->
  forall j, o' < j <= o -> non_business holidays (fromordinal j) = true.
Proof.
  induction fuel as [|fuel IH]; intros o o' Ho H j Hj; [discriminate|].
  cbn [send_date_loop] in H.
  destruct (non_business holidays (fromordinal o)) eqn:B.
  - rewrite add_days_fromordinal in H.
    destruct ((0 <? o + -1) && (o + -1 <=? MAXORDINAL)) eqn:E;
      [|discriminate].
    apply andb_true_iff in E as [E1 E2]. apply Z.ltb_lt in E1.
    destruct (Z.eq_dec j o) as [->|Hne]; [exact B|].
    apply (IH (o + -1) o' ltac:(lia) H). lia.
  - injection H as H. apply (f_equal toordinal) in H.
    rewrite !toordinal_fromordinal in H. lia.
Qed.

(** The retreat loop, entered at a business day, steps back at most once:
    the day it left is then the next business day. *)
Lemma delivery_gap_loop_result fuel os od s d :
  1 <= os < od -> od <= MAXORDINAL ->
  non_business holidays (fromordinal os) = false ->
  delivery_gap_loop fuel holidays (fromordinal os) (fromordinal od)
  = Some (Return (s, d)) ->
  (s = fromordinal os /\ d = fromordinal od /\ od - os <= 4)
  \/ (s = fromordinal (os - 1) /\ d = fromordinal os /\ 4 < od - os).
Proof.
  intros Ho Hd B.
  destruct fuel as [|fuel]; [discriminate|].
  cbn [delivery_gap_loop]. unfold days_between.
  rewrite !toordinal_fromordinal.
  destruct (4 <? od - os) eqn:G.
  - apply Z.ltb_lt in G. rewrite add_days_fromordinal.
    destruct ((0 <? os + -1) && (os + -1 <=? MAXORDINAL)) eqn:E;
      [|discriminate].
    apply andb_true_iff in E as [E1 E2]. apply Z.ltb_lt in E1.
    unfold get_next_business_day. rewrite add_days_in_range by lia.
    replace (os + -1 + 1) with os by lia.
    destruct fuel as [|fuel]; [discriminate|].
    cbn [next_business_loop]. rewrite B. cbn [fbind delivery_gap_loop].
    unfold days_between. rewrite !toordinal_fromordinal.
    replace (4 <? os - (os + -1)) with false
      by (symmetry; apply Z.ltb_ge; lia).
    intros [= <- <-]. right.
    replace (os + -1) with (os - 1) by lia. auto.
  - apply Z.ltb_ge in G. intros [= <- <-]. left. auto.
Qed.

End Calendar.

Section Holidays.

Variable get_dutch_holidays : Z -> date -> bool.

(** With a calendar that never closes five days in a row, five units of
    fuel are enough for [get_postcard_send_date]. *)
Lemma postcard_send_date_ends (birthday_date today : date) (fuel : nat) :
  valid_date birthday_date = true ->
  no_five_day_closure (get_dutch_holidays (year today)) ->
  (5 <= fuel)%nat ->
  exists r,
    get_postcard_send_date get_dutch_holidays fuel birthday_date today
    = Some r.
Proof.
  intros Hv dense Hf.
  pose proof (toordinal_range birthday_date Hv) as Hob.
  set (ob := toordinal birthday_date) in *.
  set (h := get_dutch_holidays (year today)) in *.
  assert (Hmain :
    exists r, postcard_dates get_dutch_holidays fuel birthday_date today
              = Some r).
  { unfold postcard_dates. fold h.
    destruct (delivery_schedule_total birthday_date) as (n & -> & Hn).
    cbn [fbind]. unfold add_days at 1. fold ob.
    destruct ((0 <? ob + - n) && (ob + - n <=? MAXORDINAL)) eqn:E;
      [|eauto].
    apply andb_true_iff in E as [E1 E2].
    apply Z.ltb_lt in E1. apply Z.leb_le in E2.
    cbn [fbind].
    destruct (send_date_loop_terminates h dense fuel (ob + - n) Hf
                ltac:(lia)) as (r1 & S & _).
    rewrite S. destruct r1 as [s|e]; cbn [fbind]; [|eauto].
    destruct (send_date_loop_result h fuel (ob + - n) s ltac:(lia) S)
      as (os & Hos & -> & Bs).
    unfold get_next_business_day. rewrite add_days_fromordinal.
    destruct ((0 <? os + 1) && (os + 1 <=? MAXORDINAL)) eqn:E';
      [|cbn [fbind]; eauto].
    apply andb_true_iff in E' as [E3 E4]. apply Z.leb_le in E4.
    destruct (next_business_loop_terminates h dense fuel (os + 1) Hf
                ltac:(lia)) as (r2 & N & _).
    rewrite N. destruct r2 as [d|e]; cbn [fbind]; [|eauto].
    destruct (next_business_loop_result h fuel (os + 1) d ltac:(lia) N)
      as (od & Hod & -> & Bd).
    destruct (delivery_gap_loop_terminates h fuel os od ltac:(lia)
                ltac:(lia) ltac:(lia) Bs) as (r3 & G & _).
    eauto. }
  destruct Hmain as (r & Hr).
  unfold get_postcard_send_date. rewrite Hr.
  destruct r as [[s d]|e]; cbn [fbind]; eauto.
Qed.

(** Whatever the calendar: [datetime.date] has [MAXORDINAL] days, so with
    more fuel than that every loop of [get_postcard_send_date] ends, on a
    business day or on the [OverflowError] of stepping off the calendar. *)
Lemma postcard_send_date_always_ends
    (birthday_date today : date) (fuel : nat) :
  valid_date birthday_date = true ->
  (Z.to_nat MAXORDINAL < fuel)%nat ->
  exists r,
    get_postcard_send_date get_dutch_holidays fuel birthday_date today
    = Some r.
Proof.
  intros Hv Hf.
  assert (HM : MAXORDINAL = 3652059) by reflexivity.
  assert (Hf' : MAXORDINAL < Z.of_nat fuel) by lia.
  pose proof (toordinal_range birthday_date Hv) as Hob.
  set (ob := toordinal birthday_date) in *.
  set (h := get_dutch_holidays (year today)) in *.
  assert (Hmain :
    exists r, postcard_dates get_dutch_holidays fuel birthday_date today
              = Some r).
  { unfold postcard_dates. fold h.
    destruct (delivery_schedule_total birthday_date) as (n & -> & Hn).
    cbn [fbind]. unfold add_days at 1. fold ob.
    destruct ((0 <? ob + - n) && (ob + - n <=? MAXORDINAL)) eqn:E;
      [|eauto].
    apply andb_true_iff in E as [E1 E2].
    apply Z.ltb_lt in E1. apply Z.leb_le in E2.
    cbn [fbind].
    destruct (send_date_loop_ends h fuel (ob + - n) ltac:(lia) ltac:(lia))
      as (r1 & S).
    rewrite S. destruct r1 as [s|e]; cbn [fbind]; [|eauto].
    destruct (send_date_loop_result h fuel (ob + - n) s ltac:(lia) S)
      as (os & Hos & -> & Bs).
    unfold get_next_business_day. rewrite add_days_fromordinal.
    destruct ((0 <? os + 1) && (os + 1 <=? MAXORDINAL)) eqn:E';
      [|cbn [fbind]; eauto].
    apply andb_true_iff in E' as [E3 E4]. apply Z.leb_le in E4.
    destruct (next_business_loop_ends h fuel (os + 1) ltac:(lia)
                ltac:(lia)) as (r2 & N).
    rewrite N. destruct r2 as [d|e]; cbn [fbind]; [|eauto].
    destruct (next_business_loop_result h fuel (os + 1) d ltac:(lia) N)
      as (od & Hod & -> & Bd).
    destruct (delivery_gap_loop_terminates h fuel os od ltac:(lia)
                ltac:(lia) ltac:(lia) Bs) as (r3 & G & _).
    eauto. }
  destruct Hmain as (r & Hr).
  unfold get_postcard_send_date. rewrite Hr.
  destruct r as [[s d]|e]; cbn [fbind]; eauto.
Qed.

(** X8.  How long before the birthday the postcard goes.  Whenever
    [get_postcard_send_date] returns a date for a valid birthday, that date
    is at least [delivery_schedule[weekday]] days before the birthday (one
    day, three for a Saturday, two for a Sunday): both loops only walk
    back.  When the calendar never closes five days in a row it is at most
    five days more, so one to eight days before the birthday. *)
Theorem postcard_send_date_window
    (birthday_date today send_date : date) (fuel : nat) :
  valid_date birthday_date = true ->
  get_postcard_send_date get_dutch_holidays fuel birthday_date today
  = Some (Return send_date) ->
  exists days_before,
    delivery_schedule (weekday birthday_date) = Return days_before
    /\ 1 <= days_before <= 3
    /\ days_before <= days_between birthday_date send_date
    /\ (no_five_day_closure (get_dutch_holidays (year today)) ->
        days_between birthday_date send_date <= days_before + 5).
Proof.
  intros Hv. unfold get_postcard_send_date, postcard_dates.
  set (h := get_dutch_holidays (year today)).
  pose proof (toordinal_range birthday_date Hv) as Hob.
  destruct (delivery_schedule_total birthday_date) as (n & En & Hn).
  rewrite En. cbn [fbind].
  destruct (add_days birthday_date (- n)) as [s0|e] eqn:A0;
    [|discriminate].
  apply add_days_result in A0 as [-> Hr0]. cbn [fbind].
  set (ob := toordinal birthday_date) in *.
  destruct (send_date_loop fuel h _) as [[s1|e]|] eqn:S1; try discriminate.
  destruct (send_date_loop_result h fuel _ _ Hr0 S1) as (os & Hos & -> & Bs).
  pose proof (send_date_loop_skips h fuel _ _ Hr0 S1) as Hskip.
  cbn [fbind]. unfold get_next_business_day at 1.
  destruct (add_days (fromordinal os) 1) as [nd|e] eqn:A1; [|discriminate].
  apply add_days_result in A1 as [-> Hr1].
  rewrite toordinal_fromordinal in Hr1 |- *.
  destruct (next_business_loop fuel h _) as [[d1|e]|] eqn:N1;
    try discriminate.
  destruct (next_business_loop_result h fuel (os + 1) d1 ltac:(lia) N1)
    as (od & Hod & -> & Bd).
  cbn [fbind].
  destruct (delivery_gap_loop fuel h (fromordinal os) (fromordinal od))
    as [[[s d]|e]|] eqn:G; try discriminate.
  cbn [fbind fst]. intros [= <-].
  exists n. split; [reflexivity|]. split; [exact Hn|].
  unfold days_between. fold ob.
  assert (Hs : toordinal s = os \/ toordinal s = os - 1).
  { destruct (delivery_gap_loop_result h fuel os od s d ltac:(lia)
                ltac:(lia) Bs G) as [(-> & _) | (-> & _)];
      rewrite toordinal_fromordinal; auto. }
  split; [lia|].
  intros dense.
  assert (Hlow : ob + - n - 4 <= os).
  { destruct (Z_lt_le_dec (ob + - n) 5) as [Hsmall|Hbig]; [lia|].
    destruct (dense (ob + - n - 4) ltac:(lia) ltac:(lia)) as (k & Hk & Bk).
    destruct (Z_lt_le_dec os (ob + - n - 4 + k)) as [Hlt|Hge]; [|lia].
    rewrite (Hskip (ob + - n - 4 + k)) in Bk by lia. discriminate Bk. }
  lia.
Qed.

(** X9.  A week without holidays.  For a birthday with no holiday from
    three days before it to the day after, the send date and the delivery
    date the code settles on depend on the weekday alone: Monday's card
    goes the Friday before and Tuesday's to Friday's the day before, to
    arrive on the birthday; Saturday's goes on Wednesday to arrive on
    Thursday; Sunday's goes on Friday, and its delivery date is the Monday
    after the birthday. *)
Theorem postcard_dates_plain_week
    (birthday_date today : date) (fuel : nat) :
  let b := toordinal birthday_date in
  valid_date birthday_date = true ->
  4 <= b < MAXORDINAL ->
  (3 <= fuel)%nat ->
  (forall o, b - 3 <= o <= b + 1 ->
     get_dutch_holidays (year today) (fromordinal o) = false) ->
  postcard_dates get_dutch_holidays fuel birthday_date today
  = Some (Return
            match weekday birthday_date with
            | 0 => (fromordinal (b - 3), birthday_date)
            | 5 => (fromordinal (b - 3), fromordinal (b - 2))
            | 6 => (fromordinal (b - 2), fromordinal (b + 1))
            | _ => (fromordinal (b - 1), birthday_date)
            end).
Proof.
  intros b Hv Hb Hf Hplain.
  pose proof (fromordinal_toordinal birthday_date Hv) as Hfb. fold b in Hfb.
  unfold postcard_dates. set (h := get_dutch_holidays (year today)) in *.
  assert (Hclosed : forall x, b - 3 <= x <= b + 1 -> 5 <= (x + 6) mod 7 ->
            non_business h (fromordinal x) = true).
  { intros x Hx Hw. unfold non_business. rewrite weekday_fromordinal.
    apply orb_true_iff. left. now apply Z.leb_le. }
  assert (Hopen : forall x, b - 3 <= x <= b + 1 -> (x + 6) mod 7 < 5 ->
            non_business h (fromordinal x) = false).
  { intros x Hx Hw. unfold non_business.
    rewrite weekday_fromordinal, (Hplain x Hx), orb_false_r.
    now apply Z.leb_gt. }
  unfold weekday. fold b.
  unfold add_days at 1. fold b.
  unfold get_next_business_day.
  assert (Hw : 0 <= (b + 6) mod 7 < 7) by (apply Z.mod_pos_bound; lia).
  destruct fuel as [|[|[|fuel]]]; try lia.
  assert (Hc : (b + 6) mod 7 = 0 \/ (b + 6) mod 7 = 1 \/ (b + 6) mod 7 = 2
               \/ (b + 6) mod 7 = 3 \/ (b + 6) mod 7 = 4
               \/ (b + 6) mod 7 = 5 \/ (b + 6) mod 7 = 6) by lia.
  clear Hw.
  assert (Hmax : b < MAXORDINAL) by lia. unfold MAXORDINAL in Hmax.
  repeat (destruct Hc as [Hc|Hc]);
    rewrite Hc; cbn [delivery_schedule fbind Z.opp];
    match goal with
    | |- context [(0 <? ?x) && (?x <=? MAXORDINAL)] =>
        replace ((0 <? x) && (x <=? MAXORDINAL)) with true
          by (symmetry; apply andb_true_iff; unfold MAXORDINAL; split;
              [apply Z.ltb_lt | apply Z.leb_le]; lia)
    end;
    cbn [fbind];
    repeat
      (cbn [send_date_loop next_business_loop delivery_gap_loop fbind];
       match goal with
       | |- context [non_business h (fromordinal ?x)] =>
           first
             [ rewrite (Hclosed x)
                 by (try lia; revert Hc;
                     Z.to_euclidean_division_equations; lia)
             | rewrite (Hopen x)
                 by (try lia; revert Hc;
                     Z.to_euclidean_division_equations; lia) ]
       | |- context [add_days (fromordinal ?x) ?n] =>
           rewrite (add_days_in_range x n) by (unfold MAXORDINAL; lia)
       | |- context [4 <? days_between (fromordinal ?x) (fromordinal ?y)] =>
           unfold days_between; rewrite !toordinal_fromordinal;
           replace (4 <? x - y) with false
             by (symmetry; apply Z.ltb_ge; lia)
       end);
    try rewrite <- Hfb;
    apply f_equal, f_equal, f_equal2; apply f_equal; lia.
Qed.

End Holidays.

Lemma postcard_send_date_window_witness :
  exists days_before,
    delivery_schedule (weekday (mkdate 2024 12 29)) = Return days_before
    /\ 1 <= days_before <= 3
    /\ days_before <= days_between (mkdate 2024 12 29) (mkdate 2024 12 26).
Proof.
  destruct (postcard_send_date_window crowded (mkdate 2024 12 29)
              (mkdate 2024 12 1) (mkdate 2024 12 26) 7 eq_refl eq_refl)
    as (n & H1 & H2 & H3 & _).
  exists n. auto.
Defined.

Lemma postcard_dates_plain_week_witness :
  postcard_dates (fun _ => no_holidays) 3 (mkdate 2024 12 29)
    (mkdate 2024 12 1)
  = Some (Return (mkdate 2024 12 27, mkdate 2024 12 30)).
Proof.
  apply (postcard_dates_plain_week (fun _ => no_holidays)
           (mkdate 2024 12 29) (mkdate 2024 12 1) 3 eq_refl).
  - vm_compute. split; [discriminate | reflexivity].
  - apply le_n.
  - reflexivity.
Defined.

End SchedulerMore.

(** ** The birthday book *)

Module BirthdaysFacts.
Import PyDate PyDateFacts Scheduler SchedulerFacts Birthdays.

(** *** Dicts *)

Lemma get_set_same {V : Type} key (v : V) d : get key (set key v d) = Some v.
Proof.
  induction d as [|[k x] rest IH]; simpl.
  - now rewrite String.eqb_refl.
  - destruct (String.eqb k key) eqn:E; simpl; now rewrite E.
Qed.

Lemma get_set_other {V : Type} key key' (v : V) d :
  key' <> key -> get key' (set key v d) = get key' d.
Proof.
  intros Hne. induction d as [|[k x] rest IH]; simpl.
  - destruct (String.eqb_spec key key'); [congruence | reflexivity].
  - destruct (String.eqb_spec k key) as [->|Hk]; simpl.
    + destruct (String.eqb_spec key key'); [congruence | reflexivity].
    + now rewrite IH.
Qed.

Lemma get_In {V : Type} key (v : V) d : get key d = Some v -> In (key, v) d.
Proof.
  induction d as [|[k x] rest IH]; simpl; [discriminate|].
  destruct (String.eqb_spec k key) as [->|Hk].
  - intros [= ->]. now left.
  - intros H. right. now apply IH.
Qed.

Lemma get_None {V : Type} key (d : dict V) :
  get key d = None <-> ~ In key (map fst d).
Proof.
  induction d as [|[k x] rest IH]; simpl; [tauto|].
  destruct (String.eqb_spec k key) as [->|Hk].
  - split; [discriminate | tauto].
  - rewrite IH. tauto.
Qed.

Lemma In_get {V : Type} key (v : V) d :
  distinct_keys d -> In (key, v) d -> get key d = Some v.
Proof.
  unfold distinct_keys.
  induction d as [|[k x] rest IH]; simpl; [tauto|].
  intros Hd [[= -> ->]|Hin].
  - now rewrite String.eqb_refl.
  - inversion Hd as [|? ? Hk Hrest]; subst.
    destruct (String.eqb_spec k key) as [->|Hne].
    + exfalso. apply Hk. now apply (in_map fst) in Hin.
    + now apply IH.
Qed.

Lemma set_keys {V : Type} key (v : V) d :
  map fst (set key v d)
  = if contains key d then map fst d else map fst d ++ [key].
Proof.
  unfold contains. induction d as [|[k x] rest IH]; simpl; [reflexivity|].
  destruct (String.eqb_spec k key) as [->|Hk]; simpl; [reflexivity|].
  rewrite IH. now destruct (get key rest).
Qed.

Lemma set_distinct {V : Type} key (v : V) d :
  distinct_keys d -> distinct_keys (set key v d).
Proof.
  unfold distinct_keys. intros Hd. rewrite set_keys.
  unfold contains. destruct (get key d) eqn:G; [exact Hd|].
  apply get_None in G.
  apply NoDup_rev in Hd. rewrite <- (rev_involutive (map fst d ++ [key])).
  apply NoDup_rev. rewrite rev_app_distr. simpl.
  constructor; [now rewrite <- in_rev | exact Hd].
Qed.

Lemma del_returns {V : Type} key (d : dict V) :
  contains key d = true -> exists d', del key d = Return d'.
Proof.
  unfold contains. induction d as [|[k x] rest IH]; simpl; [discriminate|].
  destruct (String.eqb k key); [eauto|].
  intros H. destruct (IH H) as (d' & ->). eauto.
Qed.

Lemma get_del {V : Type} key key' (d d' : dict V) :
  distinct_keys d -> del key d = Return d' ->
  get key' d' = if String.eqb key' key then None else get key' d.
Proof.
  unfold distinct_keys. revert d'.
  induction d as [|[k x] rest IH]; simpl; intros d' Hd; [discriminate|].
  inversion Hd as [|? ? Hk Hrest]; subst.
  destruct (String.eqb_spec k key) as [->|Hne].
  - intros [= <-]. destruct (String.eqb_spec key' key) as [->|Hne'].
    + now apply get_None.
    + destruct (String.eqb_spec key key'); [congruence | reflexivity].
  - destruct (del key rest) as [rest'|e] eqn:D; [|discriminate].
    intros [= <-]. simpl. rewrite (IH rest' Hrest eq_refl).
    destruct (String.eqb_spec k key') as [->|Hne'].
    + destruct (String.eqb_spec key' key); [congruence | reflexivity].
    + reflexivity.
Qed.

(** *** Splitting and joining *)

Lemma split_not_nil sep s : split sep s <> [].
Proof.
  destruct s as [|c rest]; simpl; [discriminate|].
  destruct (Ascii.eqb c sep); [discriminate|].
  destruct (split sep rest); discriminate.
Qed.

Lemma join_cons sep part rest :
  rest <> [] ->
  join (String sep "") (part :: rest)
  = (part ++ String sep (join (String sep "") rest))%string.
Proof. destruct rest; [congruence | reflexivity]. Qed.

Lemma join_split sep s : join (String sep "") (split sep s) = s.
Proof.
  induction s as [|c rest IH]; [reflexivity|].
  cbn [split]. destruct (Ascii.eqb_spec c sep) as [->|Hne].
  - rewrite join_cons by apply split_not_nil. simpl. now rewrite IH.
  - destruct (split sep rest) as [|part parts] eqn:E;
      [now apply split_not_nil in E|].
    rewrite <- IH. destruct parts; reflexivity.
Qed.

Lemma split_parts sep s :
  Forall (fun part => has_char sep part = false) (split sep s).
Proof.
  induction s as [|c rest IH]; simpl.
  - constructor; [reflexivity | constructor].
  - destruct (Ascii.eqb_spec c sep) as [->|Hne].
    + constructor; [reflexivity | exact IH].
    + destruct (split sep rest) as [|part parts]; simpl.
      * constructor; [|constructor]. simpl.
        destruct (Ascii.eqb_spec c sep); [congruence | reflexivity].
      * inversion IH; subst. constructor; [|assumption]. simpl.
        destruct (Ascii.eqb_spec c sep); [congruence | assumption].
Qed.

Lemma split_plain sep s : has_char sep s = false -> split sep s = [s].
Proof.
  induction s as [|c rest IH]; simpl; [reflexivity|].
  destruct (Ascii.eqb c sep); [discriminate|]. simpl.
  intros H. now rewrite IH.
Qed.

Lemma split_first sep a r :
  has_char sep a = false ->
  split sep (a ++ String sep r)%string = a :: split sep r.
Proof.
  induction a as [|c rest IH]; simpl.
  - now rewrite Ascii.eqb_refl.
  - destruct (Ascii.eqb c sep); [discriminate|]. simpl.
    intros H. now rewrite IH.
Qed.

Lemma split_last sep n d :
  has_char sep d = false ->
  split sep (n ++ String sep d)%string = split sep n ++ [d].
Proof.
  intros Hd. induction n as [|c rest IH]; simpl.
  - now rewrite Ascii.eqb_refl, split_plain.
  - destruct (Ascii.eqb c sep); [now rewrite IH|].
    rewrite IH. destruct (split sep rest) as [|part parts] eqn:E;
      [now apply split_not_nil in E | reflexivity].
Qed.

Lemma join_last sep (mid : list string) lst :
  mid <> [] ->
  join (String sep "") (mid ++ [lst])
  = (join (String sep "") mid ++ String sep lst)%string.
Proof.
  induction mid as [|part rest IH]; [congruence|]. intros _.
  destruct rest as [|part' rest'].
  - reflexivity.
  - change ((part :: part' :: rest') ++ [lst])
      with (part :: ((part' :: rest') ++ [lst])).
    rewrite (join_cons sep part ((part' :: rest') ++ [lst])) by discriminate.
    rewrite IH by discriminate.
    rewrite (join_cons sep part (part' :: rest')) by discriminate.
    generalize (join (String sep "") (part' :: rest')). intros j.
    induction part as [|c p IHp]; simpl; [reflexivity | now rewrite IHp].
Qed.

(** What /add makes of a well-formed text *)
Lemma add_parts command group name date :
  has_char space command = false ->
  has_char space group = false ->
  has_char space date = false ->
  let parts :=
    split space (command ++ " " ++ group ++ " " ++ name ++ " " ++ date)
  in
  (List.length parts <? 4)%nat = false
  /\ nth 1 parts "" = group
  /\ last parts "" = date
  /\ join " " (skipn 2 (removelast parts)) = name.
Proof.
  intros Hc Hg Hd parts. subst parts.
  change (command ++ " " ++ group ++ " " ++ name ++ " " ++ date)%string
    with (command ++ String space
            (group ++ String space (name ++ String space date)))%string.
  rewrite (split_first space command _ Hc).
  rewrite (split_first space group _ Hg).
  rewrite (split_last space name date Hd).
  pose proof (split_not_nil space name) as Hn.
  destruct (split space name) as [|part parts] eqn:E; [congruence|].
  repeat split.
  - apply Nat.ltb_ge. simpl. rewrite length_app. simpl. lia.
  - change (command :: group :: (part :: parts) ++ [date])
      with ((command :: group :: part :: parts) ++ [date]).
    apply last_last.
  - change (command :: group :: (part :: parts) ++ [date])
      with ((command :: group :: part :: parts) ++ [date]).
    rewrite removelast_last. cbn [skipn].
    rewrite <- E. apply (join_split space).
Qed.

(** *** Dates *)

Ltac date_cmp :=
  unfold date_ltb, date_eqb in *; cbn [year month day] in *;
  repeat match goal with
         | H : context [?a <? ?b] |- _ => destruct (Z.ltb_spec a b)
         | |- context [?a <? ?b] => destruct (Z.ltb_spec a b)
         | H : context [?a =? ?b] |- _ => destruct (Z.eqb_spec a b)
         | |- context [?a =? ?b] => destruct (Z.eqb_spec a b)
         end;
  cbn [orb andb] in *; try congruence; try lia.

Lemma replace_year_returns d y r :
  replace_year d y = Return r ->
  valid_date r = true /\ r = mkdate y (month d) (day d).
Proof.
  unfold replace_year. intros H.
  apply date_new_returns in H as [Hv ->]. split; [exact Hv | reflexivity].
Qed.

(** What [next_occurrence] returns: the birthday's month and day in
    today's year, or in the next when that date is over, and the days from
    today to it, which are not negative. *)
Lemma next_occurrence_returns birthday_date today next days_left :
  valid_date today = true ->
  next_occurrence birthday_date today = Return (next, days_left) ->
  let m := month birthday_date in
  let d := day birthday_date in
  valid_date next = true
  /\ days_left = days_between next today
  /\ 0 <= days_left
  /\ valid_ymd (year today) m d = true
  /\ ((next = mkdate (year today) m d
       /\ date_ltb (mkdate (year today) m d) today = false)
      \/ (next = mkdate (year today + 1) m d
          /\ date_ltb (mkdate (year today) m d) today = true
          /\ 0 < days_left)).
Proof.
  intros Ht. unfold next_occurrence.
  destruct (replace_year birthday_date (year today)) as [c|e] eqn:R1;
    [|discriminate].
  apply replace_year_returns in R1 as [Hvc ->].
  destruct (date_ltb _ today) eqn:L.
  - destruct (replace_year _ (year today + 1)) as [n|e] eqn:R2;
      [|discriminate].
    apply replace_year_returns in R2 as [Hvn ->]. cbn [month day] in *.
    intros [= <- <-]. cbv zeta.
    assert (Hlt : toordinal today
                  < toordinal (mkdate (year today + 1) (month birthday_date)
                                 (day birthday_date))).
    { apply toordinal_lt; [exact Ht | exact Hvn |]. clear. date_cmp. }
    unfold days_between.
    repeat split; try assumption; try lia.
    right. repeat split; lia.
  - intros [= <- <-]. cbv zeta.
    pose proof (toordinal_le _ _ Hvc Ht L) as Hle.
    unfold days_between.
    repeat split; try assumption; try lia.
    left. split; reflexivity.
Qed.

(** *** Birthdays on 29 February *)

Lemma date_new_leap_day y :
  is_leap y = false -> exists e, date_new y 2 29 = Raise e.
Proof.
  intros Hl. unfold date_new, days_in_month. rewrite Hl.
  destruct (negb ((MINYEAR <=? y) && (y <=? MAXYEAR))); [eauto|].
  cbn. eauto.
Qed.

Lemma is_leap_next y : is_leap y = true -> is_leap (y + 1) = false.
Proof.
  unfold is_leap. intros H. apply andb_true_iff in H as [H _].
  apply Z.eqb_eq in H. apply andb_false_iff. left. apply Z.eqb_neq.
  revert H. Z.to_euclidean_division_equations. lia.
Qed.

(** [next_occurrence] raises for a birthday on 29 February unless today
    is in a leap year, on 29 February or before. *)
Lemma next_occurrence_leap_day birthday_date today :
  leap_day birthday_date = true ->
  is_leap (year today) = false
  \/ date_ltb (mkdate (year today) 2 29) today = true ->
  exists e, next_occurrence birthday_date today = Raise e.
Proof.
  unfold leap_day. intros Hb Hcase.
  apply andb_true_iff in Hb as [Hm Hd].
  apply Z.eqb_eq in Hm. apply Z.eqb_eq in Hd.
  unfold next_occurrence, replace_year. rewrite Hm, Hd.
  destruct (is_leap (year today)) eqn:L.
  - destruct Hcase as [Hcase|Hcase]; [discriminate|].
    destruct (date_new (year today) 2 29) as [c|e] eqn:N; [|eauto].
    apply date_new_returns in N as [_ ->]. rewrite Hcase.
    cbn [month day].
    destruct (date_new_leap_day (year today + 1) (is_leap_next _ L))
      as (e & ->). eauto.
  - destruct (date_new_leap_day (year today) L) as (e & ->). eauto.
Qed.

(** *** Entries *)

Lemma entry_set group name v grp (b : book) g n :
  get group b = Some grp ->
  entry g n (set group (set name v grp) b)
  = if String.eqb g group && String.eqb n name then Some v else entry g n b.
Proof.
  intros Hg. unfold entry.
  destruct (String.eqb_spec g group) as [->|Hne]; cbn [andb].
  - rewrite get_set_same, Hg.
    destruct (String.eqb_spec n name) as [->|Hn].
    + apply get_set_same.
    + now apply get_set_other.
  - now rewrite get_set_other.
Qed.

Lemma entry_replace_group group grp grp' (b : book) g n :
  get group b = Some grp ->
  entry g n (set group grp' b)
  = if String.eqb g group then get n grp' else entry g n b.
Proof.
  intros Hg. unfold entry.
  destruct (String.eqb_spec g group) as [->|Hne].
  - now rewrite get_set_same.
  - now rewrite get_set_other.
Qed.

Lemma entry_new_group group (b : book) g n :
  get group b = None -> entry g n (set group [] b) = entry g n b.
Proof.
  intros Hg. unfold entry.
  destruct (String.eqb_spec g group) as [->|Hne].
  - now rewrite get_set_same, Hg.
  - now rewrite get_set_other.
Qed.

(** The loop of /delete takes the name out of the first group that has
    it and out of no other. *)
Lemma delete_from_first_group_spec name : forall groups,
  (exists pre g0 grp0 grp0' post,
      groups = pre ++ (g0, grp0) :: post
      /\ (forall g grp, In (g, grp) pre -> contains name grp = false)
      /\ contains name grp0 = true
      /\ del name grp0 = Return grp0'
      /\ delete_from_first_group name groups
         = Return (Some (pre ++ (g0, grp0') :: post)))
  \/ ((forall g grp, In (g, grp) groups -> contains name grp = false)
      /\ delete_from_first_group name groups = Return None).
Proof.
  induction groups as [|[g grp] rest IH]; simpl.
  - right. split; [tauto | reflexivity].
  - destruct (contains name grp) eqn:C.
    + left. destruct (del_returns name grp C) as (grp' & D).
      exists [], g, grp, grp', rest. rewrite D. simpl.
      repeat split; try assumption; tauto.
    + destruct IH as [(pre & g0 & grp0 & grp0' & post & -> & Hpre & C0 & D & E)
                     |[Hall E]].
      * left. exists ((g, grp) :: pre), g0, grp0, grp0', post.
        rewrite E. simpl. repeat split; try assumption.
        intros g1 grp1 [[= <- <-]|Hin]; [exact C | eauto].
      * right. rewrite E. simpl. split; [|reflexivity].
        intros g1 grp1 [[= <- <-]|Hin]; [exact C | eauto].
Qed.

(** *** Sorting by the days left *)

Lemma insert_by_days_In x y l : In y (insert_by_days x l) <-> y = x \/ In y l.
Proof.
  induction l as [|z rest IH]; simpl.
  - intuition congruence.
  - destruct (snd x <=? snd z); simpl; [intuition congruence|].
    rewrite IH. intuition congruence.
Qed.

Lemma sorted_by_days_In y l : In y (sorted_by_days l) <-> In y l.
Proof.
  induction l as [|x rest IH]; simpl; [tauto|].
  rewrite insert_by_days_In, IH. intuition congruence.
Qed.

Lemma insert_by_days_sorted x l :
  StronglySorted (fun a b : string * date * Z => snd a <= snd b) l ->
  StronglySorted (fun a b : string * date * Z => snd a <= snd b)
    (insert_by_days x l).
Proof.
  induction l as [|z rest IH]; simpl; intros Hs.
  - constructor; [constructor | constructor].
  - inversion Hs as [|? ? Hrest Hall]; subst.
    destruct (Z.leb_spec (snd x) (snd z)).
    + constructor; [exact Hs|]. constructor; [assumption|].
      rewrite Forall_forall in *. intros w Hw.
      specialize (Hall w Hw). simpl in Hall. lia.
    + constructor; [now apply IH|].
      rewrite Forall_forall in *. intros w Hw.
      apply insert_by_days_In in Hw as [->|Hw]; [lia | now apply Hall].
Qed.

Lemma sorted_by_days_sorted l :
  StronglySorted (fun a b : string * date * Z => snd a <= snd b)
    (sorted_by_days l).
Proof.
  induction l as [|x rest IH]; simpl; [constructor|].
  now apply insert_by_days_sorted.
Qed.

Section Environment.

Variable AUTHORIZED_USER_ID : option string.
Variable strptime : string -> outcome date.
Variable strftime : date -> string.
Variable format_date_for_display : string -> outcome string.
Variable save_birthdays : book -> option exn.
Variable reply_to : reply -> option exn.
Variable send_message : string -> notification -> option exn.
Variable GROUP_CHAT_ID PERSONAL_CHAT_ID : option string.
Variable get_dutch_holidays : Z -> date -> bool.

(** X10.  The age in the /birthdays list.  For a line of the list the
    code got through, the age shown is the number of the last anniversary
    that is not after today: the birthday's month and day [age] years after
    the year of birth is today or before, [age + 1] years after it is still
    to come.  The days left count to that next anniversary, or are 0 when
    the [age]-th is today. *)
Theorem birthday_line_age
    (today : date) (name s : string) (birthday_date : date)
    (shown formatted : string) (age days_left : Z) :
  valid_date today = true ->
  strptime s = Return birthday_date ->
  birthday_line strptime format_date_for_display today name (Some s)
  = Return (Line shown formatted age days_left) ->
  let anniversary k :=
    mkdate (year birthday_date + k) (month birthday_date)
      (day birthday_date) in
  date_ltb today (anniversary age) = false
  /\ date_ltb today (anniversary (age + 1)) = true
  /\ 0 <= days_left
  /\ days_left
     = days_between (anniversary (if days_left =? 0 then age else age + 1))
         today.
Proof.
  intros Ht Hp. unfold birthday_line.
  destruct (is_set (Some s)); [|discriminate]. cbn [negb].
  rewrite Hp. cbn [obind].
  destruct (next_occurrence birthday_date today) as [[next k]|e] eqn:N;
    [|discriminate].
  cbn [obind snd].
  destruct (next_occurrence_returns _ _ _ _ Ht N)
    as (Hvn & Hk & Hk0 & Hvc & Hcase).
  unfold age_on. unfold replace_year.
  rewrite (date_new_valid _ _ _ Hvc). cbn [obind].
  destruct (format_date_for_display s) as [f|e]; [|discriminate].
  cbn [obind]. intros [= _ _ <- <-]. cbv beta zeta.
  set (m := month birthday_date) in *. set (d := day birthday_date) in *.
  set (Y := year today) in *. set (yb := year birthday_date) in *.
  assert (Hc : valid_date (mkdate Y m d) = true) by exact Hvc.
  destruct (date_ltb today (mkdate Y m d)) eqn:L.
  - (* the birthday of this year is still to come *)
    pose proof (toordinal_lt _ _ Ht Hc L) as Hlt.
    destruct Hcase as [[-> Hnb]|(-> & Hb & _)].
    2:{ pose proof (toordinal_lt _ _ Hc Ht Hb). lia. }
    replace (yb + (Y - yb - 1 + 1)) with Y by lia.
    replace (yb + (Y - yb - 1)) with (Y - 1) by lia.
    split; [subst Y; clear; date_cmp|].
    split; [exact L|]. split; [exact Hk0|].
    unfold days_between in Hk.
    replace (k =? 0) with false by (symmetry; apply Z.eqb_neq; lia).
    replace (yb + (Y - yb - 1 + 1)) with Y by lia. exact Hk.
  - replace (yb + (Y - yb + 1)) with (Y + 1) by lia.
    replace (yb + (Y - yb)) with Y by lia.
    split; [exact L|].
    split; [subst Y; clear; date_cmp|]. split; [exact Hk0|].
    destruct Hcase as [[-> Hnb]|(-> & Hb & Hpos)].
    + pose proof (toordinal_le _ _ Ht Hc L) as H1.
      pose proof (toordinal_le _ _ Hc Ht Hnb) as H2.
      unfold days_between in Hk.
      replace (k =? 0) with true by (symmetry; apply Z.eqb_eq; lia).
      replace (yb + (Y - yb)) with Y by lia. exact Hk.
    + replace (k =? 0) with false by (symmetry; apply Z.eqb_neq; lia).
      replace (yb + (Y - yb + 1)) with (Y + 1) by lia. exact Hk.
Qed.

Local Abbreviation add_to_dict :=
  (add_birthday_to_dict AUTHORIZED_USER_ID format_date_for_display
     save_birthdays reply_to).
Local Abbreviation add := 
  (add_birthday AUTHORIZED_USER_ID strptime strftime format_date_for_display
     save_birthdays reply_to).
Local Abbreviation remove :=
  (remove_birthday AUTHORIZED_USER_ID save_birthdays reply_to).
Local Abbreviation is_authorized := (authorized AUTHORIZED_USER_ID).

Lemma send_reply_birthdays r s :
  birthdays (snd (send_reply reply_to r s)) = birthdays s
  /\ saved (snd (send_reply reply_to r s)) = saved s.
Proof. unfold send_reply. destruct (reply_to r); split; reflexivity. Qed.

Lemma save_birthdays_same s :
  birthdays (snd (save save_birthdays s)) = birthdays s.
Proof. unfold save. now destruct (save_birthdays (birthdays s)). Qed.

(** After [birthdays[group][name] = birthday] nothing changes the book. *)
Lemma store_tail group name v (r : string -> reply) s :
  birthdays
    (snd ((set_entry group name v ;;~~
           save save_birthdays ;;~~
           formatted_birthday <~~ hlift (format_date_for_display v) ;;
           send_reply reply_to (r formatted_birthday)) s))
  = birthdays (snd (set_entry group name v s)).
Proof.
  unfold hbind at 1.
  destruct (set_entry group name v s) as [[[]|e] s1]; [|reflexivity].
  cbn [snd]. unfold hbind at 1.
  pose proof (save_birthdays_same s1) as Hs.
  destruct (save save_birthdays s1) as [[[]|e] s2]; cbn [snd] in *;
    [|exact Hs].
  unfold hbind, hlift.
  destruct (format_date_for_display v) as [f|e]; [|exact Hs].
  rewrite <- Hs. apply send_reply_birthdays.
Qed.

(** What [add_birthday_to_dict] does to the entries: it sets the one it
    was called for, when that is new or the user is the authorized one, and
    touches no other. *)
Lemma add_to_dict_entry group name v m s g n :
  entry g n (birthdays (snd (add_to_dict group name v m s)))
  = if String.eqb g group && String.eqb n name
       && (match entry group name (birthdays s) with
           | Some _ => false
           | None => true
           end || is_authorized m)
    then Some (Some v)
    else entry g n (birthdays s).
Proof.
  unfold add_birthday_to_dict. unfold hbind at 1.
  set (s0 := if contains group (birthdays s) then s
             else mkstate (set group [] (birthdays s)) (saved s) (replies s)).
  assert (E0 : (if contains group (birthdays s) then (Return tt, s)
                else set_birthdays (set group [] (birthdays s)) s)
               = (Return tt, s0)).
  { subst s0. now destruct (contains group (birthdays s)). }
  rewrite E0. clear E0.
  assert (Hent : forall g n,
             entry g n (birthdays s0) = entry g n (birthdays s)).
  { intros g1 n1. subst s0. unfold contains.
    destruct (get group (birthdays s)) eqn:G; [reflexivity|].
    now apply entry_new_group. }
  assert (Hgrp : exists grp, get group (birthdays s0) = Some grp
                   /\ forall n, get n grp = entry group n (birthdays s)).
  { subst s0. unfold contains, entry.
    destruct (get group (birthdays s)) as [grp|] eqn:G.
    - exists grp. now rewrite G.
    - exists []. cbn [birthdays]. now rewrite get_set_same. }
  destruct Hgrp as (grp & Hg & Hnames).
  unfold hbind at 1. rewrite Hg.
  assert (Hset : forall r,
    entry g n
      (birthdays
         (snd ((set_entry group name v ;;~~
                save save_birthdays ;;~~
                formatted_birthday <~~ hlift (format_date_for_display v) ;;
                send_reply reply_to (r formatted_birthday)) s0)))
    = if String.eqb g group && String.eqb n name then Some (Some v)
      else entry g n (birthdays s)).
  { intros r. rewrite store_tail. unfold set_entry. rewrite Hg.
    cbn [snd birthdays]. rewrite (entry_set _ _ _ _ _ _ _ Hg).
    now rewrite Hent. }
  rewrite <- Hnames. unfold contains.
  destruct (get name grp) as [old|] eqn:Gn; cbn [orb].
  - destruct (is_authorized m) eqn:A.
    + rewrite (Hset (AddedWithReminder name group)).
      now rewrite andb_true_r.
    + rewrite andb_false_r.
      rewrite (proj1 (send_reply_birthdays _ _)). apply Hent.
  - rewrite (Hset (Added name group)). now rewrite andb_true_r.
Qed.

Lemma add_to_dict_entries group name v m s g n :
  entry g n (birthdays (snd (add_to_dict group name v m s)))
  = entry g n (birthdays s)
  \/ (g = group /\ n = name
      /\ (entry group name (birthdays s) = None \/ is_authorized m = true)
      /\ entry g n (birthdays (snd (add_to_dict group name v m s)))
         = Some (Some v)).
Proof.
  rewrite add_to_dict_entry.
  destruct (String.eqb_spec g group) as [->|]; cbn [andb]; [|now left].
  destruct (String.eqb_spec n name) as [->|]; cbn [andb]; [|now left].
  destruct (entry group name (birthdays s)) eqn:E; cbn [orb].
  - destruct (is_authorized m); [|now left].
    right. repeat split; auto.
  - right. repeat split; auto.
Qed.

(** The same for the whole /add command. *)
Lemma add_entries m s g n :
  entry g n (birthdays (snd (add m s))) = entry g n (birthdays s)
  \/ ((exists b, entry g n (birthdays (snd (add m s))) = Some (Some b))
      /\ (entry g n (birthdays s) = None \/ is_authorized m = true)).
Proof.
  set (P := fun r : outcome unit * state =>
              entry g n (birthdays (snd r)) = entry g n (birthdays s)
              \/ ((exists b, entry g n (birthdays (snd r)) = Some (Some b))
                  /\ (entry g n (birthdays s) = None
                      \/ is_authorized m = true))).
  change (P (add m s)).
  assert (Hreply : forall r s1, P (Return tt, s1) -> P (send_reply reply_to r s1)).
  { intros r s1 H. unfold P in *. cbn [snd] in H.
    now rewrite (proj1 (send_reply_birthdays r s1)). }
  assert (Hsame : forall o, P (o, s)) by (intros o; left; reflexivity).
  assert (Hout : forall o s1, P (Return tt, s1) -> P (o, s1))
    by (intros o s1 H; exact H).
  assert (Hback : forall (c : H unit) s0,
            P (c s0) ->
            P (except_ValueError c
                 (fun error => send_reply reply_to (InvalidAddFormat error))
                 s0)).
  { intros c s0. unfold except_ValueError.
    destruct (c s0) as [[[]|e] s1]; intros Hr; try exact Hr.
    destruct e; try exact Hr. apply Hreply. exact Hr. }
  unfold add_birthday. apply Hback.
  destruct (List.length (split space (text m)) <? 4)%nat.
  { apply Hsame. }
  set (group := nth 1 (split space (text m)) "").
  set (date := last (split space (text m)) "").
  set (name := join " " (skipn 2 (removelast (split space (text m))))).
  destruct (validate strptime strftime date) as [[]|e] eqn:V.
  - unfold P.
    destruct (add_to_dict_entries group name date m s g n)
      as [H|(-> & -> & Hnew & H)]; [now left|].
    right. split; [eauto | exact Hnew].
  - destruct e; try apply Hsame. apply Hreply, Hsame.
Qed.

(** X11.  Who may change what.  A user other than the authorized one
    cannot change the book with /delete, whatever the text, and cannot
    change an entry that exists with /add: every name that had an entry
    keeps it, birthday or none. *)
Theorem unauthorized_user_cannot_edit (m : message) (s : state) :
  is_authorized m = false ->
  birthdays (snd (remove m s)) = birthdays s
  /\ saved (snd (remove m s)) = saved s
  /\ forall group name b,
       entry group name (birthdays s) = Some b ->
       entry group name (birthdays (snd (add m s))) = Some b.
Proof.
  intros Hno. unfold remove_birthday. rewrite Hno. cbn [negb].
  split; [apply send_reply_birthdays|].
  split; [apply send_reply_birthdays|].
  intros group name b Hb.
  destruct (add_entries m s group name) as [H|[_ [H|H]]]; congruence.
Qed.

(** X12.  /add, then look up.  For a text "command group name date" with
    no space in the command, the group and the date (the name may have
    spaces), a date that [strptime] and [strftime] take there and back, and
    a name that is new in the group or a user who is the authorized one:
    when saving, formatting and replying go through, /add returns with the
    date stored under the group and the name, every other entry as it was,
    and the book it leaves is the one last written to the file. *)
Theorem add_then_lookup
    (m : message) (s : state) (birthday_date : date)
    (command group name date formatted : string) :
  text m = (command ++ " " ++ group ++ " " ++ name ++ " " ++ date)%string ->
  has_char space command = false ->
  has_char space group = false ->
  has_char space date = false ->
  strptime date = Return birthday_date ->
  strftime birthday_date = date ->
  entry group name (birthdays s) = None \/ is_authorized m = true ->
  (forall b, save_birthdays b = None) ->
  format_date_for_display date = Return formatted ->
  (forall r, reply_to r = None) ->
  let '(o, s') := add m s in
  o = Return tt
  /\ entry group name (birthdays s') = Some (Some date)
  /\ (forall g n, (g, n) <> (group, name) ->
        entry g n (birthdays s') = entry g n (birthdays s))
  /\ saved s' = saved s ++ [birthdays s']
  /\ exists r, replies s' = replies s ++ [r]
       /\ (r = Added name group formatted
           \/ r = AddedWithReminder name group formatted).
Proof.
  intros Ht Hc Hg Hd Hp Hf Hnew Hsave Hfmt Hreply.
  unfold add_birthday, except_ValueError. rewrite Ht.
  destruct (add_parts command group name date Hc Hg Hd)
    as (Hlen & Hgroup & Hdate & Hname).
  cbv zeta in Hlen, Hgroup, Hdate, Hname.
  rewrite Hlen, Hgroup, Hdate, Hname.
  unfold validate. rewrite Hp. cbn [obind].
  rewrite Hf, String.eqb_refl. cbn [negb].
  unfold add_birthday_to_dict. unfold hbind at 1.
  set (s0 := if contains group (birthdays s) then s
             else mkstate (set group [] (birthdays s)) (saved s) (replies s)).
  assert (E0 : (if contains group (birthdays s) then (Return tt, s)
                else set_birthdays (set group [] (birthdays s)) s)
               = (Return tt, s0)).
  { subst s0. now destruct (contains group (birthdays s)). }
  rewrite E0. clear E0.
  assert (Hent : forall g n,
             entry g n (birthdays s0) = entry g n (birthdays s)).
  { intros g1 n1. subst s0. unfold contains.
    destruct (get group (birthdays s)) eqn:G; [reflexivity|].
    now apply entry_new_group. }
  assert (Hrest : saved s0 = saved s /\ replies s0 = replies s).
  { subst s0. now destruct (contains group (birthdays s)). }
  destruct Hrest as [Hsv Hrp].
  assert (Hgrp : exists grp, get group (birthdays s0) = Some grp
                   /\ forall n, get n grp = entry group n (birthdays s)).
  { subst s0. unfold contains, entry.
    destruct (get group (birthdays s)) as [grp|] eqn:G.
    - exists grp. now rewrite G.
    - exists []. cbn [birthdays]. now rewrite get_set_same. }
  destruct Hgrp as (grp & Hgs & Hnames).
  unfold hbind at 1. rewrite Hgs.
  assert (Hstore : forall r : string -> reply,
    (set_entry group name date ;;~~
     save save_birthdays ;;~~
     formatted_birthday <~~ hlift (format_date_for_display date) ;;
     send_reply reply_to (r formatted_birthday)) s0
    = (Return tt,
       mkstate (set group (set name (Some date) grp) (birthdays s0))
         (saved s ++ [set group (set name (Some date) grp) (birthdays s0)])
         (replies s ++ [r formatted]))).
  { intros r. unfold hbind, set_entry, save, hlift, send_reply.
    rewrite Hgs. cbn [birthdays saved replies].
    rewrite Hsave, Hfmt, Hreply. cbn [birthdays saved replies].
    now rewrite Hsv, Hrp. }
  assert (Hfinal : forall r : string -> reply,
    r = Added name group \/ r = AddedWithReminder name group ->
    let '(o, s') :=
      (Return tt,
       mkstate (set group (set name (Some date) grp) (birthdays s0))
         (saved s ++ [set group (set name (Some date) grp) (birthdays s0)])
         (replies s ++ [r formatted])) in
    o = Return tt
    /\ entry group name (birthdays s') = Some (Some date)
    /\ (forall g n, (g, n) <> (group, name) ->
          entry g n (birthdays s') = entry g n (birthdays s))
    /\ saved s' = saved s ++ [birthdays s']
    /\ exists r0, replies s' = replies s ++ [r0]
         /\ (r0 = Added name group formatted
             \/ r0 = AddedWithReminder name group formatted)).
  { intros r Hr. cbn [birthdays saved replies].
    split; [reflexivity|].
    split; [rewrite (entry_set _ _ _ _ _ _ _ Hgs);
            now rewrite !String.eqb_refl|].
    split.
    { intros g n Hne. rewrite (entry_set _ _ _ _ _ _ _ Hgs), Hent.
      destruct (String.eqb_spec g group) as [->|]; [|reflexivity].
      destruct (String.eqb_spec n name) as [->|]; [congruence|reflexivity]. }
    split; [reflexivity|].
    exists (r formatted). split; [reflexivity|].
    destruct Hr as [->| ->]; auto. }
  unfold contains. destruct (get name grp) as [old|] eqn:Gn.
  - destruct Hnew as [Hnone|Hauth]; [rewrite Hnames in Gn; congruence|].
    rewrite Hauth, (Hstore (AddedWithReminder name group)).
    apply (Hfinal (AddedWithReminder name group)). now right.
  - rewrite (Hstore (Added name group)).
    apply (Hfinal (Added name group)). now left.
Qed.

(** X13.  /delete takes the name out of one group.  For the authorized
    user and a text "command name" (the name may have spaces), when saving
    and replying go through: if no group has the name the book stays as it
    is and the reply says so; otherwise the first group that has the name
    loses it and nothing else changes, so a later group that has the same
    name keeps it, and the book is written to the file. *)
Theorem delete_removes_from_first_group
    (m : message) (s : state) (command name : string) :
  is_authorized m = true ->
  text m = (command ++ " " ++ name)%string ->
  has_char space command = false ->
  (forall b, save_birthdays b = None) ->
  (forall r, reply_to r = None) ->
  let '(o, s') := remove m s in
  o = Return tt
  /\ ((forall g grp, In (g, grp) (birthdays s) -> contains name grp = false) ->
      birthdays s' = birthdays s /\ saved s' = saved s
      /\ replies s' = replies s ++ [NotFound name])
  /\ (forall pre g0 grp0 post,
        birthdays s = pre ++ (g0, grp0) :: post ->
        (forall g grp, In (g, grp) pre -> contains name grp = false) ->
        contains name grp0 = true ->
        distinct_keys grp0 ->
        exists grp0',
          birthdays s' = pre ++ (g0, grp0') :: post
          /\ get name grp0' = None
          /\ (forall n, n <> name -> get n grp0' = get n grp0)
          /\ saved s' = saved s ++ [birthdays s']
          /\ replies s' = replies s ++ [Removed name]).
Proof.
  intros Hauth Ht Hc Hsave Hreply.
  unfold remove_birthday, except_ValueError. rewrite Hauth, Ht. cbn [negb].
  change (command ++ " " ++ name)%string
    with (command ++ String space name)%string.
  rewrite (split_first space command name Hc).
  pose proof (split_not_nil space name) as Hn.
  replace (List.length (command :: split space name) <? 2)%nat with false
    by (symmetry; apply Nat.ltb_ge; destruct (split space name);
        [congruence | simpl; lia]).
  cbn [skipn].
  change (join " " (split space name))
    with (join (String space "") (split space name)).
  rewrite (join_split space name).
  unfold hbind at 1. unfold hlift.
  destruct (delete_from_first_group_spec name (birthdays s))
    as [(pre & g0 & grp0 & grp0' & post & Hb & Hpre & C0 & D & ->)
       |[Hall ->]].
  - unfold hbind, set_birthdays, save, send_reply.
    cbn [birthdays saved replies]. rewrite Hsave, Hreply.
    cbn [birthdays saved replies].
    split; [reflexivity|]. split.
    + intros Hnone. rewrite Hb in Hnone.
      rewrite (Hnone g0 grp0) in C0; [discriminate|].
      apply in_or_app. right. now left.
    + intros pre1 g1 grp1 post1 Hb1 Hpre1 C1 Hd1.
      assert (Hsame : pre1 = pre /\ g1 = g0 /\ grp1 = grp0 /\ post1 = post).
      { rewrite Hb in Hb1. clear - Hb1 Hpre Hpre1 C0 C1.
        revert pre1 Hb1 Hpre1.
        induction pre as [|[g grp] pre IH]; intros [|[g' grp'] pre1];
          simpl; intros Hb1 Hpre1.
        - injection Hb1 as <- <- <-. auto.
        - injection Hb1 as <- <- _.
          rewrite (Hpre1 g0 grp0) in C0 by now left. discriminate.
        - injection Hb1 as -> -> _.
          rewrite (Hpre g1 grp1) in C1 by now left. discriminate.
        - injection Hb1 as <- <- Hb1.
          destruct (IH (fun g grp H => Hpre g grp (or_intror H)) pre1 Hb1
                      (fun g grp H => Hpre1 g grp (or_intror H)))
            as (-> & -> & -> & ->). auto. }
      destruct Hsame as (-> & -> & -> & ->).
      exists grp0'. split; [reflexivity|].
      split; [rewrite (get_del _ name _ _ Hd1 D);
              now rewrite String.eqb_refl|].
      split; [|split; reflexivity].
      intros n Hne. rewrite (get_del _ n _ _ Hd1 D).
      destruct (String.eqb_spec n name); [congruence | reflexivity].
  - unfold send_reply. rewrite Hreply.
    split; [reflexivity|]. split.
    + intros _. repeat split.
    + intros pre1 g1 grp1 post1 Hb1 _ C1 _.
      rewrite (Hall g1 grp1) in C1; [discriminate|].
      rewrite Hb1. apply in_or_app. right. now left.
Qed.

(** *** The next birthday *)

Local Abbreviation set_entry_of grp n str :=
  (In (n, Some str) grp /\ str <> "").

Lemma is_set_Some str : is_set (Some str) = true <-> str <> "".
Proof.
  unfold is_set. destruct (String.eqb_spec str ""); simpl; split;
    congruence.
Qed.

Lemma is_set_inv b :
  is_set b = true -> exists str, b = Some str /\ str <> "".
Proof.
  destruct b as [str|]; [|discriminate].
  intros H. exists str. split; [reflexivity | now apply is_set_Some].
Qed.

Lemma less_than_best_min k best :
  let best' := if less_than_best k best then Some k else best in
  (exists m, best' = Some m /\ m <= k)
  /\ (forall m0, best = Some m0 -> exists m, best' = Some m /\ m <= m0).
Proof.
  unfold less_than_best. destruct best as [b|]; cbv zeta.
  - destruct (Z.ltb_spec k b); split.
    + exists k. split; [reflexivity | lia].
    + intros m0 [= ->]. exists k. split; [reflexivity | lia].
    + exists b. split; [reflexivity | lia].
    + intros m0 [= ->]. exists m0. split; [reflexivity | lia].
  - split; [exists k; split; [reflexivity | lia] | discriminate].
Qed.

Lemma next_in_group_spec today : forall grp best best',
  next_in_group strptime today grp best = Return best' ->
  (forall n str, In (n, Some str) grp -> str <> "" ->
     exists bd next k m,
       strptime str = Return bd
       /\ next_occurrence bd today = Return (next, k)
       /\ snd best' = Some m /\ m <= k)
  /\ (forall m0, snd best = Some m0 ->
        exists m, snd best' = Some m /\ m <= m0)
  /\ (best' = best
      \/ exists n str bd next m,
           best' = (Some n, Some m) /\ In (n, Some str) grp /\ str <> ""
           /\ strptime str = Return bd
           /\ next_occurrence bd today = Return (next, m)).
Proof.
  induction grp as [|[name b] rest IH]; intros best best'.
  - simpl. intros [= <-]. split; [intros ? ? []|].
    split; [eauto | now left].
    intros m0 H. exists m0. split; [exact H | lia].
  - cbn [next_in_group]. destruct (is_set b) eqn:Sb; cbn [negb].
    + destruct (is_set_inv b Sb) as (str & -> & Hne).
      destruct (strptime str) as [bd|e] eqn:P; [|discriminate].
      cbn [obind].
      destruct (next_occurrence bd today) as [[next k]|e] eqn:N;
        [|discriminate].
      cbn [obind snd]. intros Hrest.
      destruct (IH _ _ Hrest) as (Hall & Hmono & Hwho). clear IH.
      destruct (less_than_best_min k (snd best)) as [(m1 & Hm1 & Hk) Hb].
      assert (Hsnd : snd (if less_than_best k (snd best)
                          then (Some name, Some k) else best)
                     = if less_than_best k (snd best) then Some k
                       else snd best)
        by (destruct (less_than_best k (snd best)); reflexivity).
      rewrite Hsnd in Hmono.
      split; [|split].
      * intros n str' [[= <- <-]|Hin] Hne'.
        -- destruct (Hmono m1 Hm1) as (m & Hm & Hle).
           exists bd, next, k, m. repeat split; try assumption. lia.
        -- eauto.
      * intros m0 H0. destruct (Hb m0 H0) as (m2 & Hm2 & Hle2).
        destruct (Hmono m2 Hm2) as (m & Hm & Hle).
        exists m. split; [exact Hm | lia].
      * destruct Hwho as [->|(n & str' & bd' & next' & m & -> & Hin & Hr)].
        -- destruct (less_than_best k (snd best)); [|now left].
           right. exists name, str, bd, next, k.
           repeat split; try assumption. now left.
        -- right. exists n, str', bd', next', m.
           destruct Hr as (H1 & H2 & H3).
           repeat split; try assumption. now right.
    + intros Hrest. destruct (IH _ _ Hrest) as (Hall & Hmono & Hwho).
      split; [|split; [exact Hmono|]].
      * intros n str [E|Hin] Hne; [|eauto].
        injection E as -> ->. apply is_set_Some in Hne. congruence.
      * destruct Hwho as [->|(n & str' & bd' & next' & m & -> & Hin & Hr)];
          [now left|].
        right. exists n, str', bd', next', m.
        destruct Hr as (H1 & H2 & H3).
        repeat split; try assumption. now right.
Qed.

Lemma next_in_book_spec today : forall groups best best',
  next_in_book strptime today groups best = Return best' ->
  (forall g grp n str, In (g, grp) groups -> In (n, Some str) grp ->
     str <> "" ->
     exists bd next k m,
       strptime str = Return bd
       /\ next_occurrence bd today = Return (next, k)
       /\ snd best' = Some m /\ m <= k)
  /\ (forall m0, snd best = Some m0 ->
        exists m, snd best' = Some m /\ m <= m0)
  /\ (best' = best
      \/ exists g grp n str bd next m,
           best' = (Some n, Some m) /\ In (g, grp) groups
           /\ In (n, Some str) grp /\ str <> ""
           /\ strptime str = Return bd
           /\ next_occurrence bd today = Return (next, m)).
Proof.
  induction groups as [|[g grp] rest IH]; intros best best'.
  - simpl. intros [= <-]. split; [intros ? ? ? ? []|].
    split; [|now left].
    intros m0 H. exists m0. split; [exact H | lia].
  - cbn [next_in_book].
    destruct (next_in_group strptime today grp best) as [mid|e] eqn:G;
      [|discriminate].
    cbn [obind]. intros Hrest.
    destruct (next_in_group_spec _ _ _ _ G) as (Hall1 & Hmono1 & Hwho1).
    destruct (IH _ _ Hrest) as (Hall2 & Hmono2 & Hwho2).
    split; [|split].
    + intros g1 grp1 n str [[= <- <-]|Hin] Hn Hne.
      * destruct (Hall1 n str Hn Hne) as (bd & next & k & m1 & P & N & Hm1 & Hk).
        destruct (Hmono2 m1 Hm1) as (m & Hm & Hle).
        exists bd, next, k, m. repeat split; try assumption. lia.
      * eauto.
    + intros m0 H0. destruct (Hmono1 m0 H0) as (m1 & Hm1 & Hle1).
      destruct (Hmono2 m1 Hm1) as (m & Hm & Hle).
      exists m. split; [exact Hm | lia].
    + destruct Hwho2 as [->|(g2 & grp2 & n & str & bd & next & m & -> & Hin & Hr)].
      * destruct Hwho1 as [->|(n & str & bd & next & m & -> & Hin & Hr)];
          [now left|].
        right. exists g, grp, n, str, bd, next, m.
        destruct Hr as (H1 & H2 & H3).
        repeat split; try assumption. now left.
      * right. exists g2, grp2, n, str, bd, next, m.
        destruct Hr as (H1 & H2 & H3 & H4).
        repeat split; try assumption. now right.
Qed.

(** X14.  The next birthday.  When [get_next_birthday] returns, the days
    it returns are those of an entry of the book with a birthday set, to
    the next occurrence of that birthday; the name is that entry's; and no
    entry with a birthday set has fewer days to go.  The days are a
    number (and not the [inf] the search starts from) as soon as one
    birthday is set, and never negative. *)
Theorem get_next_birthday_is_soonest
    (today : date) (b : book) (name : option string) (days : option Z) :
  valid_date today = true ->
  get_next_birthday strptime today b = Return (name, days) ->
  (forall g grp n str, In (g, grp) b -> In (n, Some str) grp -> str <> "" ->
     exists bd next k m,
       strptime str = Return bd
       /\ next_occurrence bd today = Return (next, k)
       /\ days = Some m /\ m <= k)
  /\ (forall m, days = Some m ->
        0 <= m
        /\ exists g grp n str bd next,
             name = Some n /\ In (g, grp) b /\ In (n, Some str) grp
             /\ str <> "" /\ strptime str = Return bd
             /\ next_occurrence bd today = Return (next, m))
  /\ (days = None -> name = None).
Proof.
  intros Ht. unfold get_next_birthday. intros H.
  destruct (next_in_book_spec _ _ _ _ H) as (Hall & _ & Hwho).
  cbn [snd] in Hall. split; [exact Hall|].
  destruct Hwho as [[= -> ->]
                   |(g & grp & n & str & bd & next & m & [= -> ->] & Hr)].
  - split; [discriminate | reflexivity].
  - split; [|discriminate].
    intros m0 [= <-]. destruct Hr as (H1 & H2 & H3 & H4 & H5).
    split.
    + now destruct (next_occurrence_returns _ _ _ _ Ht H5) as (_ & _ & H0 & _).
    + exists g, grp, n, str, bd, next. repeat split; assumption.
Qed.

(** *** Upcoming birthdays *)

Lemma upcoming_in_group_spec today days : forall grp l,
  upcoming_in_group strptime today days grp = Return l ->
  forall n d k,
    In (n, d, k) l
    <-> (0 <= k <= days
         /\ exists str bd,
              In (n, Some str) grp /\ str <> ""
              /\ strptime str = Return bd
              /\ next_occurrence bd today = Return (d, k)).
Proof.
  induction grp as [|[name b] rest IH]; intros l.
  - simpl. intros [= <-] n d k. split; [intros [] |].
    intros (_ & ? & ? & [] & _).
  - cbn [upcoming_in_group]. destruct (is_set b) eqn:Sb; cbn [negb].
    + destruct (is_set_inv b Sb) as (str & -> & Hne).
      destruct (strptime str) as [bd|e] eqn:P; [|discriminate].
      cbn [obind].
      destruct (next_occurrence bd today) as [[next k0]|e] eqn:N;
        [|discriminate].
      cbn [obind].
      destruct (upcoming_in_group strptime today days rest) as [l0|e] eqn:U;
        [|discriminate].
      cbn [obind]. intros [= <-] n d k. specialize (IH l0 eq_refl n d k).
      assert (Hhead :
        (n, d, k) = (name, next, k0) /\ 0 <= k0 <= days
        <-> (0 <= k <= days
             /\ exists str' bd',
                  (name, Some str) = (n, Some str') /\ str' <> ""
                  /\ strptime str' = Return bd'
                  /\ next_occurrence bd' today = Return (d, k))).
      { split.
        - intros [[= -> -> ->] Hw]. split; [exact Hw|].
          exists str, bd. auto.
        - intros (Hw & str' & bd' & [= -> <-] & _ & P' & N').
          rewrite P in P'. injection P' as <-.
          rewrite N in N'. injection N' as <- <-. auto. }
      destruct ((0 <=? k0) && (k0 <=? days)) eqn:W.
      * apply andb_true_iff in W as [W1 W2].
        apply Z.leb_le in W1. apply Z.leb_le in W2.
        simpl. split.
        -- intros [E|Hin].
           ++ symmetry in E. destruct (proj1 Hhead (conj E (conj W1 W2)))
                as (Hw & str' & bd' & E' & Hr).
              split; [exact Hw|]. exists str', bd'. split; [now left | exact Hr].
           ++ destruct (proj1 IH Hin) as (Hw & str' & bd' & Hi & Hr).
              split; [exact Hw|]. exists str', bd'. split; [now right | exact Hr].
        -- intros (Hw & str' & bd' & [E|Hi] & Hr).
           ++ left. symmetry.
              apply (proj2 Hhead). split; [exact Hw|]. exists str', bd'. auto.
           ++ right. apply (proj2 IH). split; [exact Hw|]. exists str', bd'. auto.
      * split.
        -- intros Hin. destruct (proj1 IH Hin) as (Hw & str' & bd' & Hi & Hr).
           split; [exact Hw|]. exists str', bd'. split; [now right | exact Hr].
        -- intros (Hw & str' & bd' & [E|Hi] & Hr).
           ++ exfalso.
              destruct (proj2 Hhead) as [_ Hw0];
                [split; [exact Hw|]; exists str', bd'; auto|].
              apply andb_false_iff in W as [W|W];
                [apply Z.leb_gt in W | apply Z.leb_gt in W]; lia.
           ++ apply (proj2 IH). split; [exact Hw|]. exists str', bd'. auto.
    + intros Hrest n d k. rewrite (IH l Hrest n d k).
      split; intros (Hw & str' & bd' & Hi & Hr); (split; [exact Hw|]);
        exists str', bd'; (split; [|exact Hr]).
      * now right.
      * destruct Hi as [E|Hi]; [|exact Hi]. injection E as _ ->.
        destruct Hr as (Hne & _). apply is_set_Some in Hne. congruence.
Qed.

Lemma upcoming_in_book_spec today days : forall groups l,
  upcoming_in_book strptime today days groups = Return l ->
  forall n d k,
    In (n, d, k) l
    <-> (0 <= k <= days
         /\ exists g grp str bd,
              In (g, grp) groups /\ In (n, Some str) grp /\ str <> ""
              /\ strptime str = Return bd
              /\ next_occurrence bd today = Return (d, k)).
Proof.
  induction groups as [|[g grp] rest IH]; intros l.
  - simpl. intros [= <-] n d k. split; [intros [] |].
    intros (_ & ? & ? & ? & ? & [] & _).
  - cbn [upcoming_in_book].
    destruct (upcoming_in_group strptime today days grp) as [l1|e] eqn:U1;
      [|discriminate].
    cbn [obind].
    destruct (upcoming_in_book strptime today days rest) as [l2|e] eqn:U2;
      [|discriminate].
    cbn [obind]. intros [= <-] n d k.
    rewrite in_app_iff, (upcoming_in_group_spec _ _ _ _ U1 n d k),
      (IH l2 eq_refl n d k).
    split.
    + intros [(Hw & str & bd & Hi & Hr)|(Hw & g' & grp' & str & bd & Hg & Hr)];
        (split; [exact Hw|]).
      * exists g, grp, str, bd. split; [now left | auto].
      * exists g', grp', str, bd. split; [now right | auto].
    + intros (Hw & g' & grp' & str & bd & [[= <- <-]|Hg] & Hr).
      * left. split; [exact Hw|]. exists str, bd. exact Hr.
      * right. split; [exact Hw|]. exists g', grp', str, bd. auto.
Qed.

Lemma soon_in_group_upcoming today : forall grp,
  soon_in_group strptime today grp = upcoming_in_group strptime today 30 grp.
Proof.
  induction grp as [|[name b] rest IH]; [reflexivity|].
  cbn [soon_in_group upcoming_in_group]. rewrite IH.
  destruct (is_set b); reflexivity.
Qed.

Lemma soon_in_book_upcoming today : forall groups,
  soon_in_book strptime today groups
  = upcoming_in_book strptime today 30 groups.
Proof.
  induction groups as [|[g grp] rest IH]; [reflexivity|].
  cbn [soon_in_book upcoming_in_book].
  now rewrite IH, soon_in_group_upcoming.
Qed.

(** X16.  Upcoming birthdays.  What [get_upcoming_birthdays] returns is
    in the order of the days left, and holds exactly the entries with a
    birthday set whose next occurrence is today or within [days] days, each
    with that occurrence and the days to it.  The /soon command sends this
    very list for 30 days, or that there is none when it is empty. *)
Theorem upcoming_birthdays_sorted_and_complete
    (today : date) (days : Z) (s : state) (l : list (string * date * Z)) :
  get_upcoming_birthdays strptime today days (birthdays s) = Return l ->
  StronglySorted (fun a b : string * date * Z => snd a <= snd b) l
  /\ (forall n d k,
        In (n, d, k) l
        <-> (0 <= k <= days
             /\ exists g grp str bd,
                  In (g, grp) (birthdays s) /\ In (n, Some str) grp
                  /\ str <> "" /\ strptime str = Return bd
                  /\ next_occurrence bd today = Return (d, k)))
  /\ (days = 30 ->
      forall formatted,
        formatted_dates strftime format_date_for_display l
        = Return formatted ->
        (forall r, reply_to r = None) ->
        show_upcoming_birthdays strptime strftime format_date_for_display
          reply_to today s
        = (Return tt,
           mkstate (birthdays s) (saved s)
             (replies s ++ [match l with
                            | [] => NoUpcoming
                            | _ :: _ => Upcoming l formatted
                            end]))).
Proof.
  unfold get_upcoming_birthdays.
  destruct (upcoming_in_book strptime today days (birthdays s))
    as [l0|e] eqn:U; [|discriminate].
  cbn [obind]. intros [= <-].
  split; [apply sorted_by_days_sorted|]. split.
  - intros n d k. rewrite sorted_by_days_In.
    apply (upcoming_in_book_spec _ _ _ _ U).
  - intros -> formatted Hf Hreply.
    unfold show_upcoming_birthdays, hbind.
    rewrite soon_in_book_upcoming, U.
    destruct l0 as [|x rest].
    + unfold send_reply. now rewrite Hreply.
    + unfold hlift. rewrite Hf. unfold send_reply. rewrite Hreply.
      destruct (sorted_by_days (x :: rest)) as [|y l1] eqn:E; [|reflexivity].
      exfalso. assert (Hin : In x (sorted_by_days (x :: rest)))
        by (apply sorted_by_days_In; now left).
      now rewrite E in Hin.
Qed.

(** *** A birthday on 29 February *)

Section LeapDay.

Variable today : date.
Variable str : string.
Variable birthday_date : date.

Hypothesis parsed : strptime str = Return birthday_date.
Hypothesis not_empty : str <> "".
Hypothesis on_leap_day : leap_day birthday_date = true.
Hypothesis bad_year :
  is_leap (year today) = false
  \/ date_ltb (mkdate (year today) 2 29) today = true.

Lemma is_set_str : is_set (Some str) = true.
Proof. now apply is_set_Some. Qed.

Lemma next_in_group_leap : forall grp best n,
  In (n, Some str) grp ->
  exists e, next_in_group strptime today grp best = Raise e.
Proof.
  induction grp as [|[name b] rest IH]; intros best n; [intros []|].
  intros [[= -> ->]|Hin]; cbn [next_in_group].
  - rewrite is_set_str, parsed. cbn [negb obind].
    destruct (next_occurrence_leap_day _ today on_leap_day bad_year)
      as (e & ->). cbn [obind]. eauto.
  - destruct (negb (is_set b)); [exact (IH best n Hin)|].
    destruct (strptime match b with Some s0 => s0 | None => "" end)
      as [bd|e]; cbn [obind]; [|eauto].
    destruct (next_occurrence bd today) as [next|e]; cbn [obind];
      [exact (IH _ n Hin) | eauto].
Qed.

Lemma group_lines_leap : forall grp n,
  In (n, Some str) grp ->
  exists e,
    group_lines strptime format_date_for_display today grp = Raise e.
Proof.
  induction grp as [|[name b] rest IH]; intros n; [intros []|].
  intros [[= -> ->]|Hin]; cbn [group_lines].
  - unfold birthday_line. rewrite is_set_str, parsed. cbn [negb obind].
    destruct (next_occurrence_leap_day _ today on_leap_day bad_year)
      as (e & ->). cbn [obind]. eauto.
  - destruct (birthday_line _ _ today name b) as [l|e]; cbn [obind];
      [|eauto].
    destruct (IH n Hin) as (e & ->). cbn [obind]. eauto.
Qed.

Lemma upcoming_in_group_leap days : forall grp n,
  In (n, Some str) grp ->
  exists e, upcoming_in_group strptime today days grp = Raise e.
Proof.
  induction grp as [|[name b] rest IH]; intros n; [intros []|].
  intros [[= -> ->]|Hin]; cbn [upcoming_in_group].
  - rewrite is_set_str, parsed. cbn [negb obind].
    destruct (next_occurrence_leap_day _ today on_leap_day bad_year)
      as (e & ->). cbn [obind]. eauto.
  - destruct (negb (is_set b)); [exact (IH n Hin)|].
    destruct (strptime match b with Some s0 => s0 | None => "" end)
      as [bd|e]; cbn [obind]; [|eauto].
    destruct (next_occurrence bd today) as [[next k]|e]; cbn [obind];
      [|eauto].
    destruct (IH n Hin) as (e & ->). cbn [obind]. eauto.
Qed.

Lemma soon_in_group_leap : forall grp n,
  In (n, Some str) grp ->
  exists e, soon_in_group strptime today grp = Raise e.
Proof.
  induction grp as [|[name b] rest IH]; intros n; [intros []|].
  intros [[= -> ->]|Hin]; cbn [soon_in_group].
  - rewrite is_set_str, parsed. cbn [obind].
    destruct (next_occurrence_leap_day _ today on_leap_day bad_year)
      as (e & ->). cbn [obind]. eauto.
  - destruct (is_set b); [|exact (IH n Hin)].
    destruct (strptime match b with Some s0 => s0 | None => "" end)
      as [bd|e]; cbn [obind]; [|eauto].
    destruct (next_occurrence bd today) as [[next k]|e]; cbn [obind];
      [|eauto].
    destruct (IH n Hin) as (e & ->). cbn [obind]. eauto.
Qed.

(** X15.  A birthday on 29 February breaks the lists.  With one entry of
    the book set to a date that [strptime] reads as a 29 February, and
    today in a year that is not a leap year, or after 29 February of one:
    [get_next_birthday] and [get_upcoming_birthdays] raise, and /birthdays
    and /soon raise without a reply, whatever else the book holds. *)
Theorem leap_day_birthday_breaks_the_lists
    (s : state) (group name : string) (grp : dict birthday) (days : Z) :
  In (group, grp) (birthdays s) ->
  In (name, Some str) grp ->
  (exists e, get_next_birthday strptime today (birthdays s) = Raise e)
  /\ (exists e,
        get_upcoming_birthdays strptime today days (birthdays s) = Raise e)
  /\ (exists e,
        send_birthdays strptime format_date_for_display reply_to today s
        = (Raise e, s))
  /\ (exists e,
        show_upcoming_birthdays strptime strftime format_date_for_display
          reply_to today s
        = (Raise e, s)).
Proof.
  intros Hg Hn.
  assert (H1 : forall best,
            exists e, next_in_book strptime today (birthdays s) best
                      = Raise e).
  { revert Hg. generalize (birthdays s).
    induction b as [|[g1 grp1] rest IH]; [intros []|].
    intros [[= -> ->]|Hin] best; cbn [next_in_book].
    - destruct (next_in_group_leap grp best name Hn) as (e & ->).
      cbn [obind]. eauto.
    - destruct (next_in_group _ today grp1 best) as [mid|e]; cbn [obind];
        eauto. }
  assert (H2 : exists e,
            upcoming_in_book strptime today days (birthdays s) = Raise e).
  { revert Hg. generalize (birthdays s).
    induction b as [|[g1 grp1] rest IH]; [intros []|].
    intros [[= -> ->]|Hin]; cbn [upcoming_in_book].
    - destruct (upcoming_in_group_leap days grp name Hn) as (e & ->).
      cbn [obind]. eauto.
    - destruct (upcoming_in_group _ today days grp1) as [l|e];
        cbn [obind]; [|eauto].
      destruct (IH Hin) as (e & ->). cbn [obind]. eauto. }
  assert (H3 : exists e,
            book_lines strptime format_date_for_display today (birthdays s)
            = Raise e).
  { revert Hg. generalize (birthdays s).
    induction b as [|[g1 grp1] rest IH]; [intros []|].
    intros [[= -> ->]|Hin]; cbn [book_lines].
    - destruct (group_lines_leap grp name Hn) as (e & ->).
      cbn [obind]. eauto.
    - destruct (group_lines _ _ today grp1) as [l|e]; cbn [obind]; [|eauto].
      destruct (IH Hin) as (e & ->). cbn [obind]. eauto. }
  assert (H4 : exists e,
            soon_in_book strptime today (birthdays s) = Raise e).
  { revert Hg. generalize (birthdays s).
    induction b as [|[g1 grp1] rest IH]; [intros []|].
    intros [[= -> ->]|Hin]; cbn [soon_in_book].
    - destruct (soon_in_group_leap grp name Hn) as (e & ->).
      cbn [obind]. eauto.
    - destruct (soon_in_group _ today grp1) as [l|e]; cbn [obind]; [|eauto].
      destruct (IH Hin) as (e & ->). cbn [obind]. eauto. }
  split; [apply H1|]. split.
  { unfold get_upcoming_birthdays. destruct H2 as (e & ->).
    cbn [obind]. eauto. }
  split.
  { unfold send_birthdays. destruct H3 as (e & ->). eauto. }
  unfold show_upcoming_birthdays, hbind. destruct H4 as (e & ->). eauto.
Qed.

End LeapDay.

(** *** The daily check *)

Lemma date_eqb_eq a b : date_eqb a b = true -> a = b.
Proof.
  destruct a as [y1 m1 d1], b as [y2 m2 d2]. unfold date_eqb.
  cbn [year month day]. intros H.
  apply andb_true_iff in H as [H H3]. apply andb_true_iff in H as [H1 H2].
  apply Z.eqb_eq in H1, H2, H3. now subst.
Qed.

Local Abbreviation notify := (send_notification send_message GROUP_CHAT_ID
                                PERSONAL_CHAT_ID).
Local Abbreviation entry_check :=
  (check_entry strptime strftime format_date_for_display send_message
     GROUP_CHAT_ID PERSONAL_CHAT_ID get_dutch_holidays).
Local Abbreviation group_check :=
  (check_group strptime strftime format_date_for_display send_message
     GROUP_CHAT_ID PERSONAL_CHAT_ID get_dutch_holidays).
Local Abbreviation book_check :=
  (check_book strptime strftime format_date_for_display send_message
     GROUP_CHAT_ID PERSONAL_CHAT_ID get_dutch_holidays).
Local Abbreviation iteration :=
  (check_next_birthday_iteration strptime strftime format_date_for_display
     send_message GROUP_CHAT_ID PERSONAL_CHAT_ID get_dutch_holidays).

Lemma send_to_sent n : forall chat_ids o sent,
  send_to send_message chat_ids n = (o, sent) ->
  (forall c m, In (c, m) sent -> m = n /\ In (Some c) chat_ids /\ c <> "")
  /\ (o = Return tt ->
      forall c, In (Some c) chat_ids -> c <> "" -> In (c, n) sent).
Proof.
  induction chat_ids as [|chat_id rest IH]; intros o sent; simpl.
  - intros [= <- <-]. split; [intros ? ? [] | intros _ ? []].
  - destruct chat_id as [id|].
    + destruct (String.eqb_spec id "") as [->|Hne]; cbn [negb].
      * intros H. destruct (IH _ _ H) as [H1 H2]. split.
        -- intros c m Hin. destruct (H1 c m Hin) as (? & ? & ?). auto.
        -- intros Ho c [[= <-]|Hin] Hc; [congruence | auto].
      * destruct (send_message id n) as [e|].
        -- intros [= <- <-]. split; [intros ? ? [] | discriminate].
        -- destruct (send_to send_message rest n) as [o1 sent1] eqn:E.
           intros [= <- <-]. destruct (IH _ _ eq_refl) as [H1 H2]. split.
           ++ intros c m [[= <- <-]|Hin]; [auto|].
              destruct (H1 c m Hin) as (? & ? & ?). auto.
           ++ intros Ho c [[= <-]|Hin] Hc; [now left|].
              right. auto.
    + intros H. destruct (IH _ _ H) as [H1 H2]. split.
      * intros c m Hin. destruct (H1 c m Hin) as (? & ? & ?). auto.
      * intros Ho c [[=]|Hin] Hc. auto.
Qed.

Lemma and_then_inv c k o sent :
  and_then c k = Some (o, sent) ->
  exists o1 sent1,
    c = Some (o1, sent1)
    /\ ((exists e, o1 = Raise e /\ o = o1 /\ sent = sent1)
        \/ (o1 = Return tt
            /\ exists sent2, k = Some (o, sent2) /\ sent = sent1 ++ sent2)).
Proof.
  unfold and_then. destruct c as [[[[]|e] sent1]|]; [| |discriminate].
  - destruct k as [[o2 sent2]|]; [|discriminate].
    intros [= <- <-]. exists (Return tt), sent1. split; [reflexivity|].
    right. split; [reflexivity|]. exists sent2. auto.
  - intros [= <- <-]. exists (Raise e), sent1. split; [reflexivity|].
    left. exists e. auto.
Qed.

Lemma and_then_assoc a b c :
  and_then (and_then a b) c = and_then a (and_then b c).
Proof.
  unfold and_then.
  destruct a as [[[[]|e] s1]|]; try reflexivity.
  destruct b as [[[[]|e] s2]|]; try reflexivity.
  destruct c as [[o s3]|]; [|reflexivity].
  now rewrite app_assoc.
Qed.

Lemma check_group_app fuel now : forall g1 g2,
  group_check fuel now (g1 ++ g2)
  = and_then (group_check fuel now g1) (group_check fuel now g2).
Proof.
  induction g1 as [|[name b] rest IH]; intros g2.
  - simpl. unfold and_then. now destruct (group_check fuel now g2) as [[]|].
  - cbn [app check_group]. now rewrite IH, and_then_assoc.
Qed.

Lemma check_book_app fuel now : forall b1 b2,
  book_check fuel now (b1 ++ b2)
  = and_then (book_check fuel now b1) (book_check fuel now b2).
Proof.
  induction b1 as [|[g grp] rest IH]; intros b2.
  - simpl. unfold and_then. now destruct (book_check fuel now b2) as [[]|].
  - cbn [app check_book]. now rewrite IH, and_then_assoc.
Qed.

Section Turn.

Variable fuel : nat.
Variable now : datetime.

Local Abbreviation today := (date_of now).
Local Abbreviation due := (Birthdays.due strptime get_dutch_holidays fuel now).
Local Abbreviation due_in :=
  (Birthdays.due_in strptime get_dutch_holidays fuel now).

Lemma check_entry_sent name b o sent :
  entry_check fuel now name b = Some (o, sent) ->
  (forall c m, In (c, m) sent ->
     In (Some c) [GROUP_CHAT_ID; PERSONAL_CHAT_ID] /\ c <> ""
     /\ due name b m)
  /\ (o = Return tt ->
      forall str bd next,
        b = Some str -> str <> "" -> strptime str = Return bd ->
        next_occurrence bd today = Return (next, 1) ->
        forall c, In (Some c) [GROUP_CHAT_ID; PERSONAL_CHAT_ID] ->
          c <> "" -> In (c, BirthdayTomorrow name) sent).
Proof.
  unfold check_entry. destruct (is_set b) eqn:Sb.
  2:{ intros [= <- <-]. split; [intros ? ? []|].
      intros _ str bd next -> Hne. apply is_set_Some in Hne. congruence. }
  destruct (is_set_inv b Sb) as (str & -> & Hne).
  destruct (strptime str) as [bd|e] eqn:P.
  2:{ intros H.
      assert (Hs : sent = []).
      { destruct e; injection H as _ <-; reflexivity. }
      subst sent. split; [intros ? ? []|].
      intros _ str' bd' next [= <-] _ P'. congruence. }
  destruct (next_occurrence bd today) as [[next k]|e] eqn:N.
  2:{ intros [= <- <-]. split; [intros ? ? [] | discriminate]. }
  intros H. apply and_then_inv in H
    as (o1 & sent1 & H1 & [(e & -> & -> & ->)|(-> & sent2 & H2 & ->)]).
  - (* the reminder for tomorrow raised *)
    unfold notify_if in H1. destruct (Z.eqb_spec k 1) as [->|Hk];
      [|discriminate].
    injection H1 as H1. destruct (send_to_sent _ _ _ _ H1) as [Hs _].
    split; [|discriminate].
    intros c m Hin. destruct (Hs c m Hin) as (-> & Hc & Hcne).
    repeat split; try assumption.
    exists str, bd, next, 1. repeat split; try assumption. now left.
  - assert (Hfirst :
      (forall c m, In (c, m) sent1 ->
         In (Some c) [GROUP_CHAT_ID; PERSONAL_CHAT_ID] /\ c <> ""
         /\ due name (Some str) m)
      /\ (k = 1 -> forall c, In (Some c) [GROUP_CHAT_ID; PERSONAL_CHAT_ID] ->
            c <> "" -> In (c, BirthdayTomorrow name) sent1)).
    { unfold notify_if in H1. destruct (Z.eqb_spec k 1) as [->|Hk].
      - injection H1 as H1. destruct (send_to_sent _ _ _ _ H1) as [Hs Hc].
        split; [|intros _; now apply Hc].
        intros c m Hin. destruct (Hs c m Hin) as (-> & Hc' & Hcne).
        repeat split; try assumption.
        exists str, bd, next, 1. repeat split; try assumption. now left.
      - injection H1 as <-. split; [intros ? ? [] | congruence]. }
    destruct Hfirst as [Hs1 Hc1].
    assert (Hsecond :
      forall c m, In (c, m) sent2 ->
        In (Some c) [GROUP_CHAT_ID; PERSONAL_CHAT_ID] /\ c <> ""
        /\ due name (Some str) m).
    { destruct (get_postcard_send_date get_dutch_holidays fuel next today)
        as [[psd|e]|] eqn:G; [| |discriminate].
      2:{ injection H2 as _ <-. intros ? ? []. }
      destruct (date_eqb today psd) eqn:D; cbn [andb] in H2.
      2:{ injection H2 as _ <-. intros ? ? []. }
      apply date_eqb_eq in D. subst psd.
      destruct (Z.ltb_spec (hour now) 10) as [Hh|Hh].
      2:{ injection H2 as _ <-. intros ? ? []. }
      destruct (format_date_for_display (strftime next)) as [f|e] eqn:F.
      2:{ injection H2 as _ <-. intros ? ? []. }
      injection H2 as H2. destruct (send_to_sent _ _ _ _ H2) as [Hs _].
      intros c m Hin. destruct (Hs c m Hin) as (-> & Hc' & Hcne).
      repeat split; try assumption.
      exists str, bd, next, k. repeat split; try assumption.
      right. exists f. auto. }
    split.
    + intros c m Hin. apply in_app_or in Hin as [Hin|Hin]; auto.
    + intros _ str' bd' next' [= <-] _ P' N' c Hc Hcne.
      rewrite P in P'. injection P' as <-.
      rewrite N in N'. injection N' as _ ->.
      apply in_or_app. left. now apply Hc1.
Qed.

Lemma check_group_sent : forall grp o sent,
  group_check fuel now grp = Some (o, sent) ->
  (forall c m, In (c, m) sent ->
     In (Some c) [GROUP_CHAT_ID; PERSONAL_CHAT_ID] /\ c <> ""
     /\ exists name b, In (name, b) grp /\ due name b m)
  /\ (o = Return tt ->
      forall name str bd next,
        In (name, Some str) grp -> str <> "" -> strptime str = Return bd ->
        next_occurrence bd today = Return (next, 1) ->
        forall c, In (Some c) [GROUP_CHAT_ID; PERSONAL_CHAT_ID] ->
          c <> "" -> In (c, BirthdayTomorrow name) sent).
Proof.
  induction grp as [|[name b] rest IH]; intros o sent.
  - simpl. intros [= <- <-]. split; [intros ? ? [] | intros _ ? ? ? ? []].
  - cbn [check_group]. intros H. apply and_then_inv in H
      as (o1 & sent1 & H1 & [(e & -> & -> & ->)|(-> & sent2 & H2 & ->)]).
    + destruct (check_entry_sent _ _ _ _ H1) as [Hs _].
      split; [|discriminate].
      intros c m Hin. destruct (Hs c m Hin) as (? & ? & ?).
      repeat split; try assumption. exists name, b. split; [now left | auto].
    + destruct (check_entry_sent _ _ _ _ H1) as [Hs1 Hc1].
      destruct (IH _ _ H2) as [Hs2 Hc2]. split.
      * intros c m Hin. apply in_app_or in Hin as [Hin|Hin].
        -- destruct (Hs1 c m Hin) as (? & ? & ?).
           repeat split; try assumption.
           exists name, b. split; [now left | auto].
        -- destruct (Hs2 c m Hin) as (? & ? & n' & b' & ? & ?).
           repeat split; try assumption.
           exists n', b'. split; [now right | auto].
      * intros -> n' str bd next [E|Hin] Hne P N c Hc Hcne;
          apply in_or_app.
        -- injection E as -> ->. left. now apply (Hc1 eq_refl str bd next).
        -- right. now apply (Hc2 eq_refl n' str bd next).
Qed.

Lemma check_book_sent : forall b o sent,
  book_check fuel now b = Some (o, sent) ->
  (forall c m, In (c, m) sent ->
     In (Some c) [GROUP_CHAT_ID; PERSONAL_CHAT_ID] /\ c <> "" /\ due_in b m)
  /\ (o = Return tt ->
      forall g grp name str bd next,
        In (g, grp) b -> In (name, Some str) grp -> str <> "" ->
        strptime str = Return bd ->
        next_occurrence bd today = Return (next, 1) ->
        forall c, In (Some c) [GROUP_CHAT_ID; PERSONAL_CHAT_ID] ->
          c <> "" -> In (c, BirthdayTomorrow name) sent).
Proof.
  induction b as [|[g grp] rest IH]; intros o sent.
  - simpl. intros [= <- <-]. split; [intros ? ? [] | intros _ ? ? ? ? ? ? []].
  - cbn [check_book]. intros H. apply and_then_inv in H
      as (o1 & sent1 & H1 & [(e & -> & -> & ->)|(-> & sent2 & H2 & ->)]).
    + destruct (check_group_sent _ _ _ H1) as [Hs _].
      split; [|discriminate].
      intros c m Hin. destruct (Hs c m Hin) as (? & ? & n' & b' & ? & ?).
      repeat split; try assumption.
      exists g, grp, n', b'. split; [now left | auto].
    + destruct (check_group_sent _ _ _ H1) as [Hs1 Hc1].
      destruct (IH _ _ H2) as [Hs2 Hc2]. split.
      * intros c m Hin. apply in_app_or in Hin as [Hin|Hin].
        -- destruct (Hs1 c m Hin) as (? & ? & n' & b' & ? & ?).
           repeat split; try assumption.
           exists g, grp, n', b'. split; [now left | auto].
        -- destruct (Hs2 c m Hin) as (? & ? & g' & grp' & n' & b' & ? & ?).
           repeat split; try assumption.
           exists g', grp', n', b'. split; [now right | auto].
      * intros -> g' grp' n' str bd next [[= <- <-]|Hin] Hn Hne P N c Hc Hcne;
          apply in_or_app.
        -- left. now apply (Hc1 eq_refl n' str bd next).
        -- right. now apply (Hc2 eq_refl g' grp' n' str bd next).
Qed.

Hypothesis today_valid : valid_date today = true.
Hypothesis dense : no_five_day_closure (get_dutch_holidays (year today)).
Hypothesis enough : (5 <= fuel)%nat.

Lemma check_entry_ends name b : exists r, entry_check fuel now name b = Some r.
Proof.
  unfold check_entry. destruct (is_set b); [|eauto].
  destruct (strptime _) as [bd|e]; [|destruct e; eauto].
  destruct (next_occurrence bd today) as [[next k]|e] eqn:N; [|eauto].
  destruct (next_occurrence_returns _ _ _ _ today_valid N) as (Hv & _).
  destruct (SchedulerMore.postcard_send_date_ends get_dutch_holidays next
              today fuel Hv dense enough) as (r & ->).
  unfold and_then, notify_if.
  destruct (k =? 1).
  - destruct (notify (BirthdayTomorrow name)) as [[[]|e] sent1]; [|eauto].
    destruct r as [psd|e]; [|eauto].
    destruct (date_eqb today psd && (hour now <? 10)); [|eauto].
    destruct (format_date_for_display (strftime next)); [|eauto].
    destruct (notify (LastDayForPostcard name a)); eauto.
  - destruct r as [psd|e]; [|eauto].
    destruct (date_eqb today psd && (hour now <? 10)); [|eauto].
    destruct (format_date_for_display (strftime next)); [|eauto].
    destruct (notify (LastDayForPostcard name a)); eauto.
Qed.

Lemma and_then_ends c k :
  (exists r, c = Some r) -> (exists r, k = Some r) ->
  exists r, and_then c k = Some r.
Proof.
  intros ([[[]|e] s1] & ->) ([o s2] & ->); simpl; eauto.
Qed.

Lemma check_group_ends grp : exists r, group_check fuel now grp = Some r.
Proof.
  induction grp as [|[name b] rest IH]; simpl; [eauto|].
  apply and_then_ends; [apply check_entry_ends | exact IH].
Qed.

Lemma check_book_ends b : exists r, book_check fuel now b = Some r.
Proof.
  induction b as [|[g grp] rest IH]; simpl; [eauto|].
  apply and_then_ends; [apply check_group_ends | exact IH].
Qed.

(** X17.  What the daily check sends.  With a calendar that never closes
    five days in a row (and five units of fuel for the loops of
    [get_postcard_send_date]) a turn of [check_next_birthday] ends, asleep
    until 08:00 of the next day or for an hour.  Whatever it sent went to a
    configured chat and is due: a reminder of a birthday only for an entry
    whose next occurrence is tomorrow, a postcard reminder only before
    10:00 and for an entry whose send date is today.  When the turn ends
    asleep until 08:00, every entry whose birthday is tomorrow had its
    reminder sent to every configured chat. *)
Theorem daily_check_sends_what_is_due (b : book) :
  exists p sent,
    iteration fuel now b = Some (p, sent)
    /\ (forall c m, In (c, m) sent ->
          (Some c = GROUP_CHAT_ID \/ Some c = PERSONAL_CHAT_ID)
          /\ due_in b m)
    /\ (forall tomorrow, p = UntilEight tomorrow ->
          add_days today 1 = Return tomorrow
          /\ forall g grp name str bd next,
               In (g, grp) b -> In (name, Some str) grp -> str <> "" ->
               strptime str = Return bd ->
               next_occurrence bd today = Return (next, 1) ->
               forall c,
                 Some c = GROUP_CHAT_ID \/ Some c = PERSONAL_CHAT_ID ->
                 c <> "" -> In (c, BirthdayTomorrow name) sent).
Proof.
  unfold check_next_birthday_iteration.
  destruct (check_book_ends b) as ([o sent] & Hb). rewrite Hb.
  destruct (check_book_sent _ _ _ Hb) as [Hs Hc].
  assert (Hchat : forall c,
            In (Some c) [GROUP_CHAT_ID; PERSONAL_CHAT_ID]
            <-> Some c = GROUP_CHAT_ID \/ Some c = PERSONAL_CHAT_ID).
  { intros c. simpl. split.
    - intros [H|[H|[]]]; [left | right]; now symmetry.
    - intros [H|H]; [left | right; left]; now symmetry. }
  assert (Hsound : forall c m, In (c, m) sent ->
            (Some c = GROUP_CHAT_ID \/ Some c = PERSONAL_CHAT_ID)
            /\ due_in b m).
  { intros c m Hin. destruct (Hs c m Hin) as (H1 & _ & H3).
    split; [now apply Hchat | exact H3]. }
  destruct o as [[]|e].
  - destruct (add_days today 1) as [tomorrow|e] eqn:A.
    + exists (UntilEight tomorrow), sent. split; [reflexivity|].
      split; [exact Hsound|].
      intros t [= <-]. split; [reflexivity|].
      intros g grp name str bd next Hg Hn Hne P N c Hcc Hcne.
      apply (Hc eq_refl g grp name str bd next); try assumption.
      now apply Hchat.
    + exists OneHour, sent. split; [reflexivity|].
      split; [exact Hsound | discriminate].
  - exists OneHour, sent. split; [reflexivity|].
    split; [exact Hsound | discriminate].
Qed.

End Turn.

(** *** A turn under any calendar

    [datetime.date] has [MAXORDINAL] days: with more fuel than that the
    loops of [get_postcard_send_date] end whatever the holidays are, and
    so does the turn. *)

Section EveryCalendar.

Variable fuel : nat.
Variable now : datetime.

Local Abbreviation today := (date_of now).

Hypothesis today_valid : valid_date today = true.
Hypothesis enough : (Z.to_nat MAXORDINAL < fuel)%nat.

Lemma check_entry_returns name b :
  exists r, entry_check fuel now name b = Some r.
Proof.
  unfold check_entry. destruct (is_set b); [|eauto].
  destruct (strptime _) as [bd|e]; [|destruct e; eauto].
  destruct (next_occurrence bd today) as [[next k]|e] eqn:N; [|eauto].
  destruct (next_occurrence_returns _ _ _ _ today_valid N) as (Hv & _).
  destruct (SchedulerMore.postcard_send_date_always_ends get_dutch_holidays
              next today fuel Hv enough) as (r & ->).
  unfold and_then, notify_if.
  destruct (k =? 1).
  - destruct (notify (BirthdayTomorrow name)) as [[[]|e] sent1]; [|eauto].
    destruct r as [psd|e]; [|eauto].
    destruct (date_eqb today psd && (hour now <? 10)); [|eauto].
    destruct (format_date_for_display (strftime next)); [|eauto].
    destruct (notify (LastDayForPostcard name a)); eauto.
  - destruct r as [psd|e]; [|eauto].
    destruct (date_eqb today psd && (hour now <? 10)); [|eauto].
    destruct (format_date_for_display (strftime next)); [|eauto].
    destruct (notify (LastDayForPostcard name a)); eauto.
Qed.

Lemma and_then_returns c k :
  (exists r, c = Some r) -> (exists r, k = Some r) ->
  exists r, and_then c k = Some r.
Proof.
  intros ([[[]|e] s1] & ->) ([o s2] & ->); simpl; eauto.
Qed.

Lemma check_group_returns grp :
  exists r, group_check fuel now grp = Some r.
Proof.
  induction grp as [|[name b] rest IH]; simpl; [eauto|].
  apply and_then_returns; [apply check_entry_returns | exact IH].
Qed.

Lemma check_book_returns b : exists r, book_check fuel now b = Some r.
Proof.
  induction b as [|[g grp] rest IH]; simpl; [eauto|].
  apply and_then_returns; [apply check_group_returns | exact IH].
Qed.

(** X18.  A birthday on 29 February stops the daily check.  With an
    entry set to a date that [strptime] reads as a 29 February, and today
    in a year that is not a leap year or after 29 February of one, every
    turn of the check, whatever the holidays are, ends in the hour of
    sleep of its [except], so the check runs again an hour later; what the
    turn sent is what the entries before that one made it send, and the
    entries after it are not looked at.  (The loops of
    [get_postcard_send_date] run with more fuel than [datetime.date] has
    days.) *)
Theorem leap_day_birthday_stops_the_daily_check
    (pre post : book) (group name str : string)
    (before after : dict birthday) (birthday_date : date) :
  strptime str = Return birthday_date ->
  str <> "" ->
  leap_day birthday_date = true ->
  is_leap (year today) = false
  \/ date_ltb (mkdate (year today) 2 29) today = true ->
  exists sent,
    iteration fuel now
      (pre ++ (group, before ++ (name, Some str) :: after) :: post)
    = Some (OneHour, sent)
    /\ exists p,
         iteration fuel now (pre ++ [(group, before)]) = Some (p, sent).
Proof.
  intros P Hne Hleap Hyear.
  assert (He : exists e, entry_check fuel now name (Some str)
                         = Some (Raise e, [])).
  { unfold check_entry.
    rewrite (proj2 (is_set_Some str) Hne), P.
    destruct (next_occurrence_leap_day _ today Hleap Hyear) as (e & ->).
    eauto. }
  destruct He as (e & He).
  unfold check_next_birthday_iteration.
  change (pre ++ (group, before ++ (name, Some str) :: after) :: post)
    with (pre ++ [(group, before ++ (name, Some str) :: after)] ++ post).
  rewrite !check_book_app.
  cbn [check_book]. rewrite check_group_app. cbn [check_group].
  rewrite He.
  destruct (check_book_returns pre) as ([o1 sent1] & ->).
  destruct (check_group_returns before) as ([o2 sent2] & ->).
  destruct o1 as [[]|e1]; cbn [and_then].
  - destruct o2 as [[]|e2]; cbn [and_then].
    + exists (sent1 ++ sent2 ++ []). split; [reflexivity|].
      destruct (add_days today 1) as [t|e']; eauto.
    + exists (sent1 ++ sent2). split; [reflexivity|]. eauto.
  - exists sent1. split; [reflexivity|]. eauto.
Qed.

End EveryCalendar.

(** *** The tests at startup *)

Variable test_api : string -> test_message -> option exn.

Lemma remove_test_person_entries s o s' :
  remove_test_person save_birthdays s = (o, s') ->
  ((forall others, get "Others" (birthdays s) = Some others ->
      distinct_keys others) ->
   o = Return tt ->
   entry "Others" "Test Person" (birthdays s') = None)
  /\ (forall g n, (g, n) <> ("Others", "Test Person") ->
        entry g n (birthdays s') = entry g n (birthdays s)).
Proof.
  unfold remove_test_person.
  destruct (get "Others" (birthdays s)) as [others|] eqn:G.
  2:{ intros [= <- <-]. split; [|reflexivity].
      intros _ _. unfold entry. now rewrite G. }
  unfold contains.
  destruct (get "Test Person" others) as [b|] eqn:T.
  2:{ intros [= <- <-]. split; [|reflexivity].
      intros _ _. unfold entry. now rewrite G. }
  destruct (del "Test Person" others) as [others'|e] eqn:D.
  2:{ intros [= <- <-]. split; [discriminate | reflexivity]. }
  unfold hbind, set_birthdays, save. cbn [birthdays saved replies].
  assert (Hothers : forall g n, (g, n) <> ("Others", "Test Person") ->
            entry g n (set "Others" others' (birthdays s))
            = entry g n (birthdays s)).
  { intros g n Hne. rewrite (entry_replace_group _ _ _ _ _ _ G).
    destruct (String.eqb_spec g "Others") as [->|]; [|reflexivity].
    unfold entry. rewrite G.
    assert (Hn : n <> "Test Person") by congruence. clear Hne.
    revert others' D. clear G T.
    induction others as [|[k x] rest IH]; simpl; intros others' D;
      [discriminate|].
    destruct (String.eqb_spec k "Test Person") as [->|Hk].
    - injection D as <-.
      destruct (String.eqb_spec "Test Person" n); [congruence | reflexivity].
    - destruct (del "Test Person" rest) as [rest'|e]; [|discriminate].
      injection D as <-. simpl. now rewrite (IH rest' eq_refl). }
  assert (Hgone : (forall others0, Some others = Some others0 ->
                     distinct_keys others0) ->
            entry "Others" "Test Person" (set "Others" others' (birthdays s))
            = None).
  { intros Hd. rewrite (entry_replace_group _ _ _ _ _ _ G).
    rewrite String.eqb_refl.
    rewrite (get_del _ "Test Person" _ _ (Hd others eq_refl) D).
    now rewrite String.eqb_refl. }
  destruct (save_birthdays (set "Others" others' (birthdays s)));
    intros [= <- <-]; cbn [birthdays]; split; auto.
Qed.

(** X19.  The tests at startup.  When [run_all_tests] returns, it reports
    success exactly when a personal chat is configured and each of the four
    test messages went out to it: a message that fails makes the report
    fail, never the run.  With no personal chat nothing is sent.  An
    entry "Test Person" of the group "Others" is gone from the book
    afterwards, whoever put it there, and every other entry is as it was. *)
Theorem startup_tests
    (today : date) (s s' : state) (passed : bool)
    (tried : list test_message) :
  run_all_tests strftime format_date_for_display save_birthdays
    PERSONAL_CHAT_ID test_api today s
  = (Return (passed, tried), s') ->
  (passed = true
   <-> exists id test_birthday,
         PERSONAL_CHAT_ID = Some id /\ id <> ""
         /\ tried = [TestCrossed; TestAlert; TestBirthdayTomorrow;
                     TestPostcard test_birthday]
         /\ forall m, In m tried -> test_api id m = None)
  /\ (configured PERSONAL_CHAT_ID = None -> tried = [])
  /\ ((forall others, get "Others" (birthdays s) = Some others ->
         distinct_keys others) ->
      entry "Others" "Test Person" (birthdays s') = None)
  /\ (forall g n, (g, n) <> ("Others", "Test Person") ->
        entry g n (birthdays s') = entry g n (birthdays s)).
Proof.
  unfold run_all_tests.
  assert (Hconf : forall id, configured PERSONAL_CHAT_ID = Some id ->
            PERSONAL_CHAT_ID = Some id /\ id <> "").
  { unfold configured. destruct PERSONAL_CHAT_ID as [id0|]; [|discriminate].
    destruct (String.eqb_spec id0 ""); cbn [negb]; [discriminate|].
    intros id [= <-]. auto. }
  assert (Hnone : configured PERSONAL_CHAT_ID = None ->
            forall id, PERSONAL_CHAT_ID = Some id -> id = "").
  { unfold configured. destruct PERSONAL_CHAT_ID as [id0|]; [|discriminate].
    destruct (String.eqb_spec id0 ""); cbn [negb]; [|discriminate].
    intros _ id [= <-]. assumption. }
  destruct (configured PERSONAL_CHAT_ID) as [id|] eqn:C.
  - destruct (Hconf id eq_refl) as [Hp Hne]. clear Hconf Hnone.
    cbn [andb]. unfold hbind at 1. unfold hlift at 1.
    destruct (add_days today 1) as [tomorrow|e]; [|discriminate].
    unfold hbind at 1. unfold hlift at 1.
    destruct (format_date_for_display (strftime tomorrow)) as [tb|e];
      [|discriminate].
    unfold hbind at 1.
    destruct (remove_test_person save_birthdays s) as [[[]|e] s1] eqn:R;
      [|discriminate].
    unfold hret. intros [= <- <- <-].
    destruct (remove_test_person_entries _ _ _ R) as [Hgone Hothers].
    split; [|split; [discriminate | split; [auto | exact Hothers]]].
    unfold send_test_message. cbn [app]. split.
    + intros Hall. exists id, tb. repeat split; try assumption.
      intros m [<-|[<-|[<-|[<-|[]]]]];
        destruct (test_api id TestCrossed), (test_api id TestAlert),
          (test_api id TestBirthdayTomorrow), (test_api id (TestPostcard tb));
        try discriminate Hall; reflexivity.
    + intros (id' & tb' & Hp' & _ & [= <-] & Hall).
      rewrite Hp in Hp'. injection Hp' as <-.
      rewrite (Hall TestCrossed), (Hall TestAlert),
        (Hall TestBirthdayTomorrow), (Hall (TestPostcard tb)); simpl; auto 6.
  - unfold hbind at 1. unfold hlift at 1.
    destruct (add_days today 1) as [tomorrow|e]; [|discriminate].
    unfold hbind at 1. unfold hlift at 1.
    destruct (format_date_for_display (strftime tomorrow)) as [tb|e];
      [|discriminate].
    unfold hbind at 1.
    destruct (remove_test_person save_birthdays s) as [[[]|e] s1] eqn:R;
      [|discriminate].
    unfold hret. intros [= <- <- <-].
    destruct (remove_test_person_entries _ _ _ R) as [Hgone Hothers].
    split; [|split; [reflexivity | split; [auto | exact Hothers]]].
    split; [discriminate|].
    intros (id' & tb' & Hp' & Hne & [=] & _).
Qed.

End Environment.

(** *** On the small book *)

Lemma birthday_line_age_witness :
  date_ltb (mkdate 2024 3 10) (mkdate (1990 + 34) 3 10) = false
  /\ date_ltb (mkdate 2024 3 10) (mkdate (1990 + (34 + 1)) 3 10) = true.
Proof.
  destruct (birthday_line_age sample_strptime sample_format
              (mkdate 2024 3 10) "Ann" "10-03-1990" (mkdate 1990 3 10)
              "Ann" "10 Mar 1990" 34 0 eq_refl eq_refl eq_refl)
    as (H1 & H2 & _).
  split; [exact H1 | exact H2].
Defined.

Lemma unauthorized_user_cannot_edit_witness :
  birthdays
    (snd (remove_birthday (Some "42") saves replies_sent
            (mkmessage "7" "/delete Ann") sample_state))
  = sample_book.
Proof.
  exact (proj1 (unauthorized_user_cannot_edit (Some "42") sample_strptime
                  sample_strftime sample_format saves replies_sent
                  (mkmessage "7" "/delete Ann") sample_state eq_refl)).
Defined.

Lemma add_then_lookup_witness :
  entry "Friends" "Dee Dee"
    (birthdays
       (snd (add_birthday (Some "42") sample_strptime sample_strftime
               sample_format saves replies_sent
               (mkmessage "7" "/add Friends Dee Dee 10-03-1990")
               sample_state)))
  = Some (Some "10-03-1990").
Proof.
  pose proof (add_then_lookup (Some "42") sample_strptime sample_strftime
                sample_format saves replies_sent
                (mkmessage "7" "/add Friends Dee Dee 10-03-1990")
                sample_state (mkdate 1990 3 10)
                "/add" "Friends" "Dee Dee" "10-03-1990" "10 Mar 1990"
                eq_refl eq_refl eq_refl eq_refl eq_refl eq_refl
                (or_introl eq_refl) (fun _ => eq_refl) eq_refl
                (fun _ => eq_refl)) as H.
  destruct (add_birthday (Some "42") sample_strptime sample_strftime
              sample_format saves replies_sent
              (mkmessage "7" "/add Friends Dee Dee 10-03-1990")
              sample_state) as [o s'].
  exact (proj1 (proj2 H)).
Defined.

Lemma delete_removes_from_first_group_witness :
  exists grp0',
    birthdays
      (snd (remove_birthday (Some "42") saves replies_sent
              (mkmessage "42" "/delete Ann") sample_state))
    = [("Family", grp0'); ("Friends", [("Ann", Some "25-12-1985")])]
    /\ get "Ann" grp0' = None.
Proof.
  pose proof (delete_removes_from_first_group (Some "42") saves
                replies_sent (mkmessage "42" "/delete Ann") sample_state
                "/delete" "Ann" eq_refl eq_refl eq_refl (fun _ => eq_refl)
                (fun _ => eq_refl)) as H.
  destruct (remove_birthday (Some "42") saves replies_sent
              (mkmessage "42" "/delete Ann") sample_state) as [o s'].
  destruct H as (_ & _ & H).
  destruct (H [] "Family" [("Ann", Some "10-03-1990"); ("Bob", None)]
              [("Friends", [("Ann", Some "25-12-1985")])] eq_refl
              (fun _ _ F => match F with end) eq_refl)
    as (grp' & Hb & Hname & _).
  { repeat constructor; simpl; intuition discriminate. }
  exists grp'. split; [exact Hb | exact Hname].
Defined.

Lemma get_next_birthday_is_soonest_witness :
  0 <= 1
  /\ exists g grp n str bd next,
       Some "Ann" = Some n /\ In (g, grp) sample_book
       /\ In (n, Some str) grp /\ str <> ""
       /\ sample_strptime str = Return bd
       /\ next_occurrence bd (mkdate 2024 3 9) = Return (next, 1).
Proof.
  exact (proj1 (proj2 (get_next_birthday_is_soonest sample_strptime
                         (mkdate 2024 3 9) sample_book (Some "Ann")
                         (Some 1) eq_refl eq_refl)) 1 eq_refl).
Defined.

Lemma leap_day_birthday_breaks_the_lists_witness :
  exists e,
    get_next_birthday sample_strptime (mkdate 2024 3 10) leap_book = Raise e.
Proof.
  exact (proj1 (leap_day_birthday_breaks_the_lists sample_strptime
                  sample_strftime sample_format replies_sent
                  (mkdate 2024 3 10) "29-02-2000" (mkdate 2000 2 29)
                  eq_refl ltac:(discriminate) eq_refl (or_intror eq_refl)
                  (mkstate leap_book [] []) "Friends" "Cleo"
                  [("Cleo", Some "29-02-2000"); ("Ann", Some "25-12-1985")]
                  30 (or_intror (or_introl eq_refl)) (or_introl eq_refl))).
Defined.

Lemma upcoming_birthdays_sorted_and_complete_witness :
  show_upcoming_birthdays sample_strptime sample_strftime sample_format
    replies_sent (mkdate 2024 3 9) sample_state
  = (Return tt,
     mkstate sample_book [] [Upcoming [("Ann", mkdate 2024 3 10, 1)]
                               ["10 Mar 2024"]]).
Proof.
  exact (proj2 (proj2 (upcoming_birthdays_sorted_and_complete
                         sample_strptime sample_strftime sample_format
                         replies_sent (mkdate 2024 3 9) 30 sample_state
                         [("Ann", mkdate 2024 3 10, 1)] eq_refl))
           eq_refl ["10 Mar 2024"] eq_refl (fun _ => eq_refl)).
Defined.

Lemma daily_check_sends_what_is_due_witness :
  exists p sent,
    check_next_birthday_iteration sample_strptime sample_strftime
      sample_format message_sent (Some "-100") (Some "7")
      (fun _ => no_holidays) 5 (mkdatetime (mkdate 2024 3 9) 8) sample_book
    = Some (p, sent).
Proof.
  destruct (daily_check_sends_what_is_due sample_strptime sample_strftime
              sample_format message_sent (Some "-100") (Some "7")
              (fun _ => no_holidays) 5 (mkdatetime (mkdate 2024 3 9) 8)
              eq_refl weekends_never_close_five_days (le_n 5) sample_book)
    as (p & sent & H & _).
  exists p, sent. exact H.
Defined.

Lemma leap_day_birthday_stops_the_daily_check_witness :
  exists sent,
    check_next_birthday_iteration sample_strptime sample_strftime
      sample_format message_sent (Some "-100") (Some "7")
      crowded (S (Z.to_nat MAXORDINAL))
      (mkdatetime (mkdate 2024 3 10) 8) leap_book
    = Some (OneHour, sent).
Proof.
  destruct (leap_day_birthday_stops_the_daily_check sample_strptime
              sample_strftime sample_format message_sent (Some "-100")
              (Some "7") crowded (S (Z.to_nat MAXORDINAL))
              (mkdatetime (mkdate 2024 3 10) 8)
              eq_refl (Nat.lt_succ_diag_r (Z.to_nat MAXORDINAL))
              [("Family", [("Ann", Some "10-03-1990"); ("Bob", None)])]
              [] "Friends" "Cleo" "29-02-2000" []
              [("Ann", Some "25-12-1985")] (mkdate 2000 2 29)
              eq_refl ltac:(discriminate) eq_refl (or_intror eq_refl))
    as (sent & H & _).
  exists sent. exact H.
Defined.

Lemma startup_tests_witness :
  true = true
  <-> exists id test_birthday,
        Some "7" = Some id /\ id <> ""
        /\ [TestCrossed; TestAlert; TestBirthdayTomorrow;
            TestPostcard "10 Mar 2024"]
           = [TestCrossed; TestAlert; TestBirthdayTomorrow;
              TestPostcard test_birthday]
        /\ forall m,
             In m [TestCrossed; TestAlert; TestBirthdayTomorrow;
                   TestPostcard "10 Mar 2024"] ->
             test_sent id m = None.
Proof.
  exact (proj1 (startup_tests sample_strftime sample_format saves
                  (Some "7") test_sent (mkdate 2024 3 9) sample_state
                  sample_state true
                  [TestCrossed; TestAlert; TestBirthdayTomorrow;
                   TestPostcard "10 Mar 2024"] eq_refl)).
Defined.

End BirthdaysFacts.
